(** * claude-scheduler: the job execution engine

    A shallow embedding of the scheduler ([internal/scheduler/scheduler.go]),
    of the store operations it calls ([internal/db/jobs.go],
    [internal/db/runs.go]), of the process orchestration and transcript
    layer (package [executor]) and of the notification callback
    ([app.go]), followed by the properties of the specification that they
    satisfy and by further properties of the same code.

    Conventions of the embedding.
    - A Go [string] is a sequence of bytes: [String.string], one [ascii] per
      byte.  Lengths and slice bounds are [Z].
    - A Go [error] is its message; [option string] is an error that may be
      [nil].
    - [int] and [time.Duration] are 64-bit: arithmetic on them is written
      with its wrap-around ([wrap64]).
    - The SQLite tables are lists of rows; a statement acts on every row its
      [WHERE] clause selects.  Statements are assumed to reach the database
      (no I/O failure), so a store operation only fails for the reasons its
      Go code or the schema's keys give.
    - The Go standard library functions whose code is not part of the
      repository ([time.Parse], [Time.Format], [json.Unmarshal],
      [json.MarshalIndent]) are operations of the classes [TimeLib] and
      [JsonLib]; every theorem holds for all their instances.  Child
      processes, the clock and [uuid.New] are inputs of the functions that
      use them. *)

From Stdlib Require Import ZArith List String Ascii Bool Lia Permutation.
Import ListNotations.

#[local] Open Scope string_scope.
#[local] Open Scope Z_scope.

(* ===================================================================== *)
(** * Go strings *)
(* ===================================================================== *)

Module GoStrings.

(** [len(s)]. *)
Definition len (s : string) : Z := Z.of_nat (String.length s).

(** [s[:hi]] for [0 <= hi <= len(s)]. *)
Definition slice_to (s : string) (hi : Z) : string :=
  substring 0 (Z.to_nat hi) s.

(** The double quote, for the HTML fragments of the transcript. *)
Definition dq : string := String "034"%char EmptyString.

(** [strings.Contains(s, substr)]. *)
Fixpoint Contains (s substr : string) : bool :=
  if prefix substr s then true
  else match s with
       | EmptyString => false
       | String _ s' => Contains s' substr
       end.

(** The bytes of a string in reverse order (the scan from the end of
    [strings.TrimRightFunc]). *)
Fixpoint srev_onto (s acc : string) : string :=
  match s with
  | EmptyString => acc
  | String c r => srev_onto r (String c acc)
  end.

Definition srev (s : string) : string := srev_onto s EmptyString.

(** The six ASCII bytes of [asciiSpace] in package [strings]. *)
Definition asciiSpace (c : ascii) : bool :=
  Ascii.eqb c "009" || Ascii.eqb c "010" || Ascii.eqb c "011" ||
  Ascii.eqb c "012" || Ascii.eqb c "013" || Ascii.eqb c "032".

Definition byte_is (c : ascii) (n : N) : bool := N.eqb (N_of_ascii c) n.

(** The UTF-8 encodings of the white space of [unicode.IsSpace] above
    U+007F: U+0085 and U+00A0 (two bytes) ... *)
Definition space2 (c1 c2 : ascii) : bool :=
  byte_is c1 194 && (byte_is c2 133 || byte_is c2 160).

(** ... and U+1680, U+2000..U+200A, U+2028, U+2029, U+202F, U+205F, U+3000
    (three bytes). *)
Definition space3 (c1 c2 c3 : ascii) : bool :=
  (byte_is c1 225 && byte_is c2 154 && byte_is c3 128) ||
  (byte_is c1 226 && byte_is c2 128 &&
     ((N.leb 128 (N_of_ascii c3) && N.leb (N_of_ascii c3) 138) ||
      byte_is c3 168 || byte_is c3 169 || byte_is c3 175)) ||
  (byte_is c1 226 && byte_is c2 129 && byte_is c3 159) ||
  (byte_is c1 227 && byte_is c2 128 && byte_is c3 128).

(** [strings.TrimLeftFunc(s, unicode.IsSpace)]: runes are decoded from the
    front; a byte sequence that is no white space stops the scan. *)
Fixpoint TrimLeft (s : string) : string :=
  match s with
  | EmptyString => s
  | String c1 r1 =>
      if asciiSpace c1 then TrimLeft r1
      else match r1 with
           | EmptyString => s
           | String c2 r2 =>
               if space2 c1 c2 then TrimLeft r2
               else match r2 with
                    | EmptyString => s
                    | String c3 r3 =>
                        if space3 c1 c2 c3 then TrimLeft r3 else s
                    end
           end
  end.

(** The same scan from the end, on the reversed string: [c1] is the last
    byte, [c2] the one before it. *)
Fixpoint trimRev (s : string) : string :=
  match s with
  | EmptyString => s
  | String c1 r1 =>
      if asciiSpace c1 then trimRev r1
      else match r1 with
           | EmptyString => s
           | String c2 r2 =>
               if space2 c2 c1 then trimRev r2
               else match r2 with
                    | EmptyString => s
                    | String c3 r3 =>
                        if space3 c3 c2 c1 then trimRev r3 else s
                    end
           end
  end.

Definition TrimRight (s : string) : string := srev (trimRev (srev s)).

(** [strings.TrimSpace(s)]. *)
Definition TrimSpace (s : string) : string := TrimRight (TrimLeft s).

(** [strings.Join(elems, sep)]. *)
Definition Join (elems : list string) (sep : string) : string :=
  String.concat sep elems.

(** The line feed. *)
Definition LF : string := String "010"%char EmptyString.

End GoStrings.

(* ===================================================================== *)
(** * Package time *)
(* ===================================================================== *)

Module GoTime.

(** [time.Duration] is an [int64] count of nanoseconds. *)
Definition Duration := Z.

(** An instant, in nanoseconds since the Unix epoch.  [Time.Add] saturates
    only at the ends of the representable range (some 292 billion years
    away); every instant here is a parsed four-digit-year timestamp or the
    clock, where it is plain addition. *)
Definition Time := Z.

(** The value an [int64] computation yields: the result modulo 2^64, in
    [-2^63, 2^63). *)
Definition wrap64 (z : Z) : Z := (z + 2 ^ 63) mod 2 ^ 64 - 2 ^ 63.

Definition Nanosecond : Duration := 1.
Definition Microsecond : Duration := 1000 * Nanosecond.
Definition Millisecond : Duration := 1000 * Microsecond.
Definition Second : Duration := 1000 * Millisecond.
Definition Minute : Duration := 60 * Second.
Definition Hour : Duration := 60 * Minute.

(** [d1 * d2] on [Duration]. *)
Definition dmul (d1 d2 : Duration) : Duration := wrap64 (d1 * d2).

(** [t.Add(d)]. *)
Definition Add (t : Time) (d : Duration) : Time := t + d.

(** [t.After(u)]. *)
Definition After (t u : Time) : bool := u <? t.

(** [time.RFC3339]. *)
Definition RFC3339 : string := "2006-01-02T15:04:05Z07:00".

(** [time.Parse(layout, value)] and [t.Format(layout)] of a UTC time. *)
Class TimeLib := {
  Parse : string -> string -> option Time;
  Format : Time -> string -> string
}.

End GoTime.

(* ===================================================================== *)
(** * Package db: jobs, runs and the store *)
(* ===================================================================== *)

Module Db.
Import GoStrings.

(** [const maxRunsPerJob], [maxOutputBytes], [truncatedMarker]. *)
Definition maxRunsPerJob : Z := 10.
Definition maxOutputBytes : Z := 100 * 1024.
Definition truncatedMarker : string := LF ++ LF ++ "[truncated]".

(** Modelled from the spec: the last field, the pending question payload
    of a job (an optional, opaque structured text), which scheduler.go reads
    and writes as [job.PendingQuestion] and whose declaration and column are
    absent from jobs.go.  The other fields are [type Job struct]. *)
Record Job := mkJob {
  job_ID : string;
  job_Name : string;
  job_StartDate : string;
  job_IntervalValue : Z;
  job_IntervalUnit : string;
  job_Prompt : string;
  job_Active : bool;
  job_NextRun : string;
  job_LastRun : string;
  job_Status : string;
  job_Output : string;
  job_PendingQuestion : string
}.

(** [type JobRun struct]. *)
Record JobRun := mkJobRun {
  run_ID : string;
  run_JobID : string;
  run_StartedAt : string;
  run_EndedAt : string;
  run_Status : string;
  run_Output : string;
  run_PendingQuestion : string
}.

(** [type MCPServer struct]. *)
Record MCPServer := mkMCPServer {
  mcp_ID : string;
  mcp_Name : string;
  mcp_Type : string;
  mcp_URL : string;
  mcp_Command : string;
  mcp_Args : string;
  mcp_Env : string;
  mcp_Headers : string
}.

(** The zero values [Job{}] and [JobRun{}]. *)
Definition zeroJob : Job := mkJob "" "" "" 0 "" "" false "" "" "" "" "".
Definition zeroRun : JobRun := mkJobRun "" "" "" "" "" "" "".

(** The tables [jobs], [job_runs], [mcp_servers] and [job_mcp_servers]
    (rows of the last: job id, server id). *)
Record Store := mkStore {
  jobs : list Job;
  job_runs : list JobRun;
  mcp_servers : list MCPServer;
  job_mcp_servers : list (string * string)
}.

Definition with_jobs (s : Store) (js : list Job) : Store :=
  mkStore js (job_runs s) (mcp_servers s) (job_mcp_servers s).

Definition with_runs (s : Store) (rs : list JobRun) : Store :=
  mkStore (jobs s) rs (mcp_servers s) (job_mcp_servers s).

(** Field updates of the Go code ([job.Status = ...]). *)
Definition set_job_Status (j : Job) (v : string) : Job :=
  mkJob (job_ID j) (job_Name j) (job_StartDate j) (job_IntervalValue j)
        (job_IntervalUnit j) (job_Prompt j) (job_Active j) (job_NextRun j)
        (job_LastRun j) v (job_Output j) (job_PendingQuestion j).

Definition set_job_Output (j : Job) (v : string) : Job :=
  mkJob (job_ID j) (job_Name j) (job_StartDate j) (job_IntervalValue j)
        (job_IntervalUnit j) (job_Prompt j) (job_Active j) (job_NextRun j)
        (job_LastRun j) (job_Status j) v (job_PendingQuestion j).

Definition set_job_PendingQuestion (j : Job) (v : string) : Job :=
  mkJob (job_ID j) (job_Name j) (job_StartDate j) (job_IntervalValue j)
        (job_IntervalUnit j) (job_Prompt j) (job_Active j) (job_NextRun j)
        (job_LastRun j) (job_Status j) (job_Output j) v.

Definition set_job_LastRun (j : Job) (v : string) : Job :=
  mkJob (job_ID j) (job_Name j) (job_StartDate j) (job_IntervalValue j)
        (job_IntervalUnit j) (job_Prompt j) (job_Active j) (job_NextRun j)
        v (job_Status j) (job_Output j) (job_PendingQuestion j).

Definition set_job_NextRun (j : Job) (v : string) : Job :=
  mkJob (job_ID j) (job_Name j) (job_StartDate j) (job_IntervalValue j)
        (job_IntervalUnit j) (job_Prompt j) (job_Active j) v
        (job_LastRun j) (job_Status j) (job_Output j) (job_PendingQuestion j).

Definition set_job_ID (j : Job) (v : string) : Job :=
  mkJob v (job_Name j) (job_StartDate j) (job_IntervalValue j)
        (job_IntervalUnit j) (job_Prompt j) (job_Active j) (job_NextRun j)
        (job_LastRun j) (job_Status j) (job_Output j) (job_PendingQuestion j).

Definition set_run_ID (r : JobRun) (v : string) : JobRun :=
  mkJobRun v (run_JobID r) (run_StartedAt r) (run_EndedAt r) (run_Status r)
           (run_Output r) (run_PendingQuestion r).

Definition set_run_EndedAt (r : JobRun) (v : string) : JobRun :=
  mkJobRun (run_ID r) (run_JobID r) (run_StartedAt r) v (run_Status r)
           (run_Output r) (run_PendingQuestion r).

Definition set_run_Status (r : JobRun) (v : string) : JobRun :=
  mkJobRun (run_ID r) (run_JobID r) (run_StartedAt r) (run_EndedAt r) v
           (run_Output r) (run_PendingQuestion r).

Definition set_run_Output (r : JobRun) (v : string) : JobRun :=
  mkJobRun (run_ID r) (run_JobID r) (run_StartedAt r) (run_EndedAt r)
           (run_Status r) v (run_PendingQuestion r).

Definition set_run_PendingQuestion (r : JobRun) (v : string) : JobRun :=
  mkJobRun (run_ID r) (run_JobID r) (run_StartedAt r) (run_EndedAt r)
           (run_Status r) (run_Output r) v.

(** [var validIntervalUnits]. *)
Definition validIntervalUnits (unit : string) : bool :=
  (unit =? "minutes")%string || (unit =? "hours")%string ||
  (unit =? "days")%string || (unit =? "weeks")%string.

(** [func validateJob(j Job) error]. *)
Definition validateJob (j : Job) : option string :=
  if job_IntervalValue j <=? 0
  then Some "interval value must be greater than 0"
  else if negb (validIntervalUnits (job_IntervalUnit j))
  then Some ("invalid interval unit: " ++ job_IntervalUnit j)
  else None.

(** [ORDER BY]: a stable insertion sort by a key order. *)
Fixpoint insert_by {A : Type} (le : A -> A -> bool) (x : A) (l : list A)
  : list A :=
  match l with
  | [] => [x]
  | y :: l' => if le x y then x :: l else y :: insert_by le x l'
  end.

Definition sort_by {A : Type} (le : A -> A -> bool) (l : list A) : list A :=
  fold_right (insert_by le) [] l.

(** [func (s *Store) GetJobs() ([]Job, error)]. *)
Definition GetJobs (s : Store) : list Job :=
  sort_by (fun a b => String.leb (job_Name a) (job_Name b)) (jobs s).

(** [func (s *Store) GetJob(id string) (Job, error)]: the zero job and
    [sql.ErrNoRows] when no row has the id. *)
Definition GetJob (s : Store) (id : string) : Job * option string :=
  match find (fun j => (job_ID j =? id)%string) (jobs s) with
  | Some j => (j, None)
  | None => (zeroJob, Some "sql: no rows in result set")
  end.

(** Rows a statement's [WHERE id = ?] selects. *)
Definition affected {A : Type} (sel : A -> bool) (rows : list A) : Z :=
  Z.of_nat (List.length (filter sel rows)).

(** [func (s *Store) CreateJob(j Job) (Job, error)]; [uuid] is what
    [uuid.New().String()] returns.  The insert fails on a taken primary
    key. *)
Definition CreateJob (s : Store) (j : Job) (uuid : string)
  : Job * option string * Store :=
  match validateJob j with
  | Some e => (j, Some e, s)
  | None =>
      let j := if (job_ID j =? "")%string then set_job_ID j uuid else j in
      let j := if (job_Status j =? "")%string
               then set_job_Status j "pending" else j in
      if existsb (fun r => (job_ID r =? job_ID j)%string) (jobs s)
      then (j, Some "constraint failed: UNIQUE constraint failed: jobs.id (1555)",
            s)
      else (j, None, with_jobs s (jobs s ++ [j]))
  end.

(** [func (s *Store) UpdateJob(j Job) (Job, error)]: every column of the
    row with the job's id is overwritten with the job's fields. *)
Definition UpdateJob (s : Store) (j : Job) : Job * option string * Store :=
  match validateJob j with
  | Some e => (j, Some e, s)
  | None =>
      let sel := fun r => (job_ID r =? job_ID j)%string in
      let s' := with_jobs s (map (fun r => if sel r then j else r) (jobs s)) in
      if affected sel (jobs s) =? 0
      then (j, Some ("job not found: " ++ job_ID j), s')
      else (j, None, s')
  end.

(** [func (s *Store) ResetRunningJobs() (int64, error)]:
    [UPDATE jobs SET status='failed', output='interrupted: app was
    restarted' WHERE status='running']. *)
Definition resetRow (r : Job) : Job :=
  if (job_Status r =? "running")%string
  then set_job_Output (set_job_Status r "failed")
                      "interrupted: app was restarted"
  else r.

Definition ResetRunningJobs (s : Store) : Z * Store :=
  (affected (fun r => (job_Status r =? "running")%string) (jobs s),
   with_jobs s (map resetRow (jobs s))).

(** [func truncateOutput(s string) string]. *)
Definition truncateOutput (s : string) : string :=
  if len s <=? maxOutputBytes then s
  else slice_to s (maxOutputBytes - len truncatedMarker) ++ truncatedMarker.

(** [func (s *Store) CreateRun(run JobRun) (JobRun, error)]; [uuid] is what
    [uuid.New().String()] returns.  The run comes back with its id and its
    truncated output also when the insert fails.  The insert fails on a
    taken primary key and, the schema declaring [FOREIGN KEY (job_id)
    REFERENCES jobs(id)] with [PRAGMA foreign_keys = ON], for a job id
    that is not in the jobs table. *)
Definition CreateRun (s : Store) (run : JobRun) (uuid : string)
  : JobRun * option string * Store :=
  let run := if (run_ID run =? "")%string then set_run_ID run uuid else run in
  let run := set_run_Output run (truncateOutput (run_Output run)) in
  if existsb (fun r => (run_ID r =? run_ID run)%string) (job_runs s)
  then (run,
        Some "constraint failed: UNIQUE constraint failed: job_runs.id (1555)",
        s)
  else if negb (existsb (fun j => (job_ID j =? run_JobID run)%string) (jobs s))
  then (run, Some "constraint failed: FOREIGN KEY constraint failed (787)", s)
  else (run, None, with_runs s (job_runs s ++ [run])).

(** The columns [UPDATE job_runs SET status=?, output=?, ended_at=?,
    pending_question=?] writes. *)
Definition updateRunRow (run r : JobRun) : JobRun :=
  mkJobRun (run_ID r) (run_JobID r) (run_StartedAt r) (run_EndedAt run)
           (run_Status run) (run_Output run) (run_PendingQuestion run).

(** [func (s *Store) UpdateRun(run JobRun) error]. *)
Definition UpdateRun (s : Store) (run : JobRun) : option string * Store :=
  let run := set_run_Output run (truncateOutput (run_Output run)) in
  let sel := fun r => (run_ID r =? run_ID run)%string in
  let s' := with_runs s (map (fun r => if sel r then updateRunRow run r else r)
                             (job_runs s)) in
  if affected sel (job_runs s) =? 0
  then (Some ("run not found: " ++ run_ID run), s')
  else (None, s').

(** [WHERE job_id = ? ORDER BY started_at DESC]: newest first; rows with
    equal start times keep their table order. *)
Definition runsNewestFirst (s : Store) (jobID : string) : list JobRun :=
  sort_by (fun a b => String.leb (run_StartedAt b) (run_StartedAt a))
          (filter (fun r => (run_JobID r =? jobID)%string) (job_runs s)).

(** [func (s *Store) GetRunsForJob(jobID string) ([]JobRun, error)]. *)
Definition GetRunsForJob (s : Store) (jobID : string) : list JobRun :=
  firstn (Z.to_nat maxRunsPerJob) (runsNewestFirst s jobID).

(** [func (s *Store) GetLatestRun(jobID string) (JobRun, error)]. *)
Definition GetLatestRun (s : Store) (jobID : string)
  : JobRun * option string :=
  match runsNewestFirst s jobID with
  | r :: _ => (r, None)
  | [] => (zeroRun, Some "sql: no rows in result set")
  end.

(** [func (s *Store) PruneRuns(jobID string) error]. *)
Definition PruneRuns (s : Store) (jobID : string) : option string * Store :=
  let keep := map run_ID (firstn (Z.to_nat maxRunsPerJob)
                                 (runsNewestFirst s jobID)) in
  (None,
   with_runs s
     (filter (fun r => negb ((run_JobID r =? jobID)%string &&
                             negb (existsb (String.eqb (run_ID r)) keep)))
             (job_runs s))).

(** [func (s *Store) DeleteRunsForJob(jobID string) error]. *)
Definition DeleteRunsForJob (s : Store) (jobID : string)
  : option string * Store :=
  (None,
   with_runs s (filter (fun r => negb (run_JobID r =? jobID)%string)
                       (job_runs s))).

(** [func (s *Store) GetMCPServersForJob(jobID string) ([]MCPServer, error)]. *)
Definition GetMCPServersForJob (s : Store) (jobID : string)
  : list MCPServer :=
  sort_by (fun a b => String.leb (mcp_Name a) (mcp_Name b))
    (filter (fun m => existsb (fun p => (fst p =? jobID)%string &&
                                        (snd p =? mcp_ID m)%string)
                              (job_mcp_servers s))
            (mcp_servers s)).

End Db.

(* ===================================================================== *)
(** * Package executor: events, transcript, questions, errors *)
(* ===================================================================== *)

Module Executor.
Import GoStrings Db.

(** [type ExecuteResult struct]. *)
Record ExecuteResult := mkResult {
  Transcript : string;
  RawLines : list string
}.

Definition zeroResult : ExecuteResult := mkResult "" [].

(** [type cliContentBlock struct]; [Input] is a [json.RawMessage]. *)
Record cliContentBlock := mkBlock {
  blk_Type : string;
  blk_Text : string;
  blk_Name : string;
  blk_ID : string;
  blk_Input : string
}.

(** [type cliMessage struct]. *)
Record cliMessage := mkMessage {
  msg_Role : string;
  msg_Content : list cliContentBlock
}.

(** [type cliEvent struct]; [Message] is a pointer, [None] is [nil]. *)
Record cliEvent := mkEvent {
  evt_Type : string;
  evt_Subtype : string;
  evt_Message : option cliMessage;
  evt_Content : string;
  evt_Result : string;
  evt_IsError : bool
}.

(** [type questionOption struct], [questionItem], [questionInput]. *)
Record questionOption := mkOption {
  opt_Label : string;
  opt_Description : string
}.

Record questionItem := mkItem {
  q_Question : string;
  q_Header : string;
  q_Options : list questionOption
}.

Record questionInput := mkQuestions {
  Questions : list questionItem
}.

(** [type mcpServerEntry struct]. *)
Record mcpServerEntry := mkEntry {
  ent_Type : string;
  ent_URL : string;
  ent_Command : string;
  ent_Args : list string;
  ent_Env : list (string * string);
  ent_Headers : list (string * string)
}.

(** Package [encoding/json], as the executor uses it.  Each decoder is
    [json.Unmarshal] into a zero value of the named type, [None] when it
    returns an error. *)
Class JsonLib := {
  unmarshalEvent : string -> option cliEvent;
  unmarshalQuestion : string -> option questionInput;
  (** [json.Unmarshal] into an [interface{}], then
      [json.MarshalIndent(parsed, "", "  ")]. *)
  indent : string -> option string;
  unmarshalStrings : string -> option (list string);
  unmarshalStringMap : string -> option (list (string * string));
  (** [json.Marshal] of a [mcpConfigFile]: the document, or the error. *)
  marshalConfig : list (string * mcpServerEntry) -> string + string;
  (** [json.Unmarshal] of no input at all is an error (unexpected end of
      JSON input). *)
  unmarshalQuestion_empty : unmarshalQuestion "" = None
}.

(** An opening tag with a style attribute. *)
Definition styled (tag style : string) : string :=
  "<" ++ tag ++ " style=" ++ dq ++ style ++ dq ++ ">".

(** [type transcriptBuilder struct]. *)
Record transcriptBuilder := mkTB {
  buf : string;
  hasContent : bool
}.

(** [tb.buf.WriteString(s)]. *)
Definition WriteString (tb : transcriptBuilder) (s : string)
  : transcriptBuilder :=
  mkTB (buf tb ++ s) (hasContent tb).

Definition setContent (tb : transcriptBuilder) : transcriptBuilder :=
  mkTB (buf tb) true.

(** [func (tb *transcriptBuilder) writeText(text string)]. *)
Definition writeText (tb : transcriptBuilder) (text : string)
  : transcriptBuilder :=
  let text := TrimSpace text in
  if (text =? "")%string then tb
  else
    let tb := WriteString tb (styled "div" "margin:8px 0;padding:8px 12px;border-left:3px solid #22d3ee;background:#0f172a;border-radius:4px;color:#e2e8f0;font-size:13px;line-height:1.5") in
    let tb := WriteString tb text in
    let tb := WriteString tb ("</div>" ++ LF ++ LF) in
    setContent tb.

(** The card of one question option (the body of the inner loop of
    [writeQuestion]). *)
Definition writeOption (tb : transcriptBuilder) (opt : questionOption)
  : transcriptBuilder :=
  let tb := WriteString tb (styled "div" "margin:4px 0;padding:6px 10px;border:1px solid #374151;border-radius:4px;background:#0f172a") in
  let tb := WriteString tb (styled "span" "color:#fbbf24;font-weight:600" ++ opt_Label opt ++ "</span>") in
  let tb := if negb (opt_Description opt =? "")%string
            then WriteString tb (" " ++ styled "span" "color:#94a3b8;font-size:12px" ++ "— " ++ opt_Description opt ++ "</span>")
            else tb in
  WriteString tb "</div>".

(** The opening of a question card. *)
Definition questionCardOpen : string :=
  styled "div" "margin:8px 0;padding:12px 16px;border:1px solid #f59e0b;border-radius:6px;background:#1c1917;color:#e2e8f0;font-size:13px;line-height:1.5".

(** The card of one question (the body of the outer loop). *)
Definition writeQuestionItem (tb : transcriptBuilder) (q : questionItem)
  : transcriptBuilder :=
  let tb := WriteString tb questionCardOpen in
  let tb := WriteString tb (styled "div" "color:#f59e0b;font-weight:700;font-size:11px;text-transform:uppercase;letter-spacing:0.05em;margin-bottom:6px") in
  let tb := if negb (q_Header q =? "")%string
            then WriteString tb (q_Header q)
            else WriteString tb "Question" in
  let tb := WriteString tb "</div>" in
  let tb := WriteString tb (styled "div" "margin-bottom:10px;font-size:14px" ++ q_Question q ++ "</div>") in
  let tb := fold_left writeOption (q_Options q) tb in
  let tb := WriteString tb "</div>" in
  WriteString tb (LF ++ LF).

(** [func (tb *transcriptBuilder) writeQuestion(qi questionInput)]. *)
Definition writeQuestion (tb : transcriptBuilder) (qi : questionInput)
  : transcriptBuilder :=
  setContent (fold_left writeQuestionItem (Questions qi) tb).

(** The opening of a generic tool block. *)
Definition toolBlockOpen : string :=
  styled "details" "margin:8px 0;border:1px solid #374151;border-radius:6px;overflow:hidden".

(** The generic, collapsible rendering of [writeToolUse]. *)
Definition writeGenericTool `{JL : JsonLib} (tb : transcriptBuilder)
  (name rawInput : string) : transcriptBuilder :=
  let tb := WriteString tb toolBlockOpen in
  let tb := WriteString tb (styled "summary" "cursor:pointer;padding:6px 10px;background:#1e293b;color:#60a5fa;font-size:13px;font-weight:600") in
  let tb := WriteString tb ("Tool: " ++ name) in
  let tb := WriteString tb "</summary>" in
  let tb :=
    if 0 <? len rawInput then
      let input := match indent rawInput with
                   | Some pretty => pretty
                   | None => rawInput
                   end in
      let tb := WriteString tb (styled "pre" "margin:0;padding:8px 10px;background:#0f172a;color:#94a3b8;font-size:12px;overflow-x:auto") in
      let tb := WriteString tb input in
      WriteString tb "</pre>"
    else tb in
  let tb := WriteString tb ("</details>" ++ LF ++ LF) in
  setContent tb.

(** The test both [writeToolUse] and [DetectQuestion] make on a tool
    invocation: the name is the question tool's, the input is not empty and
    decodes without error to at least one question. *)
Definition questionOf `{JL : JsonLib} (name rawInput : string)
  : option questionInput :=
  if (name =? "AskUserQuestion")%string && (0 <? len rawInput) then
    match unmarshalQuestion rawInput with
    | Some qi => if 0 <? Z.of_nat (List.length (Questions qi))
                 then Some qi else None
    | None => None
    end
  else None.

(** [func (tb *transcriptBuilder) writeToolUse(name string, rawInput
    json.RawMessage)]. *)
Definition writeToolUse `{JL : JsonLib} (tb : transcriptBuilder)
  (name rawInput : string) : transcriptBuilder :=
  match questionOf name rawInput with
  | Some qi => writeQuestion tb qi
  | None => writeGenericTool tb name rawInput
  end.

(** [func (tb *transcriptBuilder) writeToolResult(text string)]. *)
Definition writeToolResult (tb : transcriptBuilder) (text : string)
  : transcriptBuilder :=
  if (text =? "")%string then tb
  else
    let tb := WriteString tb toolBlockOpen in
    let tb := WriteString tb (styled "summary" "cursor:pointer;padding:6px 10px;background:#1e293b;color:#a78bfa;font-size:13px;font-weight:600") in
    let tb := WriteString tb "Result" in
    let tb := WriteString tb "</summary>" in
    let tb := WriteString tb (styled "pre" "margin:0;padding:8px 10px;background:#0f172a;color:#94a3b8;font-size:12px;overflow-x:auto;white-space:pre-wrap") in
    let tb := WriteString tb text in
    let tb := WriteString tb "</pre>" in
    let tb := WriteString tb ("</details>" ++ LF ++ LF) in
    setContent tb.

(** [func (tb *transcriptBuilder) writeSummary(text string)]. *)
Definition writeSummary (tb : transcriptBuilder) (text : string)
  : transcriptBuilder :=
  let text := TrimSpace text in
  if (text =? "")%string then tb
  else
    let tb := WriteString tb (styled "hr" "border-color:#374151;margin:16px 0") in
    let tb := WriteString tb (styled "div" "margin:8px 0;padding:10px 12px;border-left:3px solid #34d399;background:#0f172a;border-radius:4px;color:#e2e8f0;font-size:13px;line-height:1.5") in
    let tb := WriteString tb (styled "strong" "color:#34d399" ++ "Summary</strong><br>") in
    let tb := WriteString tb text in
    let tb := WriteString tb ("</div>" ++ LF) in
    setContent tb.

(** One iteration of the loop of [handleAssistant]. *)
Definition handleBlock `{JL : JsonLib} (tb : transcriptBuilder)
  (block : cliContentBlock) : transcriptBuilder :=
  if (blk_Type block =? "text")%string then writeText tb (blk_Text block)
  else if (blk_Type block =? "tool_use")%string
  then writeToolUse tb (blk_Name block) (blk_Input block)
  else if (blk_Type block =? "tool_result")%string
  then writeToolResult tb (blk_Text block)
  else tb.

(** [func (tb *transcriptBuilder) handleAssistant(msg *cliMessage)]. *)
Definition handleAssistant `{JL : JsonLib} (tb : transcriptBuilder)
  (msg : option cliMessage) : transcriptBuilder :=
  match msg with
  | None => tb
  | Some m => fold_left handleBlock (msg_Content m) tb
  end.

(** [func (tb *transcriptBuilder) build() string]. *)
Definition build (tb : transcriptBuilder) : string := TrimSpace (buf tb).

(** The head of each line loop: the line is trimmed, skipped when empty,
    and decoded; a line that does not decode is skipped. *)
Definition decodeLine `{JL : JsonLib} (line : string) : option cliEvent :=
  let line := TrimSpace line in
  if (line =? "")%string then None else unmarshalEvent line.

(** The loop of [buildTranscript], on the builder and [lastResult]. *)
Fixpoint transcriptLoop `{JL : JsonLib} (lines : list string)
  (tb : transcriptBuilder) (lastResult : string)
  : transcriptBuilder * string :=
  match lines with
  | [] => (tb, lastResult)
  | line :: rest =>
      match decodeLine line with
      | None => transcriptLoop rest tb lastResult
      | Some evt =>
          if (evt_Type evt =? "assistant")%string
          then transcriptLoop rest (handleAssistant tb (evt_Message evt))
                              lastResult
          else if (evt_Type evt =? "result")%string
          then transcriptLoop rest tb (evt_Result evt)
          else transcriptLoop rest tb lastResult
      end
  end.

(** The end of [buildTranscript]: the held-back result becomes a Summary
    section unless the transcript built so far contains it. *)
Definition appendResult (tb : transcriptBuilder) (lastResult : string)
  : transcriptBuilder :=
  if negb (lastResult =? "")%string then
    let trimmedResult := TrimSpace lastResult in
    if negb (Contains (build tb) trimmedResult)
    then writeSummary tb lastResult
    else tb
  else tb.

(** [func buildTranscript(lines []string) string]. *)
Definition buildTranscript `{JL : JsonLib} (lines : list string) : string :=
  let '(tb, lastResult) := transcriptLoop lines (mkTB "" false) "" in
  build (appendResult tb lastResult).

(** The inner loop of [DetectQuestion] over the blocks of one message. *)
Fixpoint detectInBlocks `{JL : JsonLib} (blocks : list cliContentBlock)
  (lastQuestion : string) : string :=
  match blocks with
  | [] => lastQuestion
  | block :: rest =>
      if (blk_Type block =? "tool_use")%string then
        match questionOf (blk_Name block) (blk_Input block) with
        | Some _ => detectInBlocks rest (blk_Input block)
        | None => detectInBlocks rest lastQuestion
        end
      else detectInBlocks rest lastQuestion
  end.

(** The loop of [DetectQuestion]. *)
Fixpoint detectLoop `{JL : JsonLib} (lines : list string) (lastQuestion : string)
  : string :=
  match lines with
  | [] => lastQuestion
  | line :: rest =>
      match decodeLine line with
      | None => detectLoop rest lastQuestion
      | Some evt =>
          match evt_Message evt with
          | Some m =>
              if (evt_Type evt =? "assistant")%string
              then detectLoop rest (detectInBlocks (msg_Content m) lastQuestion)
              else detectLoop rest lastQuestion
          | None => detectLoop rest lastQuestion
          end
      end
  end.

(** [func DetectQuestion(lines []string) string]. *)
Definition DetectQuestion `{JL : JsonLib} (lines : list string) : string :=
  detectLoop lines "".

(** The inner loop of [extractError]: the text of the first text block
    whose text is not empty. *)
Fixpoint firstText (blocks : list cliContentBlock) : string :=
  match blocks with
  | [] => ""
  | block :: rest =>
      if (blk_Type block =? "text")%string && negb (blk_Text block =? "")%string
      then blk_Text block
      else firstText rest
  end.

(** The loop of [extractError], on [fallback]. *)
Fixpoint extractLoop `{JL : JsonLib} (lines : list string) (fallback : string)
  : string :=
  match lines with
  | [] => fallback
  | line :: rest =>
      match decodeLine line with
      | None => extractLoop rest fallback
      | Some evt =>
          if (evt_Type evt =? "result")%string && evt_IsError evt &&
             negb (evt_Result evt =? "")%string
          then evt_Result evt
          else
            match evt_Message evt with
            | Some m =>
                if (fallback =? "")%string && (evt_Type evt =? "assistant")%string
                then extractLoop rest (firstText (msg_Content m))
                else extractLoop rest fallback
            | None => extractLoop rest fallback
            end
      end
  end.

(** [func extractError(lines []string) string]. *)
Definition extractError `{JL : JsonLib} (lines : list string) : string :=
  extractLoop lines "".

(** What running one child process gives: the pipe or the start fails, or
    the process runs, its standard output is read line by line, its
    standard error is captured and [cmd.Wait()] returns. *)
Inductive ProcOutcome :=
| PipeFails (e : string)
| StartFails (e : string)
| Exited (lines : list string) (stderr : string) (waitErr : option string).

(** What [os.CreateTemp] and the write of the document give. *)
Inductive TempFileOutcome :=
| CreateTempFails (e : string)
| WriteFails (name e : string)
| TempWritten (name : string).

(** The operating system as the executor sees it: what the n-th child
    process does given its arguments, the argument lists of the processes
    started so far, and the temporary files written and removed. *)
Record World := mkWorld {
  spawn : nat -> list string -> ProcOutcome;
  invocations : list (list string);
  written : list (string * string);
  removed : list string
}.

(** [var baseArgs], [var defaultTools]. *)
Definition baseArgs : list string :=
  [ "--output-format"; "stream-json";
    "--verbose";
    "--dangerously-skip-permissions";
    "--append-system-prompt"; "You have access to WebSearch and WebFetch tools. Use them whenever the task requires current or real-time information such as weather, news, prices, or live data. Do not tell the user to check a website themselves - use your tools to fetch the information directly." ].

Definition defaultTools : string := "Bash,Read,Write,Edit,WebFetch,WebSearch".

(** [config.MCPServers[name] = entry] on a map kept as an association
    list. *)
Fixpoint mapSet {V : Type} (k : string) (v : V) (m : list (string * V))
  : list (string * V) :=
  match m with
  | [] => [(k, v)]
  | (k', v') :: m' =>
      if (k' =? k)%string then (k, v) :: m' else (k', v') :: mapSet k v m'
  end.

(** The entry [buildMCPArgs] makes of one server. *)
Definition entryOf `{JL : JsonLib} (srv : MCPServer) : mcpServerEntry :=
  let http := (mcp_Type srv =? "http")%string in
  mkEntry (mcp_Type srv)
    (if http then mcp_URL srv else "")
    (if http then "" else mcp_Command srv)
    (if negb (mcp_Args srv =? "")%string && negb (mcp_Args srv =? "[]")%string
     then match unmarshalStrings (mcp_Args srv) with
          | Some parsed => parsed
          | None => []
          end
     else [])
    (if negb (mcp_Env srv =? "")%string && negb (mcp_Env srv =? "{}")%string
     then match unmarshalStringMap (mcp_Env srv) with
          | Some parsed => parsed
          | None => []
          end
     else [])
    (if negb (mcp_Headers srv =? "")%string &&
        negb (mcp_Headers srv =? "{}")%string
     then match unmarshalStringMap (mcp_Headers srv) with
          | Some parsed => parsed
          | None => []
          end
     else []).

(** [func buildMCPArgs(servers []db.MCPServer) (args []string, cleanup
    func(), err error)]; the cleanup is the file it removes ([None] for the
    no-op). *)
Definition buildMCPArgs `{JL : JsonLib} (w : World) (fs : TempFileOutcome)
  (servers : list MCPServer)
  : list string * option string * option string * World :=
  match servers with
  | [] => ([], None, None, w)
  | _ =>
      let config :=
        fold_left (fun m srv => mapSet (mcp_Name srv) (entryOf srv) m)
                  servers [] in
      match marshalConfig config with
      | inr e => ([], None, Some ("marshalling MCP config: " ++ e), w)
      | inl data =>
          match fs with
          | CreateTempFails e =>
              ([], None, Some ("creating MCP temp file: " ++ e), w)
          | WriteFails name e =>
              ([], None, Some ("writing MCP config: " ++ e),
               mkWorld (spawn w) (invocations w) (written w)
                       (removed w ++ [name]))
          | TempWritten name =>
              (["--mcp-config"; name], Some name, None,
               mkWorld (spawn w) (invocations w) (written w ++ [(name, data)])
                       (removed w))
          end
      end
  end.

(** [defer cleanup()]. *)
Definition runCleanup (cleanup : option string) (w : World) : World :=
  match cleanup with
  | None => w
  | Some name =>
      mkWorld (spawn w) (invocations w) (written w) (removed w ++ [name])
  end.

(** What [runClaude] makes of the outcome of its child process.  (The
    debug dump of the raw lines writes a file and changes no result.) *)
Definition classify `{JL : JsonLib} (out : ProcOutcome)
  : ExecuteResult * option string :=
  match out with
  | PipeFails e => (zeroResult, Some ("creating stdout pipe: " ++ e))
  | StartFails e => (zeroResult, Some ("starting claude: " ++ e))
  | Exited lines stderr (Some err) =>
      let msg := extractError lines in
      if negb (msg =? "")%string then (zeroResult, Some msg)
      else
        let stderrMsg := TrimSpace stderr in
        let stdout := TrimSpace (Join lines LF) in
        let parts : list string := [] in
        let parts := if negb (stderrMsg =? "")%string
                     then (parts ++ [stderrMsg])%list else parts in
        let parts := if negb (stdout =? "")%string
                     then (parts ++ [stdout])%list else parts in
        let parts := if Z.of_nat (List.length parts) =? 0
                     then (parts ++ [err])%list else parts in
        (zeroResult, Some ("claude: " ++ Join parts LF))
  | Exited lines stderr None =>
      let transcript := buildTranscript lines in
      if (transcript =? "")%string then
        let raw := Join lines LF in
        if (raw =? "")%string
        then (zeroResult, Some "empty response from claude")
        else (mkResult raw lines, None)
      else (mkResult transcript lines, None)
  end.

(** [func runClaude(ctx context.Context, args []string) (ExecuteResult,
    error)]: one more child process, started with [args]. *)
Definition runClaude `{JL : JsonLib} (w : World) (args : list string)
  : ExecuteResult * option string * World :=
  let out := spawn w (List.length (invocations w)) args in
  let '(result, err) := classify out in
  (result, err,
   mkWorld (spawn w) (invocations w ++ [args]) (written w) (removed w)).

(** The allowed-tools list and the arguments every invocation shares. *)
Definition allowedTools (mcpServers : list MCPServer) : string :=
  fold_left (fun tools srv => tools ++ ",mcp__" ++ mcp_Name srv ++ "__*")
            mcpServers defaultTools.

Definition allBase (mcpServers : list MCPServer) (mcpArgs : list string)
  : list string :=
  ((([] ++ baseArgs) ++ ["--allowedTools"; allowedTools mcpServers])
     ++ mcpArgs)%list.

(** [func ClaudeExecute(ctx context.Context, job db.Job, mcpServers
    []db.MCPServer) (ExecuteResult, error)]. *)
Definition ClaudeExecute `{JL : JsonLib} (w : World) (fs : TempFileOutcome)
  (job : Job) (mcpServers : list MCPServer)
  : ExecuteResult * option string * World :=
  match buildMCPArgs w fs mcpServers with
  | (_, _, Some err, w) =>
      (zeroResult, Some ("building MCP config: " ++ err), w)
  | (mcpArgs, cleanup, None, w) =>
      let allBase := allBase mcpServers mcpArgs in
      let args :=
        (["-p"; job_Prompt job; "--resume"; job_ID job] ++ allBase)%list in
      let '(result, err, w) := runClaude w args in
      let '(result, err, w) :=
        match err with
        | Some e =>
            if Contains e "No conversation found"
            then runClaude w (["-p"; job_Prompt job] ++ allBase)%list
            else (result, err, w)
        | None => (result, err, w)
        end in
      (result, err, runCleanup cleanup w)
  end.

(** [func ClaudeAnswer(ctx context.Context, job db.Job, mcpServers
    []db.MCPServer, answer string) (ExecuteResult, error)]. *)
Definition ClaudeAnswer `{JL : JsonLib} (w : World) (fs : TempFileOutcome)
  (job : Job) (mcpServers : list MCPServer) (answer : string)
  : ExecuteResult * option string * World :=
  match buildMCPArgs w fs mcpServers with
  | (_, _, Some err, w) =>
      (zeroResult, Some ("building MCP config: " ++ err), w)
  | (mcpArgs, cleanup, None, w) =>
      let allBase := allBase mcpServers mcpArgs in
      let args :=
        (["-p"; answer; "--resume"; job_ID job] ++ allBase)%list in
      let '(result, err, w) := runClaude w args in
      (result, err, runCleanup cleanup w)
  end.

End Executor.

(* ===================================================================== *)
(** * Package scheduler *)
(* ===================================================================== *)

Module Scheduler.
Import GoStrings GoTime Db Executor.

(** A call the scheduler makes to its [EmitFunc] or its [NotifyFunc]. *)
Inductive Event :=
| Emit (eventName : string)
| Notify (jobName status : string).

(** [type Scheduler struct]: the store it points to, whether the two
    callbacks are set, the two executors, and the calls made to the
    callbacks so far.  (The tick interval, the context and the wait group
    only order the goroutines.) *)
Record Scheduler := mkScheduler {
  store : Store;
  emitFn : bool;
  notifyFn : bool;
  execFn : Job -> list MCPServer -> ExecuteResult * option string;
  answerFn : Job -> list MCPServer -> string -> ExecuteResult * option string;
  calls : list Event
}.

Definition with_store (s : Scheduler) (st : Store) : Scheduler :=
  mkScheduler st (emitFn s) (notifyFn s) (execFn s) (answerFn s) (calls s).

Definition with_call (s : Scheduler) (e : Event) : Scheduler :=
  mkScheduler (store s) (emitFn s) (notifyFn s) (execFn s) (answerFn s)
              (calls s ++ [e]).

(** [func (s *Scheduler) emit()]. *)
Definition emit (s : Scheduler) : Scheduler :=
  if emitFn s then with_call s (Emit "jobs:updated") else s.

(** [func (s *Scheduler) notify(jobName string, status string)]. *)
Definition notify (s : Scheduler) (jobName status : string) : Scheduler :=
  if notifyFn s then with_call s (Notify jobName status) else s.

(** [func intervalDuration(value int, unit string) time.Duration]. *)
Definition intervalDuration (value : Z) (unit : string) : Duration :=
  if (unit =? "minutes")%string then dmul value Minute
  else if (unit =? "hours")%string then dmul value Hour
  else if (unit =? "days")%string then dmul (dmul value 24) Hour
  else if (unit =? "weeks")%string then dmul (dmul (dmul value 7) 24) Hour
  else 0.

(** [func parseTime(s string) (time.Time, error)]. *)
Definition parseTime `{TL : TimeLib} (s : string) : option Time :=
  match Parse RFC3339 s with
  | Some t => Some t
  | None => Parse "2006-01-02T15:04" s
  end.

(** [func isDue(job db.Job, now time.Time) bool]. *)
Definition isDue `{TL : TimeLib} (job : Job) (now : Time) : bool :=
  if negb (job_Active job) then false
  else if (job_Status job =? "running")%string ||
          (job_Status job =? "waiting")%string then false
  else
    let interval := intervalDuration (job_IntervalValue job)
                                     (job_IntervalUnit job) in
    if interval =? 0 then false
    else
      let ref := job_LastRun job in
      let ref := if (ref =? "")%string then job_StartDate job else ref in
      if (ref =? "")%string then false
      else
        match parseTime ref with
        | None => false
        | Some refTime => negb (After (Add refTime interval) now)
        end.

(** The first statement of [finishExecution]: the status, output and
    pending question the outcome of the invocation gives the job. *)
Definition finishedJob `{JL : JsonLib} (job : Job) (result : ExecuteResult)
  (execErr : option string) : Job :=
  match execErr with
  | Some e =>
      let job := set_job_Status job "failed" in
      let job := set_job_Output job e in
      set_job_PendingQuestion job ""
  | None =>
      let question := DetectQuestion (RawLines result) in
      if negb (question =? "")%string then
        let job := set_job_Status job "waiting" in
        let job := set_job_Output job (Transcript result) in
        set_job_PendingQuestion job question
      else
        let job := set_job_Status job "success" in
        let job := set_job_Output job (Transcript result) in
        set_job_PendingQuestion job ""
  end.

(** [func (s *Scheduler) finishExecution(job *db.Job, run *db.JobRun,
    result executor.ExecuteResult, execErr error)]; [endNow] is the clock
    when the run record is closed.  The job and the run are the caller's
    variables: their final values are returned. *)
Definition finishExecution `{TL : TimeLib} `{JL : JsonLib} (s : Scheduler) (job : Job)
  (run : JobRun) (result : ExecuteResult) (execErr : option string)
  (endNow : Time) : Scheduler * Job * JobRun :=
  let job := finishedJob job result execErr in
  let '(_, _, st) := UpdateJob (store s) job in
  let s := with_store s st in
  let '(s, run) :=
    if negb (run_ID run =? "")%string then
      let run := set_run_Status run (job_Status job) in
      let run := set_run_Output run (job_Output job) in
      let run := set_run_PendingQuestion run (job_PendingQuestion job) in
      let run := if negb (job_Status job =? "waiting")%string
                 then set_run_EndedAt run (Format endNow RFC3339)
                 else run in
      let '(_, st) := UpdateRun (store s) run in
      let '(_, st) := PruneRuns st (job_ID job) in
      (with_store s st, run)
    else (s, run) in
  let s := emit s in
  let s := notify s (job_Name job) (job_Status job) in
  (s, job, run).

(** [func (s *Scheduler) executeJob(job *db.Job, now time.Time)]; [uuid]
    is the identifier drawn for the run record. *)
Definition executeJob `{TL : TimeLib} `{JL : JsonLib} (s : Scheduler) (job : Job)
  (now : Time) (uuid : string) (endNow : Time) : Scheduler * Job :=
  let job := set_job_Status job "running" in
  let job := set_job_Output job "" in
  let job := set_job_PendingQuestion job "" in
  match UpdateJob (store s) job with
  | (_, Some _, _) => (s, job)
  | (_, None, st) =>
      let s := with_store s st in
      let s := emit s in
      let s := notify s (job_Name job) "running" in
      let '(run, _, st) :=
        CreateRun (store s)
                  (mkJobRun "" (job_ID job) (Format now RFC3339) "" "running"
                            "" "")
                  uuid in
      let s := with_store s st in
      let mcpServers := GetMCPServersForJob (store s) (job_ID job) in
      let '(result, execErr) := execFn s job mcpServers in
      let job := set_job_LastRun job (Format now RFC3339) in
      let interval := intervalDuration (job_IntervalValue job)
                                       (job_IntervalUnit job) in
      let job := set_job_NextRun job (Format (Add now interval) RFC3339) in
      let '(s, job, _) := finishExecution s job run result execErr endNow in
      (s, job)
  end.

(** What the clock, [uuid.New] and the context give the i-th job of a
    tick. *)
Record TickEnv := mkTickEnv {
  cancelled : nat -> bool;
  uuidAt : nat -> string;
  endAt : nat -> Time
}.

(** The loop of [tick] from index [i] over the jobs it loaded. *)
Fixpoint tickLoop `{TL : TimeLib} `{JL : JsonLib} (env : TickEnv) (s : Scheduler)
  (now : Time) (i : nat) (js : list Job) : Scheduler :=
  match js with
  | [] => s
  | job :: rest =>
      if cancelled env i then s
      else
        let s := if isDue job now
                 then fst (executeJob s job now (uuidAt env i) (endAt env i))
                 else s in
        tickLoop env s now (S i) rest
  end.

(** [func (s *Scheduler) tick()]; [now] is [time.Now().UTC()]. *)
Definition tick `{TL : TimeLib} `{JL : JsonLib} (env : TickEnv) (s : Scheduler)
  (now : Time) : Scheduler :=
  tickLoop env s now 0%nat (GetJobs (store s)).

(** [func (s *Scheduler) Start(parent context.Context)], up to the start of
    the loop goroutine. *)
Definition Start (s : Scheduler) : Scheduler :=
  let '(n, st) := ResetRunningJobs (store s) in
  let s := with_store s st in
  if 0 <? n then emit s else s.

(** The body of a goroutine started by [RunNow] or by [AnswerQuestion],
    with the variables it captured. *)
Inductive Task :=
| RunTask (job : Job)
| AnswerTask (job : Job) (run : JobRun) (mcpServers : list MCPServer)
             (answer : string).

(** [func (s *Scheduler) RunNow(jobID string) error]: the error, the
    scheduler, and the goroutine it started. *)
Definition RunNow (s : Scheduler) (jobID : string)
  : option string * Scheduler * option Task :=
  match GetJob (store s) jobID with
  | (_, Some err) => (Some err, s, None)
  | (job, None) =>
      if (job_Status job =? "running")%string
      then (Some "job is already running", s, None)
      else (None, s, Some (RunTask job))
  end.

(** [func (s *Scheduler) AnswerQuestion(jobID string, answer string)
    error]. *)
Definition AnswerQuestion (s : Scheduler) (jobID answer : string)
  : option string * Scheduler * option Task :=
  match GetJob (store s) jobID with
  | (_, Some err) => (Some err, s, None)
  | (job, None) =>
      if negb (job_Status job =? "waiting")%string
      then (Some "job is not waiting for an answer", s, None)
      else
        let job := set_job_Status job "running" in
        let job := set_job_PendingQuestion job "" in
        match UpdateJob (store s) job with
        | (_, Some err, _) => (Some ("updating job status: " ++ err), s, None)
        | (_, None, st) =>
            let s := with_store s st in
            let s := emit s in
            let '(run, _) := GetLatestRun (store s) jobID in
            let '(s, run) :=
              if negb (run_ID run =? "")%string then
                let run := set_run_Status run "running" in
                let run := set_run_PendingQuestion run "" in
                let '(_, st) := UpdateRun (store s) run in
                (with_store s st, run)
              else (s, run) in
            let s := emit s in
            let mcpServers := GetMCPServersForJob (store s) jobID in
            (None, s, Some (AnswerTask job run mcpServers answer))
        end
  end.

(** The goroutine bodies: [now] is the clock when a [RunNow] goroutine
    starts, [uuid] the identifier drawn for its run record, [endNow] the
    clock when the run record is closed. *)
Definition runTask `{TL : TimeLib} `{JL : JsonLib} (s : Scheduler) (t : Task)
  (now : Time) (uuid : string) (endNow : Time) : Scheduler * Job :=
  match t with
  | RunTask job => executeJob s job now uuid endNow
  | AnswerTask job run mcpServers answer =>
      let '(result, execErr) := answerFn s job mcpServers answer in
      let result :=
        if negb (run_ID run =? "")%string &&
           match execErr with None => true | Some _ => false end
        then mkResult (run_Output run ++ LF ++ LF ++ Transcript result)
                      (RawLines result)
        else result in
      let '(s, job, _) := finishExecution s job run result execErr endNow in
      (s, job)
  end.

End Scheduler.

(* ===================================================================== *)
(** * Reference instances of the library classes

    Used to evaluate the functions above on concrete inputs.  The time
    instance reads and writes UTC timestamps in the two canonical shapes
    [YYYY-MM-DDTHH:MM:SSZ] and [YYYY-MM-DDTHH:MM], on which it agrees with
    package [time]; the JSON instance decodes the lines and inputs listed
    in a table. *)
(* ===================================================================== *)

Module RefLib.
Import GoStrings GoTime Db Executor.

Definition digit (c : ascii) : option Z :=
  let n := Z.of_N (N_of_ascii c) in
  if (48 <=? n) && (n <=? 57) then Some (n - 48) else None.

(** The decimal number a run of digits writes. *)
Fixpoint number (cs : list ascii) (acc : Z) : option Z :=
  match cs with
  | [] => Some acc
  | c :: cs' =>
      match digit c with
      | Some d => number cs' (10 * acc + d)
      | None => None
      end
  end.

(** Days from 1970-01-01 to a date of the proleptic Gregorian calendar. *)
Definition daysFromCivil (y m d : Z) : Z :=
  let y := if m <=? 2 then y - 1 else y in
  let era := y / 400 in
  let yoe := y - era * 400 in
  let mp := (m + 9) mod 12 in
  let doy := (153 * mp + 2) / 5 + d - 1 in
  let doe := yoe * 365 + yoe / 4 - yoe / 100 + doy in
  era * 146097 + doe - 719468.

(** The date (year, month, day) of a day count. *)
Definition civilFromDays (z : Z) : Z * Z * Z :=
  let z := z + 719468 in
  let era := z / 146097 in
  let doe := z - era * 146097 in
  let yoe := (doe - doe / 1460 + doe / 36524 - doe / 146096) / 365 in
  let doy := doe - (365 * yoe + yoe / 4 - yoe / 100) in
  let mp := (5 * doy + 2) / 153 in
  let d := doy - (153 * mp + 2) / 5 + 1 in
  let m := if mp <? 10 then mp + 3 else mp - 9 in
  let y := yoe + era * 400 in
  (if m <=? 2 then y + 1 else y, m, d).

Definition leapYear (y : Z) : bool :=
  (y mod 4 =? 0) && (negb (y mod 100 =? 0) || (y mod 400 =? 0)).

Definition daysIn (y m : Z) : Z :=
  if m =? 2 then (if leapYear y then 29 else 28)
  else if (m =? 4) || (m =? 6) || (m =? 9) || (m =? 11) then 30 else 31.

(** The instant of a calendar date and a time of day, when they are in
    range. *)
Definition instant (y mo d h mi sec : Z) : option Time :=
  if (1 <=? mo) && (mo <=? 12) && (1 <=? d) && (d <=? daysIn y mo) &&
     (h <=? 23) && (mi <=? 59) && (sec <=? 59)
  then Some ((((daysFromCivil y mo d * 24 + h) * 60 + mi) * 60 + sec)
             * Second)
  else None.

Definition refParse (layout value : string) : option Time :=
  match list_ascii_of_string value with
  | [y1; y2; y3; y4; d1; m1; m2; d2; a1; a2; t; h1; h2; c1; n1; n2; c2;
     s1; s2; z] =>
      if (layout =? RFC3339)%string &&
         (string_of_list_ascii [d1; d2; t; c1; c2; z] =? "--T::Z")%string
      then
        match number [y1; y2; y3; y4] 0, number [m1; m2] 0, number [a1; a2] 0,
              number [h1; h2] 0, number [n1; n2] 0, number [s1; s2] 0 with
        | Some y, Some mo, Some d, Some h, Some mi, Some sec =>
            instant y mo d h mi sec
        | _, _, _, _, _, _ => None
        end
      else None
  | [y1; y2; y3; y4; d1; m1; m2; d2; a1; a2; t; h1; h2; c1; n1; n2] =>
      if (layout =? "2006-01-02T15:04")%string &&
         (string_of_list_ascii [d1; d2; t; c1] =? "--T:")%string
      then
        match number [y1; y2; y3; y4] 0, number [m1; m2] 0, number [a1; a2] 0,
              number [h1; h2] 0, number [n1; n2] 0 with
        | Some y, Some mo, Some d, Some h, Some mi => instant y mo d h mi 0
        | _, _, _, _, _ => None
        end
      else None
  | _ => None
  end.

Definition digitChar (n : Z) : ascii := ascii_of_N (Z.to_N (48 + n mod 10)).

Definition twoDigits (n : Z) : string :=
  string_of_list_ascii [digitChar (n / 10); digitChar n].

Definition fourDigits (n : Z) : string :=
  string_of_list_ascii
    [digitChar (n / 1000); digitChar (n / 100); digitChar (n / 10);
     digitChar n].

Definition refFormat (t : Time) (layout : string) : string :=
  let secs := t / Second in
  let days := secs / 86400 in
  let rem := secs mod 86400 in
  let '(y, mo, d) := civilFromDays days in
  fourDigits y ++ "-" ++ twoDigits mo ++ "-" ++ twoDigits d ++ "T" ++
  twoDigits (rem / 3600) ++ ":" ++ twoDigits (rem / 60 mod 60) ++ ":" ++
  twoDigits (rem mod 60) ++ "Z".

#[export] Instance refTime : TimeLib :=
  {| Parse := refParse; Format := refFormat |}.

(** The first value a table gives a key. *)
Fixpoint assoc {V : Type} (k : string) (table : list (string * V))
  : option V :=
  match table with
  | [] => None
  | (k', v) :: rest => if (k' =? k)%string then Some v else assoc k rest
  end.

(** The JSON decoders that know the lines of [events] and the tool inputs
    of [questions], and fail on every other text. *)
Definition tableJson (events : list (string * cliEvent))
  (questions : list (string * questionInput)) : JsonLib :=
  {| unmarshalEvent := fun line => assoc line events;
     unmarshalQuestion :=
       fun raw => if (raw =? "")%string then None else assoc raw questions;
     indent := fun _ => None;
     unmarshalStrings := fun _ => None;
     unmarshalStringMap := fun _ => None;
     marshalConfig := fun _ => inl "{}";
     unmarshalQuestion_empty := eq_refl |}.

End RefLib.

(* ===================================================================== *)
(** * The vocabulary of the properties

    What the statements below speak of: declarative readings of the loops
    (the lists they scan), the states of a run, and the conditions of the
    specification's sentences. *)
(* ===================================================================== *)

Module Claims.
Import GoStrings GoTime Db Executor Scheduler.

Section Vocabulary.
Context `{TL : TimeLib} `{JL : JsonLib}.

(** The runs of a store all have an output within the cap. *)
Definition runsBounded (s : Store) : Prop :=
  Forall (fun r => len (run_Output r) <= maxOutputBytes) (job_runs s).

(** The reference time of a job: the last run when there is one, else the
    configured start. *)
Definition referenceOf (job : Job) : string :=
  if (job_LastRun job =? "")%string then job_StartDate job
  else job_LastRun job.

(** The interval of a job, as [isDue] computes it. *)
Definition intervalOf (job : Job) : Duration :=
  intervalDuration (job_IntervalValue job) (job_IntervalUnit job).

(** The conditions under which the specification says a job is due: active,
    neither running nor waiting, a unit among the four, a reference time
    that exists and parses in one of the two formats, and reference plus
    interval at or before now. *)
Definition dueAsClaimed (job : Job) (now : Time) : Prop :=
  job_Active job = true /\
  job_Status job <> "running" /\
  job_Status job <> "waiting" /\
  In (job_IntervalUnit job) ["minutes"; "hours"; "days"; "weeks"] /\
  exists refTime : Time,
    referenceOf job <> "" /\
    (Parse RFC3339 (referenceOf job) = Some refTime \/
     (Parse RFC3339 (referenceOf job) = None /\
      Parse "2006-01-02T15:04" (referenceOf job) = Some refTime)) /\
    refTime + intervalOf job <= now.

(** A job with this id is in the jobs table. *)
Definition jobExists (st : Store) (id : string) : Prop :=
  exists r, In r (jobs st) /\ job_ID r = id.

(** Every job of the store that waits for an answer passes [validateJob].
    ([CreateJob] and [UpdateJob] validate what they store, and nothing else
    gives a job the status [waiting].) *)
Definition waitingJobsValid (st : Store) : Prop :=
  forall j, In j (jobs st) -> job_Status j = "waiting" ->
            validateJob j = None.

(** The job as [executeJob] marks it before the invocation. *)
Definition runningJob (job : Job) : Job :=
  set_job_PendingQuestion (set_job_Output (set_job_Status job "running") "") "".

(** The run record [executeJob] creates. *)
Definition newRun (job : Job) (now : Time) : JobRun :=
  mkJobRun "" (job_ID job) (Format now RFC3339) "" "running" "" "".

(** The job with the timing fields [executeJob] sets after the
    invocation. *)
Definition timedJob (job : Job) (now : Time) : Job :=
  set_job_NextRun
    (set_job_LastRun (runningJob job) (Format now RFC3339))
    (Format (Add now (intervalDuration (job_IntervalValue job)
                                       (job_IntervalUnit job))) RFC3339).

(** The scheduler at the moment [executeJob] invokes the executor. *)
Definition beforeInvocation (s : Scheduler) (job : Job) (now : Time)
  (uuid : string) : Scheduler :=
  let s1 := notify (emit (with_store s (snd (UpdateJob (store s) (runningJob job)))))
                   (job_Name job) "running" in
  with_store s1 (snd (CreateRun (store s1) (newRun job now) uuid)).

(** The timing fields the specification says a completion leaves: both
    written from one start time. *)
Definition clockRefreshed (job' : Job) : Prop :=
  exists start : Time,
    job_LastRun job' = Format start RFC3339 /\
    job_NextRun job' =
      Format (Add start (intervalDuration (job_IntervalValue job')
                                          (job_IntervalUnit job'))) RFC3339.

(** A later state of a builder: its buffer is the earlier one with text
    appended. *)
Definition extends (tb tb' : transcriptBuilder) : Prop :=
  exists text, buf tb' = buf tb ++ text.

(** A tool invocation that asks the user: a [tool_use] block named
    [AskUserQuestion] whose input decodes to a list of at least one
    question. *)
Definition asksUser (block : cliContentBlock) : option questionInput :=
  if (blk_Type block =? "tool_use")%string &&
     (blk_Name block =? "AskUserQuestion")%string
  then match unmarshalQuestion (blk_Input block) with
       | Some qi => match Questions qi with
                    | [] => None
                    | _ :: _ => Some qi
                    end
       | None => None
       end
  else None.

(** The raw inputs of the invocations that ask the user, in the order of
    the blocks of a message ... *)
Definition askedInMessage (m : cliMessage) : list string :=
  flat_map (fun block => match asksUser block with
                         | Some _ => [blk_Input block]
                         | None => []
                         end) (msg_Content m).

(** ... and in the order of the lines: those of the assistant events among
    the lines that decode. *)
Definition askedInLines (lines : list string) : list string :=
  flat_map (fun line => match decodeLine line with
                        | Some evt =>
                            if (evt_Type evt =? "assistant")%string
                            then match evt_Message evt with
                                 | Some m => askedInMessage m
                                 | None => []
                                 end
                            else []
                        | None => []
                        end) lines.

(** The Summary section, for a trimmed text. *)
Definition summarySection (text : string) : string :=
  styled "hr" "border-color:#374151;margin:16px 0" ++
  styled "div" "margin:8px 0;padding:10px 12px;border-left:3px solid #34d399;background:#0f172a;border-radius:4px;color:#e2e8f0;font-size:13px;line-height:1.5" ++
  (styled "strong" "color:#34d399" ++ "Summary</strong><br>") ++
  text ++
  ("</div>" ++ LF).

(** The result texts of the result events among the lines that decode, in
    order. *)
Definition resultTexts (lines : list string) : list string :=
  flat_map (fun line => match decodeLine line with
                        | Some evt =>
                            if (evt_Type evt =? "assistant")%string then []
                            else if (evt_Type evt =? "result")%string
                            then [evt_Result evt] else []
                        | None => []
                        end) lines.

(** The messages of the assistant events among the lines that decode. *)
Definition assistantMessages (lines : list string)
  : list (option cliMessage) :=
  flat_map (fun line => match decodeLine line with
                        | Some evt =>
                            if (evt_Type evt =? "assistant")%string
                            then [evt_Message evt] else []
                        | None => []
                        end) lines.

(** The transcript built from the events other than the result events. *)
Definition transcriptBody (lines : list string) : transcriptBuilder :=
  fold_left handleAssistant (assistantMessages lines) (mkTB "" false).

(** The blocks of those messages, in the order in which [handleAssistant]
    meets them. *)
Definition assistantBlocks (lines : list string) : list cliContentBlock :=
  flat_map (fun msg => match msg with
                       | Some m => msg_Content m
                       | None => []
                       end) (assistantMessages lines).

(** Texts one after the other. *)
Definition joined (texts : list string) : string :=
  fold_right String.append "" texts.

(** The question card as the specification describes it: for each question
    item a highlighted box with the header (the word Question when there
    is none), the question string and one entry per option, which shows
    the label and, when there is one, the description. *)
Definition optionEntry (opt : questionOption) : string :=
  styled "div" "margin:4px 0;padding:6px 10px;border:1px solid #374151;border-radius:4px;background:#0f172a" ++
  (styled "span" "color:#fbbf24;font-weight:600" ++ opt_Label opt ++ "</span>") ++
  (if (opt_Description opt =? "")%string then ""
   else " " ++ styled "span" "color:#94a3b8;font-size:12px" ++ "— " ++ opt_Description opt ++ "</span>") ++
  "</div>".

Definition itemCard (q : questionItem) : string :=
  questionCardOpen ++
  styled "div" "color:#f59e0b;font-weight:700;font-size:11px;text-transform:uppercase;letter-spacing:0.05em;margin-bottom:6px" ++
  (if (q_Header q =? "")%string then "Question" else q_Header q) ++
  "</div>" ++
  (styled "div" "margin-bottom:10px;font-size:14px" ++ q_Question q ++ "</div>") ++
  joined (map optionEntry (q_Options q)) ++
  "</div>" ++
  (LF ++ LF).

Definition questionCard (qi : questionInput) : string :=
  joined (map itemCard (Questions qi)).

(** The generic, collapsible block of a tool invocation. *)
Definition genericToolBlock (name rawInput : string) : string :=
  buf (writeGenericTool (mkTB "" false) name rawInput).

(** What the transcript shows for a block: the question card for an
    invocation that asks the user, and for every other block what
    [handleAssistant]'s loop writes for it. *)
Definition rendered (block : cliContentBlock) : string :=
  match asksUser block with
  | Some qi => questionCard qi
  | None => buf (handleBlock (mkTB "" false) block)
  end.

Definition renderedBlocks (blocks : list cliContentBlock) : string :=
  joined (map rendered blocks).

(** The messages of the result events flagged as errors whose message is
    not empty, among the lines that decode, in order. *)
Definition errorResults (lines : list string) : list string :=
  flat_map (fun line => match decodeLine line with
                        | Some evt =>
                            if (evt_Type evt =? "result")%string &&
                               evt_IsError evt &&
                               negb (evt_Result evt =? "")%string
                            then [evt_Result evt] else []
                        | None => []
                        end) lines.

(** The texts of the text blocks of a message whose text is not empty. *)
Definition textsOf (m : cliMessage) : list string :=
  map blk_Text
      (filter (fun b => (blk_Type b =? "text")%string &&
                        negb (blk_Text b =? "")%string) (msg_Content m)).

(** For each assistant event that has such a block, the text of its first
    one. *)
Definition assistantTexts (lines : list string) : list string :=
  flat_map (fun line => match decodeLine line with
                        | Some evt =>
                            match evt_Message evt with
                            | Some m =>
                                if (evt_Type evt =? "assistant")%string
                                then firstn 1 (textsOf m) else []
                            | None => []
                            end
                        | None => []
                        end) lines.

(** The messages of the result events flagged as errors, empty or not,
    among the lines that decode, in order. *)
Definition flaggedResults (lines : list string) : list string :=
  flat_map (fun line => match decodeLine line with
                        | Some evt =>
                            if (evt_Type evt =? "result")%string &&
                               evt_IsError evt
                            then [evt_Result evt] else []
                        | None => []
                        end) lines.

(** For each assistant event that has a text block, the text of its first
    one, empty or not. *)
Definition firstTextBlocks (lines : list string) : list string :=
  flat_map (fun line => match decodeLine line with
                        | Some evt =>
                            match evt_Message evt with
                            | Some m =>
                                if (evt_Type evt =? "assistant")%string
                                then firstn 1
                                       (map blk_Text
                                          (filter (fun b => (blk_Type b =? "text")%string)
                                                  (msg_Content m)))
                                else []
                            | None => []
                            end
                        | None => []
                        end) lines.

(** What the specification's sentence describes: the message of the first
    result event flagged as an error, whatever it is; else the text of the
    first text block of the first assistant event that has a text block;
    else the empty string. *)
Definition extractErrorAsClaimed (lines : list string) : string :=
  match flaggedResults lines with
  | r :: _ => r
  | [] => hd "" (firstTextBlocks lines)
  end.

(** The error says that no prior conversation exists. *)
Definition noConversation (outcome : ExecuteResult * option string) : bool :=
  match snd outcome with
  | Some e => Contains e "No conversation found"
  | None => false
  end.

End Vocabulary.

End Claims.

(* ===================================================================== *)
(** * Concrete jobs, schedulers and lines *)
(* ===================================================================== *)

Module Scenarios.
Import GoStrings GoTime Db Executor Scheduler RefLib.

(** JSON decoders that decode nothing. *)
Definition noJson : JsonLib := tableJson [] [].

(** The executor of the scheduler's tests: it completes at once. *)
Definition fastExec (_ : Job) (_ : list MCPServer)
  : ExecuteResult * option string :=
  (mkResult "done" [], None).

Definition fastAnswer (_ : Job) (_ : list MCPServer) (_ : string)
  : ExecuteResult * option string :=
  (mkResult "done" [], None).

Definition emptyStore : Store := mkStore [] [] [] [].

(** A job handed to [CreateJob] with the status [waiting] and no timestamps
    of a run. *)
Definition askJob : Job :=
  mkJob "" "ask" "2026-01-01T00:00" 5 "minutes" "What now?" true "" ""
        "waiting" "" "question-payload".

Definition waitingStore : Store := snd (CreateJob emptyStore askJob "job-1").

Definition waitingSched : Scheduler :=
  mkScheduler waitingStore true true fastExec fastAnswer [].

(** A jobs table with one row that is [waiting] and has the interval value
    the schema defaults to, zero. *)
Definition zeroWaitingJob : Job :=
  mkJob "job-1" "ask" "2026-01-01T00:00" 0 "hours" "What now?" true "" ""
        "waiting" "" "question-payload".

Definition zeroWaitingSched : Scheduler :=
  mkScheduler (mkStore [zeroWaitingJob] [] [] []) true true fastExec
              fastAnswer [].

(** A jobs table with one row that is [running]. *)
Definition busyJob : Job :=
  mkJob "job-1" "busy" "2026-01-01T00:00" 5 "minutes" "Work" true "" ""
        "running" "" "".

Definition busySched : Scheduler :=
  mkScheduler (mkStore [busyJob] [] [] []) true true fastExec fastAnswer [].

(** 2026-01-01T00:00:00Z and 2026-01-01T00:10:00Z. *)
Definition midnight : Time := 1767225600 * Second.
Definition tenPast : Time := 1767226200 * Second.

(** A job with a valid unit and an interval value of zero, last run on
    2026-01-01 at midnight UTC, looked at ten minutes later. *)
Definition zeroIntervalJob : Job :=
  mkJob "job-1" "zero interval" "" 0 "minutes" "" true ""
        "2026-01-01T00:00:00Z" "success" "" "".

(** A JSON string literal. *)
Definition js (s : string) : string := dq ++ s ++ dq.

(** A result event flagged as an error that carries no result text. *)
Definition errorWithoutText : string :=
  "{" ++ js "type" ++ ":" ++ js "result" ++ "," ++
  js "subtype" ++ ":" ++ js "error_during_execution" ++ "," ++
  js "is_error" ++ ":true}".

(** An assistant event with one text block. *)
Definition wentWrong : string :=
  "{" ++ js "type" ++ ":" ++ js "assistant" ++ "," ++
  js "message" ++ ":{" ++ js "role" ++ ":" ++ js "assistant" ++ "," ++
  js "content" ++ ":[{" ++ js "type" ++ ":" ++ js "text" ++ "," ++
  js "text" ++ ":" ++ js "Something went wrong" ++ "}]}}".

(** What [json.Unmarshal] makes of the two lines. *)
Definition errorJson : JsonLib :=
  tableJson
    [ (errorWithoutText,
       mkEvent "result" "error_during_execution" None "" "" true);
      (wentWrong,
       mkEvent "assistant" ""
               (Some (mkMessage "assistant"
                        [mkBlock "text" "Something went wrong" "" "" ""]))
               "" "" false) ]
    [].

(** The lines of the executor's tests: a system event, an assistant event
    with one text block, a result event. *)
Definition systemLine : string :=
  "{" ++ js "type" ++ ":" ++ js "system" ++ "," ++
  js "subtype" ++ ":" ++ js "init" ++ "}".

Definition assistantTextLine (text : string) : string :=
  "{" ++ js "type" ++ ":" ++ js "assistant" ++ "," ++
  js "message" ++ ":{" ++ js "role" ++ ":" ++ js "assistant" ++ "," ++
  js "content" ++ ":[{" ++ js "type" ++ ":" ++ js "text" ++ "," ++
  js "text" ++ ":" ++ js text ++ "}]}}".

Definition resultLine (result : string) : string :=
  "{" ++ js "type" ++ ":" ++ js "result" ++ "," ++
  js "result" ++ ":" ++ js result ++ "}".

Definition assistantTextEvent (text : string) : cliEvent :=
  mkEvent "assistant" ""
          (Some (mkMessage "assistant" [mkBlock "text" text "" "" ""]))
          "" "" false.

Definition resultEvent (result : string) : cliEvent :=
  mkEvent "result" "" None "" result false.

(** The input of a question tool invocation with one question and two
    options, and the assistant event that carries it. *)
Definition colourInput : string :=
  "{" ++ js "questions" ++ ":[{" ++ js "question" ++ ":" ++
  js "Which colour?" ++ "," ++ js "header" ++ ":" ++ js "Colour" ++ "," ++
  js "options" ++ ":[{" ++ js "label" ++ ":" ++ js "Red" ++ "},{" ++
  js "label" ++ ":" ++ js "Blue" ++ "}]}]}".

Definition colourQuestion : questionInput :=
  mkQuestions [mkItem "Which colour?" "Colour"
                      [mkOption "Red" ""; mkOption "Blue" ""]].

Definition colourLine : string :=
  "{" ++ js "type" ++ ":" ++ js "assistant" ++ "," ++
  js "message" ++ ":{" ++ js "role" ++ ":" ++ js "assistant" ++ "," ++
  js "content" ++ ":[{" ++ js "type" ++ ":" ++ js "tool_use" ++ "," ++
  js "name" ++ ":" ++ js "AskUserQuestion" ++ "," ++
  js "input" ++ ":" ++ colourInput ++ "}]}}".

Definition colourEvent : cliEvent :=
  mkEvent "assistant" ""
          (Some (mkMessage "assistant"
                   [mkBlock "tool_use" "" "AskUserQuestion" "" colourInput]))
          "" "" false.

(** What [json.Unmarshal] makes of these lines. *)
Definition testJson : JsonLib :=
  tableJson
    [ (systemLine, mkEvent "system" "init" None "" "" false);
      (assistantTextLine "Hello world", assistantTextEvent "Hello world");
      (resultLine "Hello world", resultEvent "Hello world");
      (assistantTextLine "Let me look into that.",
       assistantTextEvent "Let me look into that.");
      (resultLine "The answer is 42.", resultEvent "The answer is 42.");
      (colourLine, colourEvent) ]
    [ (colourInput, colourQuestion) ].

(** An executor whose invocation ends with the question. *)
Definition askingExec (_ : Job) (_ : list MCPServer)
  : ExecuteResult * option string :=
  (mkResult "transcript" [systemLine; colourLine], None).

(** A job that last ran at midnight, every five minutes, and its
    scheduler. *)
Definition fiveMinuteJob : Job :=
  mkJob "job-1" "five" "2026-01-01T00:00" 5 "minutes" "Work" true ""
        "2026-01-01T00:00:00Z" "success" "" "".

Definition fiveMinuteSched : Scheduler :=
  mkScheduler (mkStore [fiveMinuteJob] [] [] []) true true askingExec
              fastAnswer [].

(** An output of one byte more than the cap. *)
Definition longOutput : string :=
  string_of_list_ascii (repeat "a"%char (Z.to_nat (maxOutputBytes + 1))).

End Scenarios.

(* ===================================================================== *)
(** * Package main: the notification callback *)
(* ===================================================================== *)

Module App.
Import GoStrings.

(** [notifications.NotificationOptions], the fields the callback sets. *)
Record NotificationOptions := mkNotification {
  ntf_ID : string;
  ntf_Title : string;
  ntf_Body : string
}.

(** [func (a *App) sendNotification(jobName string, status string)]: the
    notification handed to the notifier, [None] when the function returns
    without sending one; [hasNotifier] is [a.notifier != nil]. *)
Definition sendNotification (hasNotifier : bool) (jobName status : string)
  : option NotificationOptions :=
  if negb hasNotifier then None
  else
    let send title body :=
      Some (mkNotification ("job-" ++ jobName ++ "-" ++ status) title body) in
    if (status =? "running")%string
    then send "Job Started" (jobName ++ " is now running")
    else if (status =? "success")%string
    then send "Job Completed" (jobName ++ " finished successfully")
    else if (status =? "failed")%string
    then send "Job Failed" (jobName ++ " failed")
    else if (status =? "waiting")%string
    then send "Job Needs Input" (jobName ++ " is waiting for your answer")
    else None.

End App.

(* ===================================================================== *)
(** * More vocabulary: orders, invariants of the store, event lists *)
(* ===================================================================== *)

Module Coverage.
Import GoStrings GoTime Db Executor Scheduler.

(** Each element of a list is before its successor in a key order. *)
Fixpoint orderedBy {A : Type} (le : A -> A -> bool) (l : list A) : bool :=
  match l with
  | [] => true
  | a :: t =>
      match t with
      | [] => true
      | b :: _ => le a b && orderedBy le t
      end
  end.

(** The orders of the three [ORDER BY] clauses. *)
Definition byName (a b : Job) : bool := String.leb (job_Name a) (job_Name b).

Definition newestFirst (a b : JobRun) : bool :=
  String.leb (run_StartedAt b) (run_StartedAt a).

(** The nanoseconds of one unit of an interval. *)
Definition unitNanos (unit : string) : option Z :=
  if (unit =? "minutes")%string then Some (60 * 1000000000)
  else if (unit =? "hours")%string then Some (3600 * 1000000000)
  else if (unit =? "days")%string then Some (24 * 3600 * 1000000000)
  else if (unit =? "weeks")%string then Some (7 * 24 * 3600 * 1000000000)
  else None.

(** Every job of the store passes [validateJob]. *)
Definition storeValid (s : Store) : Prop :=
  Forall (fun j => validateJob j = None) (jobs s).

(** No two runs of the store have the same id (the primary key of
    [job_runs]). *)
Definition runIdsUnique (s : Store) : Prop :=
  NoDup (map run_ID (job_runs s)).

(** The runs of a job, in table order. *)
Definition runsOf (s : Store) (jobID : string) : list JobRun :=
  filter (fun r => (run_JobID r =? jobID)%string) (job_runs s).

(** A job of the table is running. *)
Definition isRunning (j : Job) : bool := (job_Status j =? "running")%string.

(** The calls [emit] and [notify] add, given which callbacks are set. *)
Definition emitCalls (s : Scheduler) : list Event :=
  if emitFn s then [Emit "jobs:updated"] else [].

Definition notifyCalls (s : Scheduler) (jobName status : string)
  : list Event :=
  if notifyFn s then [Notify jobName status] else [].

(** The lines that decode to an event. *)
Definition decodes `{JL : JsonLib} (line : string) : bool :=
  match decodeLine line with
  | Some _ => true
  | None => false
  end.

(** The temporary files written and not removed. *)
Definition leftBehind (w : World) : list string :=
  filter (fun name => negb (existsb (String.eqb name) (removed w)))
         (map fst (written w)).

(** What an invocation hands back is either an error that says something,
    with the zero result, or a result with a transcript that is not
    empty. *)
Definition soundReply (reply : ExecuteResult * option string) : Prop :=
  match snd reply with
  | Some e => fst reply = zeroResult /\ e <> ""
  | None => Transcript (fst reply) <> ""
  end.

(** A run of the waiting job that has started, and the store that holds
    it. *)
Definition firstRun : JobRun :=
  mkJobRun "" "job-1" "2026-01-01T00:00:00Z" "" "running" "" "".

Definition oneRunStore : Store :=
  snd (CreateRun Scenarios.waitingStore firstRun "run-1").

End Coverage.

(* ===================================================================== *)
(** * Properties of Go strings *)
(* ===================================================================== *)

Module GoStringsFacts.
Import GoStrings.

Lemma length_append (a b : string) :
  String.length (a ++ b) = (String.length a + String.length b)%nat.
Proof. induction a as [|c a IH]; simpl; [reflexivity | now rewrite IH]. Qed.

Lemma len_append (a b : string) : len (a ++ b) = len a + len b.
Proof. unfold len. rewrite length_append. lia. Qed.

Lemma len_nonneg (s : string) : 0 <= len s.
Proof. unfold len. lia. Qed.

Lemma length_substring0 (n : nat) (s : string) :
  (n <= String.length s)%nat -> String.length (substring 0 n s) = n.
Proof.
  revert s. induction n as [|n IH]; intros s Hn.
  - destruct s; reflexivity.
  - destruct s as [|c s]; simpl in *; [lia |].
    rewrite IH by lia. reflexivity.
Qed.

Lemma len_slice_to (s : string) (hi : Z) :
  0 <= hi <= len s -> len (slice_to s hi) = hi.
Proof.
  unfold len, slice_to. intros H.
  rewrite length_substring0 by lia. lia.
Qed.

Lemma append_assoc (a b c : string) : (a ++ b) ++ c = a ++ (b ++ c).
Proof. induction a as [|x a IH]; simpl; [reflexivity | now rewrite IH]. Qed.

Lemma append_nil_r (a : string) : a ++ "" = a.
Proof. induction a as [|x a IH]; simpl; [reflexivity | now rewrite IH]. Qed.

Lemma append_inv_nil (a b : string) : a ++ b = a -> b = "".
Proof.
  induction a as [|x a IH]; simpl; intros H; [exact H |].
  injection H as H. auto.
Qed.

Lemma eqb_empty_len (s : string) : (s =? "")%string = (len s =? 0).
Proof. destruct s; reflexivity || (unfold len; simpl; symmetry; apply Z.eqb_neq; lia). Qed.

(** Reversal. *)
Lemma srev_onto_app (s acc : string) : srev_onto s acc = srev s ++ acc.
Proof.
  unfold srev. revert acc.
  induction s as [|c s IH]; intros acc; [reflexivity |].
  cbn [srev_onto]. rewrite (IH (String c acc)).
  rewrite (IH (String c EmptyString)), append_assoc. reflexivity.
Qed.

Lemma srev_cons (c : ascii) (s : string) :
  srev (String c s) = srev s ++ String c EmptyString.
Proof. unfold srev at 1. cbn [srev_onto]. apply srev_onto_app. Qed.

Lemma srev_app (a b : string) : srev (a ++ b) = srev b ++ srev a.
Proof.
  induction a as [|c a IH].
  - cbn [append]. change (srev "") with "". rewrite append_nil_r. reflexivity.
  - cbn [append]. rewrite !srev_cons, IH, append_assoc. reflexivity.
Qed.

Lemma srev_involutive (s : string) : srev (srev s) = s.
Proof.
  induction s as [|c s IH]; [reflexivity |].
  rewrite srev_cons, srev_app, IH. reflexivity.
Qed.

(** A byte below 128 is no part of a white space rune of two or three
    bytes. *)
Ltac no_space :=
  unfold space2, space3, byte_is; cbn;
  repeat match goal with
         | |- context [N.eqb (N_of_ascii ?c) ?k] =>
             destruct (N.eqb (N_of_ascii c) k)
         | |- context [N.leb ?a (N_of_ascii ?c)] =>
             destruct (N.leb a (N_of_ascii c))
         | |- context [N.leb (N_of_ascii ?c) ?a] =>
             destruct (N.leb (N_of_ascii c) a)
         end; reflexivity.

Lemma space2_lt_l (c : ascii) : space2 "<" c = false.
Proof. no_space. Qed.
Lemma space2_lt_r (c : ascii) : space2 c "<" = false.
Proof. no_space. Qed.
Lemma space3_lt_1 (c2 c3 : ascii) : space3 "<" c2 c3 = false.
Proof. no_space. Qed.
Lemma space3_lt_2 (c1 c3 : ascii) : space3 c1 "<" c3 = false.
Proof. no_space. Qed.
Lemma space3_lt_3 (c1 c2 : ascii) : space3 c1 c2 "<" = false.
Proof. no_space. Qed.
Lemma space2_gt_l (c : ascii) : space2 ">" c = false.
Proof. no_space. Qed.
Lemma space2_gt_r (c : ascii) : space2 c ">" = false.
Proof. no_space. Qed.
Lemma space3_gt_1 (c2 c3 : ascii) : space3 ">" c2 c3 = false.
Proof. no_space. Qed.
Lemma space3_gt_2 (c1 c3 : ascii) : space3 c1 ">" c3 = false.
Proof. no_space. Qed.
Lemma space3_gt_3 (c1 c2 : ascii) : space3 c1 c2 ">" = false.
Proof. no_space. Qed.

(** The scan of [TrimLeft] stops at the latest at a [<]. *)
Lemma TrimLeft_stops_at_lt (n : nat) :
  forall (a m : string),
    (String.length a <= n)%nat ->
    exists a', TrimLeft (a ++ String "<" m) = a' ++ String "<" m.
Proof.
  induction n as [n IH] using lt_wf_ind. intros a m Hn.
  destruct a as [|c1 a1].
  - exists "". cbn [append TrimLeft]. change (asciiSpace "<") with false.
    cbv iota. destruct m as [|c2 m]; [reflexivity |].
    rewrite space2_lt_l. destruct m as [|c3 m]; [reflexivity |].
    rewrite space3_lt_1. reflexivity.
  - cbn [append TrimLeft]. cbn [String.length] in Hn.
    destruct (asciiSpace c1).
    { apply (IH (String.length a1)); lia. }
    destruct a1 as [|c2 a2].
    + exists (String c1 ""). cbn [append]. rewrite space2_lt_r.
      destruct m as [|c3 m]; [reflexivity |].
      rewrite space3_lt_2. reflexivity.
    + cbn [append]. cbn [String.length] in Hn.
      destruct (space2 c1 c2).
      { apply (IH (String.length a2)); lia. }
      destruct a2 as [|c3 a3].
      * exists (String c1 (String c2 "")). cbn [append].
        rewrite space3_lt_3. reflexivity.
      * cbn [append]. cbn [String.length] in Hn.
        destruct (space3 c1 c2 c3).
        { apply (IH (String.length a3)); lia. }
        exists (String c1 (String c2 (String c3 a3))). reflexivity.
Qed.

(** The scan of [TrimRight] stops at the latest at a [>]. *)
Lemma trimRev_stops_at_gt (n : nat) :
  forall (a m : string),
    (String.length a <= n)%nat ->
    exists a', trimRev (a ++ String ">" m) = a' ++ String ">" m.
Proof.
  induction n as [n IH] using lt_wf_ind. intros a m Hn.
  destruct a as [|c1 a1].
  - exists "". cbn [append trimRev]. change (asciiSpace ">") with false.
    cbv iota. destruct m as [|c2 m]; [reflexivity |].
    rewrite space2_gt_r. destruct m as [|c3 m]; [reflexivity |].
    rewrite space3_gt_3. reflexivity.
  - cbn [append trimRev]. cbn [String.length] in Hn.
    destruct (asciiSpace c1).
    { apply (IH (String.length a1)); lia. }
    destruct a1 as [|c2 a2].
    + exists (String c1 ""). cbn [append]. rewrite space2_gt_l.
      destruct m as [|c3 m]; [reflexivity |].
      rewrite space3_gt_2. reflexivity.
    + cbn [append]. cbn [String.length] in Hn.
      destruct (space2 c2 c1).
      { apply (IH (String.length a2)); lia. }
      destruct a2 as [|c3 a3].
      * exists (String c1 (String c2 "")). cbn [append].
        rewrite space3_gt_1. reflexivity.
      * cbn [append]. cbn [String.length] in Hn.
        destruct (space3 c3 c2 c1).
        { apply (IH (String.length a3)); lia. }
        exists (String c1 (String c2 (String c3 a3))). reflexivity.
Qed.

(** [TrimSpace] keeps a text that begins with [<] and ends with [>],
    wherever it stands. *)
Lemma TrimSpace_keeps_tag (a mid b : string) :
  exists a' b',
    TrimSpace (a ++ (String "<" mid ++ String ">" "") ++ b) =
    a' ++ (String "<" mid ++ String ">" "") ++ b'.
Proof.
  unfold TrimSpace, TrimRight.
  destruct (TrimLeft_stops_at_lt (String.length a) a
              ((mid ++ String ">" "") ++ b) (le_n _)) as [a' Hl].
  change ((String "<" mid ++ String ">" "") ++ b)
    with (String "<" ((mid ++ String ">" "") ++ b)).
  rewrite Hl.
  assert (Hr : srev (a' ++ String "<" ((mid ++ String ">" "") ++ b)) =
               srev b ++ String ">" (srev (a' ++ String "<" mid))).
  { replace (a' ++ String "<" ((mid ++ String ">" "") ++ b))
      with ((a' ++ String "<" mid) ++ String ">" b).
    - rewrite srev_app, srev_cons, append_assoc. reflexivity.
    - rewrite !append_assoc. cbn [append]. reflexivity. }
  rewrite Hr.
  destruct (trimRev_stops_at_gt (String.length (srev b)) (srev b)
              (srev (a' ++ String "<" mid)) (le_n _)) as [x Hx].
  rewrite Hx.
  exists a', (srev x).
  replace (x ++ String ">" (srev (a' ++ String "<" mid)))
    with ((x ++ String ">" "") ++ srev (a' ++ String "<" mid))
    by (rewrite append_assoc; reflexivity).
  rewrite srev_app, srev_involutive, srev_app.
  change (srev (String ">" "")) with (String ">" "").
  rewrite !append_assoc. cbn [append]. reflexivity.
Qed.

Lemma prefix_app (m b : string) : prefix m (m ++ b) = true.
Proof.
  induction m as [|c m IH]; cbn [append prefix]; [destruct b; reflexivity |].
  destruct (ascii_dec c c) as [_ | N]; [exact IH | contradiction].
Qed.

Lemma Contains_app (a m b : string) : Contains (a ++ m ++ b) m = true.
Proof.
  induction a as [|c a IH].
  - cbn [append]. destruct (m ++ b) eqn:E; cbn [Contains];
      rewrite <- E, prefix_app; reflexivity.
  - cbn [append Contains]. rewrite IH.
    destruct (prefix m (String c (a ++ m ++ b))); reflexivity.
Qed.

End GoStringsFacts.

(* ===================================================================== *)
(** * Properties of the store *)
(* ===================================================================== *)

Module DbFacts.
Import GoStrings GoStringsFacts Db Claims.

Lemma len_truncatedMarker : len truncatedMarker = 13.
Proof. reflexivity. Qed.

Lemma truncateOutput_short (s : string) :
  len s <= maxOutputBytes -> truncateOutput s = s.
Proof.
  intros H. unfold truncateOutput.
  destruct (Z.leb_spec (len s) maxOutputBytes); [reflexivity | lia].
Qed.

Lemma truncateOutput_long (s : string) :
  maxOutputBytes < len s ->
  truncateOutput s =
    slice_to s (maxOutputBytes - len truncatedMarker) ++ truncatedMarker.
Proof.
  intros H. unfold truncateOutput.
  destruct (Z.leb_spec (len s) maxOutputBytes); [lia | reflexivity].
Qed.

Lemma len_truncateOutput_long (s : string) :
  maxOutputBytes < len s -> len (truncateOutput s) = maxOutputBytes.
Proof.
  intros H. rewrite truncateOutput_long by assumption.
  rewrite len_append, len_slice_to; rewrite len_truncatedMarker.
  - lia.
  - unfold maxOutputBytes in *. lia.
Qed.

Lemma len_truncateOutput (s : string) :
  len (truncateOutput s) <= maxOutputBytes.
Proof.
  destruct (Z.leb_spec (len s) maxOutputBytes) as [H|H].
  - rewrite truncateOutput_short; assumption.
  - rewrite len_truncateOutput_long; [lia | assumption].
Qed.

Lemma CreateRun_row (s : Store) (run : JobRun) (uuid : string) :
  let '(run', err, s') := CreateRun s run uuid in
  run_Output run' = truncateOutput (run_Output run) /\
  (err = None -> job_runs s' = (job_runs s ++ [run'])%list) /\
  (err <> None -> s' = s).
Proof.
  unfold CreateRun.
  destruct (existsb _ (job_runs s)); simpl.
  - repeat split; [destruct (run_ID run =? "")%string; reflexivity | discriminate].
  - destruct (existsb _ (jobs s)); simpl.
    + repeat split; [destruct (run_ID run =? "")%string; reflexivity | congruence].
    + repeat split; [destruct (run_ID run =? "")%string; reflexivity | discriminate].
Qed.

Lemma UpdateRun_rows (s : Store) (run : JobRun) :
  job_runs (snd (UpdateRun s run)) =
  map (fun r => if (run_ID r =? run_ID run)%string
                then mkJobRun (run_ID r) (run_JobID r) (run_StartedAt r)
                              (run_EndedAt run) (run_Status run)
                              (truncateOutput (run_Output run))
                              (run_PendingQuestion run)
                else r) (job_runs s).
Proof.
  unfold UpdateRun. simpl.
  destruct (affected _ _ =? 0); reflexivity.
Qed.

(** C10: every run that [CreateRun] or [UpdateRun] persists has an output of
    at most [100 * 1024] bytes.  The output stored is [truncateOutput] of
    the one given: the same string when it is within the cap, and otherwise
    its first [cap - 13] bytes followed by the marker (two line feeds and
    [[truncated]]), which is a string of exactly [cap] bytes that ends in
    [[truncated]].  [CreateRun] appends one row with that output,
    [UpdateRun] writes it to the rows with the run's id and leaves the
    others as they are, so both keep every stored output within the cap. *)
Theorem run_output_capped :
  forall (s : Store) (run : JobRun) (uuid : string),
    let out := truncateOutput (run_Output run) in
    len out <= maxOutputBytes /\
    (len (run_Output run) <= maxOutputBytes -> out = run_Output run) /\
    (maxOutputBytes < len (run_Output run) ->
       out = slice_to (run_Output run) (maxOutputBytes - 13)
             ++ (LF ++ LF ++ "[truncated]") /\
       len out = maxOutputBytes /\
       exists pre, out = pre ++ "[truncated]") /\
    (forall run' s', CreateRun s run uuid = (run', None, s') ->
       job_runs s' = (job_runs s ++ [run'])%list /\
       run_Output run' = out /\
       (runsBounded s -> runsBounded s')) /\
    (forall err s', UpdateRun s run = (err, s') ->
       (forall r', In r' (job_runs s') ->
          (run_ID r' = run_ID run /\ run_Output r' = out) \/
          (run_ID r' <> run_ID run /\ In r' (job_runs s))) /\
       (runsBounded s -> runsBounded s')).
Proof.
  intros s run uuid out. subst out.
  split; [apply len_truncateOutput |].
  split; [apply truncateOutput_short |].
  split.
  { intros Hlong. split; [| split].
    - rewrite truncateOutput_long by assumption. reflexivity.
    - apply len_truncateOutput_long; assumption.
    - rewrite truncateOutput_long by assumption.
      exists (slice_to (run_Output run) (maxOutputBytes - len truncatedMarker)
              ++ LF ++ LF).
      unfold truncatedMarker. rewrite !append_assoc. reflexivity. }
  split.
  { intros run' s' Hc.
    pose proof (CreateRun_row s run uuid) as Hrow. rewrite Hc in Hrow.
    destruct Hrow as (Hout & Hrows & _).
    specialize (Hrows eq_refl).
    split; [assumption | split; [assumption |]].
    unfold runsBounded. rewrite Hrows. intros Hb.
    apply Forall_app. split; [assumption |].
    constructor; [| constructor]. rewrite Hout. apply len_truncateOutput. }
  intros err s' Hu.
  pose proof (UpdateRun_rows s run) as Hrows. rewrite Hu in Hrows.
  simpl in Hrows.
  assert (Hin : forall r', In r' (job_runs s') ->
            (run_ID r' = run_ID run /\
             run_Output r' = truncateOutput (run_Output run)) \/
            (run_ID r' <> run_ID run /\ In r' (job_runs s))).
  { intros r' Hr'. rewrite Hrows in Hr'. apply in_map_iff in Hr'.
    destruct Hr' as (r & Hr & Hin).
    destruct (String.eqb_spec (run_ID r) (run_ID run)) as [E|E]; subst r'.
    - left. simpl. split; [assumption | reflexivity].
    - right. split; assumption. }
  split; [exact Hin |].
  unfold runsBounded. intros Hb. apply Forall_forall. intros r' Hr'.
  destruct (Hin r' Hr') as [[_ Ho] | [_ Hold]].
  - rewrite Ho. apply len_truncateOutput.
  - rewrite Forall_forall in Hb. apply Hb. assumption.
Qed.

End DbFacts.

(* ===================================================================== *)
(** * Properties of the scheduler: startup *)
(* ===================================================================== *)

Module StartupFacts.
Import GoStrings GoTime Db Executor Scheduler.

Lemma resetRow_running (j : Job) :
  job_Status j = "running" ->
  resetRow j =
    mkJob (job_ID j) (job_Name j) (job_StartDate j) (job_IntervalValue j)
          (job_IntervalUnit j) (job_Prompt j) (job_Active j) (job_NextRun j)
          (job_LastRun j) "failed" "interrupted: app was restarted"
          (job_PendingQuestion j).
Proof. intros H. unfold resetRow. rewrite H. reflexivity. Qed.

Lemma resetRow_other (j : Job) :
  job_Status j <> "running" -> resetRow j = j.
Proof.
  intros H. unfold resetRow.
  destruct (String.eqb_spec (job_Status j) "running"); [contradiction | reflexivity].
Qed.

Lemma resetRow_not_running (j : Job) : job_Status (resetRow j) <> "running".
Proof.
  unfold resetRow.
  destruct (String.eqb_spec (job_Status j) "running"); simpl;
    [discriminate | assumption].
Qed.

Lemma Start_store (s : Scheduler) :
  store (Start s) = with_jobs (store s) (map resetRow (jobs (store s))).
Proof.
  unfold Start, ResetRunningJobs.
  destruct (0 <? _); unfold emit; simpl; [destruct (emitFn s) |]; reflexivity.
Qed.

(** C4: [Start] resets the store before the tick loop runs.  The jobs table
    it leaves has the same rows in the same order, where a job whose status
    was [running] now has status [failed] and output
    [interrupted: app was restarted], every other field as before, and a
    job with any other status (so every [waiting] job, with its pending
    question) is the same row in all fields; no job is left [running], and
    the other tables are not touched. *)
Theorem startup_fails_running_jobs :
  forall (s : Scheduler),
    let before := jobs (store s) in
    let after := jobs (store (Start s)) in
    List.length after = List.length before /\
    (forall (i : nat) (j : Job), nth_error before i = Some j ->
       exists j', nth_error after i = Some j' /\
         (job_Status j = "running" ->
            j' = set_job_Output (set_job_Status j "failed")
                                "interrupted: app was restarted" /\
            job_Status j' = "failed" /\
            job_Output j' = "interrupted: app was restarted" /\
            job_PendingQuestion j' = job_PendingQuestion j) /\
         (job_Status j <> "running" -> j' = j) /\
         (job_Status j = "waiting" ->
            j' = j /\ job_PendingQuestion j' = job_PendingQuestion j)) /\
    Forall (fun j' => job_Status j' <> "running") after /\
    job_runs (store (Start s)) = job_runs (store s) /\
    mcp_servers (store (Start s)) = mcp_servers (store s) /\
    job_mcp_servers (store (Start s)) = job_mcp_servers (store s).
Proof.
  intros s before after. subst before after.
  rewrite Start_store. simpl.
  split; [apply length_map |].
  split.
  { intros i j Hi. exists (resetRow j).
    split; [rewrite nth_error_map, Hi; reflexivity |].
    split; [| split].
    - intros Hr. rewrite resetRow_running by assumption.
      unfold set_job_Output, set_job_Status. simpl. repeat split.
    - apply resetRow_other.
    - intros Hw. rewrite resetRow_other; [split; reflexivity |].
      rewrite Hw. discriminate. }
  split; [| repeat split].
  apply Forall_forall. intros j' Hin. apply in_map_iff in Hin.
  destruct Hin as (j & <- & _). apply resetRow_not_running.
Qed.

End StartupFacts.

(* ===================================================================== *)
(** * Properties of the scheduler: the due check *)
(* ===================================================================== *)

Module DueFacts.
Import GoStrings GoTime Db Executor Scheduler Claims Scenarios.

Section Due.
Context `{TL : TimeLib}.

Lemma parseTime_Some (ref : string) (t : Time) :
  parseTime ref = Some t <->
  Parse RFC3339 ref = Some t \/
  (Parse RFC3339 ref = None /\ Parse "2006-01-02T15:04" ref = Some t).
Proof.
  unfold parseTime. destruct (Parse RFC3339 ref) as [t'|].
  - split; [intros E; left; exact E | intros [E | [E _]]; [exact E | discriminate]].
  - split; [intros E; right; split; [reflexivity | exact E]
           | intros [E | [_ E]]; [discriminate | exact E]].
Qed.

Lemma intervalDuration_unknown_unit (value : Z) (unit : string) :
  ~ In unit ["minutes"; "hours"; "days"; "weeks"] ->
  intervalDuration value unit = 0.
Proof.
  intros Hn. unfold intervalDuration.
  destruct (String.eqb_spec unit "minutes"); [exfalso; apply Hn; simpl; auto |].
  destruct (String.eqb_spec unit "hours"); [exfalso; apply Hn; simpl; auto |].
  destruct (String.eqb_spec unit "days"); [exfalso; apply Hn; simpl; auto |].
  destruct (String.eqb_spec unit "weeks"); [exfalso; apply Hn; simpl; auto |].
  reflexivity.
Qed.

Lemma intervalDuration_nonzero_unit (value : Z) (unit : string) :
  intervalDuration value unit <> 0 ->
  In unit ["minutes"; "hours"; "days"; "weeks"].
Proof.
  intros Hnz.
  destruct (in_dec string_dec unit ["minutes"; "hours"; "days"; "weeks"])
    as [Hin | Hout]; [assumption |].
  exfalso. apply Hnz. apply intervalDuration_unknown_unit. assumption.
Qed.

(** C1, as amended: [isDue] returns true exactly when the job is active,
    its status is neither [running] nor [waiting], its unit is one of
    minutes, hours, days and weeks, its reference time (the last run when
    not empty, else the start date) is not empty and parses in one of the
    two formats, reference plus interval is at or before now (equality
    counts as due), and the interval duration is not zero.  A unit outside
    the four gives a zero duration. *)
Theorem isDue_iff :
  forall (job : Job) (now : Time),
    (isDue job now = true <->
     dueAsClaimed job now /\ intervalOf job <> 0) /\
    (forall value unit,
       ~ In unit ["minutes"; "hours"; "days"; "weeks"] ->
       intervalDuration value unit = 0).
Proof.
  intros job now. split; [| intros; apply intervalDuration_unknown_unit; assumption].
  unfold isDue, dueAsClaimed, intervalOf, referenceOf.
  set (iv := intervalDuration (job_IntervalValue job) (job_IntervalUnit job)).
  set (ref := if (job_LastRun job =? "")%string then job_StartDate job
              else job_LastRun job).
  destruct (job_Active job); simpl.
  2:{ split; [discriminate | intros [[E _] _]; discriminate]. }
  destruct (String.eqb_spec (job_Status job) "running") as [Er|Er]; simpl.
  { split; [discriminate | intros [(_ & N & _) _]; contradiction]. }
  destruct (String.eqb_spec (job_Status job) "waiting") as [Ew|Ew]; simpl.
  { split; [discriminate | intros [(_ & _ & N & _) _]; contradiction]. }
  destruct (Z.eqb_spec iv 0) as [Ez|Ez].
  { split; [discriminate | intros [_ N]; contradiction]. }
  destruct (String.eqb_spec ref "") as [Ee|Ee].
  { split; [discriminate | intros [(_ & _ & _ & _ & t & N & _) _]; contradiction]. }
  destruct (parseTime ref) as [refTime|] eqn:Ep.
  - apply parseTime_Some in Ep. unfold After, Add.
    split.
    + intros Hd. apply negb_true_iff, Z.ltb_ge in Hd.
      split; [| assumption].
      repeat (split; [first [reflexivity | assumption] |]).
      split; [apply intervalDuration_nonzero_unit with (value := job_IntervalValue job); assumption |].
      exists refTime. repeat split; assumption.
    + intros [(_ & _ & _ & _ & t & _ & Hp & Hle) _].
      apply parseTime_Some in Hp. apply parseTime_Some in Ep.
      rewrite Hp in Ep. injection Ep as ->.
      apply negb_true_iff, Z.ltb_ge. assumption.
  - split; [discriminate |].
    intros [(_ & _ & _ & _ & t & _ & Hp & _) _].
    apply parseTime_Some in Hp. rewrite Hp in Ep. discriminate.
Qed.

End Due.

(** C1, as stated, fails: the job above meets every condition the claim
    lists (its reference time parses and, with a zero interval, is before
    now) and [isDue] returns false, because the interval is zero. *)
Lemma isDue_zero_interval_not_due :
  ~ (isDue (TL := RefLib.refTime) zeroIntervalJob tenPast = true <->
     dueAsClaimed (TL := RefLib.refTime) zeroIntervalJob tenPast).
Proof.
  intros [_ Hback].
  assert (Hc : dueAsClaimed (TL := RefLib.refTime) zeroIntervalJob tenPast).
  { unfold dueAsClaimed. split; [reflexivity |].
    split; [discriminate |]. split; [discriminate |].
    split; [simpl; auto |].
    exists (1767225600 * Second).
    split; [discriminate |].
    split; [left; vm_compute; reflexivity | vm_compute; discriminate]. }
  apply Hback in Hc. vm_compute in Hc. discriminate.
Qed.

End DueFacts.

(* ===================================================================== *)
(** * Properties of the scheduler: running a job *)
(* ===================================================================== *)

Module RunFacts.
Import GoStrings GoTime Db Executor Scheduler Claims.

Lemma affected_zero {A : Type} (sel : A -> bool) (rows : list A) :
  affected sel rows = 0 <-> forall r, In r rows -> sel r = false.
Proof.
  unfold affected. induction rows as [|x rows IH]; simpl.
  - split; [intros _ r [] | reflexivity].
  - destruct (sel x) eqn:E; simpl.
    + split; [lia | intros Hall; specialize (Hall x (or_introl eq_refl)); congruence].
    + rewrite IH. split.
      * intros Hall r [<- | Hr]; auto.
      * intros Hall r Hr. apply Hall. right. assumption.
Qed.

Lemma affected_job_zero (st : Store) (id : string) :
  affected (fun r => (job_ID r =? id)%string) (jobs st) = 0 <->
  ~ jobExists st id.
Proof.
  rewrite affected_zero. unfold jobExists. split.
  - intros Hall (r & Hin & <-). specialize (Hall r Hin).
    rewrite String.eqb_refl in Hall. discriminate.
  - intros Hn r Hin. apply String.eqb_neq. intros E. apply Hn. eauto.
Qed.

Lemma GetJob_found (st : Store) (id : string) (j : Job) :
  GetJob st id = (j, None) -> In j (jobs st) /\ job_ID j = id.
Proof.
  unfold GetJob. destruct (find _ _) as [j'|] eqn:E; [| discriminate].
  intros [= <-]. apply find_some in E. destruct E as [Hin He].
  apply String.eqb_eq in He. split; assumption.
Qed.

Lemma GetJob_exists (st : Store) (id : string) :
  jobExists st id <-> exists j, GetJob st id = (j, None).
Proof.
  split.
  - intros (r & Hin & Hid). unfold GetJob.
    destruct (find _ _) as [j|] eqn:E; [eauto |].
    eapply find_none in E; [| exact Hin]. simpl in E.
    rewrite Hid, String.eqb_refl in E. discriminate.
  - intros (j & Hg). apply GetJob_found in Hg. destruct Hg. exists j. auto.
Qed.

(** What [UpdateJob] does for a job that passes validation. *)
Lemma UpdateJob_valid (st : Store) (j : Job) :
  validateJob j = None ->
  UpdateJob st j =
    (j,
     if affected (fun r => (job_ID r =? job_ID j)%string) (jobs st) =? 0
     then Some ("job not found: " ++ job_ID j) else None,
     with_jobs st (map (fun r => if (job_ID r =? job_ID j)%string then j else r)
                       (jobs st))).
Proof.
  intros Hv. unfold UpdateJob. rewrite Hv.
  destruct (_ =? 0); reflexivity.
Qed.

Lemma UpdateJob_invalid (st : Store) (j : Job) (e : string) :
  validateJob j = Some e -> UpdateJob st j = (j, Some e, st).
Proof. intros Hv. unfold UpdateJob. rewrite Hv. reflexivity. Qed.

Lemma UpdateJob_ok (st : Store) (j : Job) :
  validateJob j = None -> jobExists st (job_ID j) ->
  UpdateJob st j =
    (j, None,
     with_jobs st (map (fun r => if (job_ID r =? job_ID j)%string then j else r)
                       (jobs st))).
Proof.
  intros Hv Hex. rewrite UpdateJob_valid by assumption.
  destruct (Z.eqb_spec (affected (fun r => (job_ID r =? job_ID j)%string) (jobs st)) 0)
    as [E|E]; [| reflexivity].
  apply affected_job_zero in E. contradiction.
Qed.

Lemma UpdateJob_error (st : Store) (j : Job) :
  snd (fst (UpdateJob st j)) <> None ->
  snd (UpdateJob st j) = st.
Proof.
  destruct (validateJob j) as [e|] eqn:Hv.
  - rewrite (UpdateJob_invalid _ _ _ Hv). reflexivity.
  - rewrite UpdateJob_valid by assumption. simpl.
    destruct (Z.eqb_spec (affected (fun r => (job_ID r =? job_ID j)%string) (jobs st)) 0)
      as [E|E]; [| congruence].
    intros _. rewrite affected_zero in E.
    destruct st as [js rs ms jm]. unfold with_jobs. simpl in *. f_equal.
    rewrite <- (map_id js) at 2. apply map_ext_in.
    intros r Hr. rewrite (E r Hr). reflexivity.
Qed.

Lemma find_map_replace (id : string) (j : Job) (rows : list Job) :
  job_ID j = id ->
  (exists r, In r rows /\ job_ID r = id) ->
  find (fun r => (job_ID r =? id)%string)
       (map (fun r => if (job_ID r =? id)%string then j else r) rows) = Some j.
Proof.
  intros Hj. induction rows as [|x rows IH]; intros (r & Hin & Hr).
  - destruct Hin.
  - simpl. destruct (String.eqb_spec (job_ID x) id) as [E|E].
    + rewrite Hj, String.eqb_refl. reflexivity.
    + apply String.eqb_neq in E. rewrite E. apply IH.
      destruct Hin as [-> | Hin]; [apply String.eqb_neq in E; contradiction |].
      eauto.
Qed.

Lemma GetJob_after_UpdateJob (st : Store) (j : Job) :
  validateJob j = None -> jobExists st (job_ID j) ->
  GetJob (snd (UpdateJob st j)) (job_ID j) = (j, None).
Proof.
  intros Hv Hex. rewrite UpdateJob_ok by assumption. unfold GetJob. simpl.
  rewrite find_map_replace; auto.
Qed.

Lemma jobExists_after_UpdateJob (st : Store) (j : Job) (id : string) :
  jobExists st id -> jobExists (snd (UpdateJob st j)) id.
Proof.
  intros (r & Hin & Hr). unfold UpdateJob.
  destruct (validateJob j); simpl; [exists r; auto |].
  assert (Hex : jobExists
            (with_jobs st (map (fun r0 => if (job_ID r0 =? job_ID j)%string
                                          then j else r0) (jobs st))) id).
  { destruct (String.eqb_spec (job_ID r) (job_ID j)) as [E|E].
    - exists j. split; [| congruence]. simpl. apply in_map_iff.
      exists r. rewrite E, String.eqb_refl. auto.
    - exists r. split; [| assumption]. simpl. apply in_map_iff.
      exists r. apply String.eqb_neq in E. rewrite E. auto. }
  destruct (_ =? 0); exact Hex.
Qed.

Lemma jobs_CreateRun (st : Store) (run : JobRun) (uuid : string) :
  jobs (snd (CreateRun st run uuid)) = jobs st.
Proof.
  unfold CreateRun. destruct (existsb _ (job_runs st)); [reflexivity |].
  destruct (negb _); reflexivity.
Qed.

Lemma jobs_UpdateRun (st : Store) (run : JobRun) :
  jobs (snd (UpdateRun st run)) = jobs st.
Proof. unfold UpdateRun. simpl. destruct (_ =? 0); reflexivity. Qed.

Lemma jobs_PruneRuns (st : Store) (id : string) :
  jobs (snd (PruneRuns st id)) = jobs st.
Proof. reflexivity. Qed.

Lemma store_emit (s : Scheduler) : store (emit s) = store s.
Proof. unfold emit. destruct (emitFn s); reflexivity. Qed.

Lemma store_notify (s : Scheduler) (n st : string) :
  store (notify s n st) = store s.
Proof. unfold notify. destruct (notifyFn s); reflexivity. Qed.

Lemma execFn_emit (s : Scheduler) : execFn (emit s) = execFn s.
Proof. unfold emit. destruct (emitFn s); reflexivity. Qed.

Lemma execFn_notify (s : Scheduler) (n st : string) :
  execFn (notify s n st) = execFn s.
Proof. unfold notify. destruct (notifyFn s); reflexivity. Qed.

Lemma GetJob_same_jobs (st st' : Store) (id : string) :
  jobs st' = jobs st -> GetJob st' id = GetJob st id.
Proof. intros E. unfold GetJob. rewrite E. reflexivity. Qed.

Section Completion.
Context `{TL : TimeLib} `{JL : JsonLib}.

Lemma finishExecution_job (s : Scheduler) (job : Job) (run : JobRun)
  (result : ExecuteResult) (execErr : option string) (endNow : Time) :
  snd (fst (finishExecution s job run result execErr endNow)) =
    finishedJob job result execErr /\
  jobs (store (fst (fst (finishExecution s job run result execErr endNow)))) =
    jobs (snd (UpdateJob (store s) (finishedJob job result execErr))).
Proof.
  unfold finishExecution.
  set (job' := finishedJob job result execErr).
  destruct (UpdateJob (store s) job') as [[j0 e0] st0] eqn:EU.
  cbv zeta. cbn [snd fst].
  destruct (negb (run_ID run =? "")%string).
  - match goal with |- context [UpdateRun ?a ?b] =>
      pose proof (jobs_UpdateRun a b) as HU;
      destruct (UpdateRun a b) as [e1 st1] end.
    unfold PruneRuns. cbn [snd fst] in *. split; [reflexivity |].
    rewrite store_notify, store_emit. cbn. exact HU.
  - cbn [snd fst]. split; [reflexivity |].
    rewrite store_notify, store_emit. reflexivity.
Qed.

Lemma validateJob_finishedJob (job : Job) (result : ExecuteResult)
  (execErr : option string) :
  validateJob (finishedJob job result execErr) = validateJob job.
Proof.
  unfold finishedJob. destruct execErr; [reflexivity |].
  destruct (negb _); reflexivity.
Qed.

Lemma job_ID_finishedJob (job : Job) (result : ExecuteResult)
  (execErr : option string) :
  job_ID (finishedJob job result execErr) = job_ID job.
Proof.
  unfold finishedJob. destruct execErr; [reflexivity |].
  destruct (negb _); reflexivity.
Qed.

Lemma finishExecution_effect :
  forall (s : Scheduler) (job : Job) (run : JobRun) (result : ExecuteResult)
         (execErr : option string) (endNow : Time),
    let done := finishExecution s job run result execErr endNow in
    let s' := fst (fst done) in
    let job' := snd (fst done) in
    let question := DetectQuestion (RawLines result) in
    (forall e, execErr = Some e ->
       job_Status job' = "failed" /\ job_Output job' = e /\
       job_PendingQuestion job' = "") /\
    (execErr = None -> question <> "" ->
       job_Status job' = "waiting" /\ job_Output job' = Transcript result /\
       job_PendingQuestion job' = question) /\
    (execErr = None -> question = "" ->
       job_Status job' = "success" /\ job_Output job' = Transcript result /\
       job_PendingQuestion job' = "") /\
    (job_Status job' = "waiting" -> job_PendingQuestion job' <> "") /\
    (job_ID job' = job_ID job /\ job_Name job' = job_Name job /\
     job_StartDate job' = job_StartDate job /\
     job_IntervalValue job' = job_IntervalValue job /\
     job_IntervalUnit job' = job_IntervalUnit job /\
     job_Prompt job' = job_Prompt job /\ job_Active job' = job_Active job /\
     job_NextRun job' = job_NextRun job /\
     job_LastRun job' = job_LastRun job) /\
    (validateJob job = None -> jobExists (store s) (job_ID job) ->
       GetJob (store s') (job_ID job) = (job', None)).
Proof.
  intros s job run result execErr endNow done s' job' question.
  destruct (finishExecution_job s job run result execErr endNow) as [Hj Hs].
  fold done in Hj, Hs. fold s' in Hs. fold job' in Hj.
  assert (Hshape :
    (forall e, execErr = Some e ->
       job_Status job' = "failed" /\ job_Output job' = e /\
       job_PendingQuestion job' = "") /\
    (execErr = None -> question <> "" ->
       job_Status job' = "waiting" /\ job_Output job' = Transcript result /\
       job_PendingQuestion job' = question) /\
    (execErr = None -> question = "" ->
       job_Status job' = "success" /\ job_Output job' = Transcript result /\
       job_PendingQuestion job' = "")).
  { rewrite Hj. unfold finishedJob. fold question.
    split; [| split].
    - intros e ->. simpl. auto.
    - intros -> Hq. apply String.eqb_neq in Hq. rewrite Hq. simpl. auto.
    - intros -> Hq. rewrite Hq. simpl. auto. }
  destruct Hshape as (Hfail & Hwait & Hok).
  split; [exact Hfail |]. split; [exact Hwait |]. split; [exact Hok |].
  split.
  { intros Hst. destruct execErr as [e|].
    - destruct (Hfail e eq_refl) as (Hf & _). rewrite Hf in Hst. discriminate.
    - destruct (string_dec question "") as [Hq|Hq].
      + destruct (Hok eq_refl Hq) as (Hf & _). rewrite Hf in Hst. discriminate.
      + destruct (Hwait eq_refl Hq) as (_ & _ & Hp). rewrite Hp. exact Hq. }
  split.
  { rewrite Hj. unfold finishedJob. destruct execErr; [simpl; repeat split |].
    destruct (negb _); simpl; repeat split. }
  intros Hv Hex.
  rewrite (GetJob_same_jobs _ _ _ Hs), Hj.
  rewrite <- (job_ID_finishedJob job result execErr).
  apply GetJob_after_UpdateJob.
  - rewrite validateJob_finishedJob. exact Hv.
  - rewrite job_ID_finishedJob. exact Hex.
Qed.

(** C2: what a completion does to the job.  With an error from the
    executor the status is [failed], the output is the error text and the
    pending question is empty; without one, when [DetectQuestion] finds a
    payload in the raw lines the status is [waiting], the output is the
    transcript and the payload is the pending question, and otherwise the
    status is [success], the output is the transcript and the pending
    question is empty.  So a job that a completion leaves [waiting] has a
    non-empty pending question.  No other field of the job changes, and
    that job is what the store holds afterwards for a job that exists and
    passes validation. *)
Theorem finishExecution_outcome :
  forall (s : Scheduler) (job : Job) (run : JobRun) (result : ExecuteResult)
         (execErr : option string) (endNow : Time),
    let done := finishExecution s job run result execErr endNow in
    let s' := fst (fst done) in
    let job' := snd (fst done) in
    let question := DetectQuestion (RawLines result) in
    (forall e, execErr = Some e ->
       job_Status job' = "failed" /\ job_Output job' = e /\
       job_PendingQuestion job' = "") /\
    (execErr = None -> question <> "" ->
       job_Status job' = "waiting" /\ job_Output job' = Transcript result /\
       job_PendingQuestion job' = question) /\
    (execErr = None -> question = "" ->
       job_Status job' = "success" /\ job_Output job' = Transcript result /\
       job_PendingQuestion job' = "") /\
    (job_Status job' = "waiting" -> job_PendingQuestion job' <> "") /\
    (job_ID job' = job_ID job /\ job_Name job' = job_Name job /\
     job_StartDate job' = job_StartDate job /\
     job_IntervalValue job' = job_IntervalValue job /\
     job_IntervalUnit job' = job_IntervalUnit job /\
     job_Prompt job' = job_Prompt job /\ job_Active job' = job_Active job /\
     job_NextRun job' = job_NextRun job /\
     job_LastRun job' = job_LastRun job) /\
    (validateJob job = None -> jobExists (store s) (job_ID job) ->
       GetJob (store s') (job_ID job) = (job', None)).
Proof. exact finishExecution_effect. Qed.

End Completion.

End RunFacts.

(* ===================================================================== *)
(** * Properties of the scheduler: the schedule clock *)
(* ===================================================================== *)

Module ClockFacts.
Import GoStrings GoTime Db Executor Scheduler Claims RunFacts.

Section Clock.
Context `{TL : TimeLib} `{JL : JsonLib}.

Lemma executeJob_runs (s : Scheduler) (job : Job) (now : Time)
  (uuid : string) (endNow : Time) :
  validateJob job = None -> jobExists (store s) (job_ID job) ->
  let s2 := beforeInvocation s job now uuid in
  let run := fst (fst (CreateRun
                        (store (notify (emit (with_store s (snd (UpdateJob (store s) (runningJob job)))))
                                       (job_Name job) "running"))
                        (newRun job now) uuid)) in
  let ex := execFn s2 (runningJob job)
                   (GetMCPServersForJob (store s2) (job_ID job)) in
  executeJob s job now uuid endNow =
    (fst (fst (finishExecution s2 (timedJob job now) run (fst ex) (snd ex) endNow)),
     snd (fst (finishExecution s2 (timedJob job now) run (fst ex) (snd ex) endNow))).
Proof.
  intros Hv Hex. unfold executeJob, beforeInvocation.
  fold (runningJob job).
  rewrite (UpdateJob_ok (store s) (runningJob job)) by assumption.
  cbn [snd fst].
  change (job_Name (runningJob job)) with (job_Name job).
  change (job_ID (runningJob job)) with (job_ID job).
  fold (newRun job now).
  set (s1 := notify (emit (with_store s _)) (job_Name job) "running").
  destruct (CreateRun (store s1) (newRun job now) uuid) as [[run e] st] eqn:EC.
  cbn [snd fst].
  set (s2 := with_store s1 st).
  destruct (execFn s2 (runningJob job) (GetMCPServersForJob (store s2) (job_ID job)))
    as [result execErr] eqn:EX.
  cbn [snd fst].
  change (job_IntervalValue (set_job_LastRun (runningJob job) (Format now RFC3339)))
    with (job_IntervalValue job).
  change (job_IntervalUnit (set_job_LastRun (runningJob job) (Format now RFC3339)))
    with (job_IntervalUnit job).
  fold (timedJob job now).
  destruct (finishExecution s2 (timedJob job now) run result execErr endNow)
    as [[s3 job3] run3].
  reflexivity.
Qed.

Lemma jobExists_beforeInvocation (s : Scheduler) (job : Job) (now : Time)
  (uuid : string) :
  jobExists (store s) (job_ID job) ->
  jobExists (store (beforeInvocation s job now uuid)) (job_ID job).
Proof.
  intros Hex. unfold beforeInvocation. cbn [store with_store].
  destruct (jobExists_after_UpdateJob (store s) (runningJob job) (job_ID job) Hex)
    as (r & Hin & Hr).
  exists r. split; [| assumption].
  rewrite jobs_CreateRun, store_notify, store_emit. exact Hin.
Qed.

(** C3, as amended: a run that [executeJob] carries out (for a job that is
    in the store and passes validation) ends with the job's last-run
    timestamp set to the run's start time and its next-run timestamp to
    that time plus the job's interval, in the caller's job and in the
    store, whatever the invocation returned and so also when the run ends
    in [waiting]; the tick runs [executeJob] on each due job with the
    tick's time and the goroutine of [RunNow] runs it with the time at
    which it starts.  The completion of an answer resumption does not touch
    the two timestamps: the job keeps those [AnswerQuestion] read from the
    store. *)
Theorem schedule_clock_after_completion :
  forall (s : Scheduler) (job : Job) (now : Time) (uuid : string)
         (endNow : Time),
    (validateJob job = None -> jobExists (store s) (job_ID job) ->
       let done := executeJob s job now uuid endNow in
       job_LastRun (snd done) = Format now RFC3339 /\
       job_NextRun (snd done) =
         Format (Add now (intervalDuration (job_IntervalValue job)
                                           (job_IntervalUnit job))) RFC3339 /\
       clockRefreshed (snd done) /\
       GetJob (store (fst done)) (job_ID job) = (snd done, None)) /\
    (forall (env : TickEnv) (i : nat) (rest : list Job),
       cancelled env i = false -> isDue job now = true ->
       tickLoop env s now i (job :: rest) =
       tickLoop env (fst (executeJob s job now (uuidAt env i) (endAt env i)))
                now (S i) rest) /\
    (forall (s0 s1 : Scheduler) (jobID : string) (task : Task),
       RunNow s0 jobID = (None, s1, Some task) ->
       task = RunTask (fst (GetJob (store s0) jobID)) /\
       runTask s task now uuid endNow =
         executeJob s (fst (GetJob (store s0) jobID)) now uuid endNow) /\
    (forall (s0 s1 : Scheduler) (jobID answer : string) (task : Task),
       AnswerQuestion s0 jobID answer = (None, s1, Some task) ->
       let job0 := fst (GetJob (store s0) jobID) in
       let job' := snd (runTask s task now uuid endNow) in
       job_LastRun job' = job_LastRun job0 /\
       job_NextRun job' = job_NextRun job0).
Proof.
  intros s job now uuid endNow. split; [| split; [| split]].
  - intros Hv Hex done. subst done.
    rewrite executeJob_runs by assumption. cbn [fst snd].
    set (s2 := beforeInvocation s job now uuid).
    set (run := fst (fst (CreateRun _ _ _))).
    set (ex := execFn s2 _ _).
    pose proof (finishExecution_effect s2 (timedJob job now) run (fst ex)
                  (snd ex) endNow) as Hfin.
    cbv zeta in Hfin.
    destruct Hfin as (_ & _ & _ & _ & Hfields & Hstore).
    destruct Hfields as (_ & _ & _ & Hiv & Hiu & _ & _ & Hnext & Hlast).
    assert (HL : job_LastRun (snd (fst (finishExecution s2 (timedJob job now) run
                                           (fst ex) (snd ex) endNow)))
                 = Format now RFC3339) by (rewrite Hlast; reflexivity).
    assert (HN : job_NextRun (snd (fst (finishExecution s2 (timedJob job now) run
                                           (fst ex) (snd ex) endNow)))
                 = Format (Add now (intervalDuration (job_IntervalValue job)
                                                     (job_IntervalUnit job)))
                          RFC3339) by (rewrite Hnext; reflexivity).
    split; [exact HL |]. split; [exact HN |]. split.
    + exists now. rewrite HL, HN, Hiv, Hiu. split; reflexivity.
    + assert (Hv' : validateJob (timedJob job now) = None) by exact Hv.
      assert (Hex' : jobExists (store s2) (job_ID (timedJob job now)))
        by (change (jobExists (store s2) (job_ID job));
            apply jobExists_beforeInvocation; exact Hex).
      exact (Hstore Hv' Hex').
  - intros env i rest Hc Hd. simpl. rewrite Hc, Hd. reflexivity.
  - intros s0 s1 jobID task. unfold RunNow.
    destruct (GetJob (store s0) jobID) as [j [e|]]; [discriminate |].
    destruct (job_Status j =? "running")%string; [discriminate |].
    intros [= <- <-]. split; reflexivity.
  - intros s0 s1 jobID answer task. unfold AnswerQuestion.
    destruct (GetJob (store s0) jobID) as [j [e|]]; [discriminate |].
    destruct (negb (job_Status j =? "waiting")%string); [discriminate |].
    destruct (UpdateJob (store s0) _) as [[j1 [e|]] st]; [discriminate |].
    destruct (GetLatestRun _ jobID) as [run e].
    destruct (negb (run_ID run =? "")%string).
    + destruct (UpdateRun _ _) as [e1 st1].
      intros [= <- <-]. cbn [fst]. unfold runTask.
      destruct (answerFn s _ _ answer) as [result execErr].
      match goal with |- context [finishExecution ?a ?b ?c ?d ?e ?f] =>
        pose proof (finishExecution_effect a b c d e f) as Hfin;
        destruct (finishExecution a b c d e f) as [[s3 job3] run3] end.
      cbv zeta in Hfin. cbn [fst snd] in *.
      destruct Hfin as (_ & _ & _ & _ & Hfields & _).
      destruct Hfields as (_ & _ & _ & _ & _ & _ & _ & Hnext & Hlast).
      rewrite Hnext, Hlast. split; reflexivity.
    + intros [= <- <-]. cbn [fst]. unfold runTask.
      destruct (answerFn s _ _ answer) as [result execErr].
      match goal with |- context [finishExecution ?a ?b ?c ?d ?e ?f] =>
        pose proof (finishExecution_effect a b c d e f) as Hfin;
        destruct (finishExecution a b c d e f) as [[s3 job3] run3] end.
      cbv zeta in Hfin. cbn [fst snd] in *.
      destruct Hfin as (_ & _ & _ & _ & Hfields & _).
      destruct Hfields as (_ & _ & _ & _ & _ & _ & _ & Hnext & Hlast).
      rewrite Hnext, Hlast. split; reflexivity.
Qed.

End Clock.

End ClockFacts.

(* ===================================================================== *)
(** * Properties of the scheduler: answers and manual runs *)
(* ===================================================================== *)

Module TriggerFacts.
Import GoStrings GoTime Db Executor Scheduler Claims RunFacts ClockFacts Scenarios.

Lemma refFormat_not_empty (t : Time) (layout : string) :
  RefLib.refFormat t layout <> "".
Proof.
  unfold RefLib.refFormat.
  destruct (RefLib.civilFromDays _) as [[y mo] d].
  unfold RefLib.fourDigits. simpl. discriminate.
Qed.

(** C3, as stated, fails on an answer resumption: the job created as
    [waiting] is answered, the resumption completes with [success], and the
    job's last-run timestamp is still empty, so no start time was written
    to it. *)
Lemma answer_resumption_does_not_refresh :
  exists (s1 : Scheduler) (task : Task),
    AnswerQuestion waitingSched "job-1" "yes" = (None, s1, Some task) /\
    job_Status (snd (runTask (TL := RefLib.refTime) (JL := noJson)
                             s1 task tenPast "run-1" tenPast)) = "success" /\
    job_LastRun (snd (runTask (TL := RefLib.refTime) (JL := noJson)
                              s1 task tenPast "run-1" tenPast)) = "" /\
    ~ clockRefreshed (TL := RefLib.refTime)
        (snd (runTask (TL := RefLib.refTime) (JL := noJson)
                      s1 task tenPast "run-1" tenPast)).
Proof.
  eexists. eexists. split; [vm_compute; reflexivity |].
  split; [vm_compute; reflexivity |].
  split; [vm_compute; reflexivity |].
  intros (start & HL & _).
  match type of HL with ?l = _ =>
    assert (E : l = "") by (vm_compute; reflexivity); rewrite E in HL end.
  symmetry in HL. exact (refFormat_not_empty start RFC3339 HL).
Qed.

(** The invariant of the jobs table that the guards rest on: a job that
    waits has passed [validateJob].  It holds of the empty table and is
    kept by everything that writes to the table. *)
Lemma waitingJobsValid_empty : waitingJobsValid emptyStore.
Proof. intros j []. Qed.

Lemma waitingJobsValid_same_jobs (st st' : Store) :
  jobs st' = jobs st -> waitingJobsValid st -> waitingJobsValid st'.
Proof. unfold waitingJobsValid. intros E H. rewrite E. exact H. Qed.

Lemma waitingJobsValid_UpdateJob (st : Store) (j : Job) :
  waitingJobsValid st -> waitingJobsValid (snd (UpdateJob st j)).
Proof.
  intros H. destruct (validateJob j) as [e|] eqn:Hv.
  - rewrite (UpdateJob_invalid _ _ _ Hv). exact H.
  - rewrite (UpdateJob_valid _ _ Hv). cbn [snd].
    intros r Hr Hw. unfold with_jobs in Hr. cbn [jobs] in Hr.
    apply in_map_iff in Hr. destruct Hr as (r0 & Er & Hr0).
    destruct (job_ID r0 =? job_ID j)%string; subst r; [exact Hv |].
    exact (H r0 Hr0 Hw).
Qed.

Lemma waitingJobsValid_CreateJob (st : Store) (j : Job) (uuid : string) :
  waitingJobsValid st -> waitingJobsValid (snd (CreateJob st j uuid)).
Proof.
  intros H. unfold CreateJob.
  destruct (validateJob j) as [e|] eqn:Hv; [exact H |]. cbv zeta.
  match goal with |- context [existsb ?p (jobs st)] =>
    destruct (existsb p (jobs st)) end; [exact H |].
  cbn [snd]. intros r Hr Hw. unfold with_jobs in Hr. cbn [jobs] in Hr.
  apply in_app_or in Hr. destruct Hr as [Hr | [<- | []]]; [exact (H r Hr Hw) |].
  destruct (job_ID j =? "")%string;
    match goal with |- context [(job_Status ?x =? "")%string] =>
      destruct (job_Status x =? "")%string end; exact Hv.
Qed.

Lemma waitingJobsValid_ResetRunningJobs (st : Store) :
  waitingJobsValid st -> waitingJobsValid (snd (ResetRunningJobs st)).
Proof.
  intros H r Hr Hw. cbn [snd ResetRunningJobs] in Hr.
  unfold with_jobs in Hr. cbn [jobs] in Hr.
  apply in_map_iff in Hr. destruct Hr as (r0 & Er & Hr0). subst r.
  destruct (String.eqb_spec (job_Status r0) "running") as [E|E].
  - rewrite (StartupFacts.resetRow_running r0 E) in Hw. discriminate.
  - rewrite (StartupFacts.resetRow_other r0 E) in *. exact (H r0 Hr0 Hw).
Qed.

Section Triggers.
Context `{TL : TimeLib} `{JL : JsonLib}.

Lemma waitingJobsValid_finishExecution (s : Scheduler) (job : Job)
  (run : JobRun) (result : ExecuteResult) (execErr : option string)
  (endNow : Time) :
  waitingJobsValid (store s) ->
  waitingJobsValid
    (store (fst (fst (finishExecution s job run result execErr endNow)))).
Proof.
  intros H.
  destruct (finishExecution_job s job run result execErr endNow) as [_ Hj].
  apply (waitingJobsValid_same_jobs _ _ Hj).
  apply waitingJobsValid_UpdateJob. exact H.
Qed.

Lemma waitingJobsValid_executeJob (s : Scheduler) (job : Job) (now : Time)
  (uuid : string) (endNow : Time) :
  waitingJobsValid (store s) ->
  waitingJobsValid (store (fst (executeJob s job now uuid endNow))).
Proof.
  intros H. unfold executeJob.
  pose proof (waitingJobsValid_UpdateJob (store s) (runningJob job) H) as Hu.
  fold (runningJob job).
  destruct (UpdateJob (store s) (runningJob job)) as [[j [e|]] st];
    [exact H |].
  cbn [snd] in Hu. cbv zeta.
  set (s1 := notify (emit (with_store s st)) (job_Name (runningJob job))
                    "running").
  assert (H1 : waitingJobsValid (store s1)).
  { unfold s1. rewrite store_notify, store_emit. exact Hu. }
  match goal with |- context [CreateRun (store s1) ?r uuid] =>
    pose proof (jobs_CreateRun (store s1) r uuid) as Hc;
    destruct (CreateRun (store s1) r uuid) as [[run e] st2] end.
  cbn [snd] in Hc.
  assert (H2 : waitingJobsValid (store (with_store s1 st2)))
    by exact (waitingJobsValid_same_jobs _ _ Hc H1).
  match goal with |- context [execFn ?a ?b ?c] =>
    destruct (execFn a b c) as [result execErr] end.
  match goal with |- context [finishExecution ?a ?b ?c ?d ?e ?f] =>
    pose proof (waitingJobsValid_finishExecution a b c d e f H2) as H3;
    destruct (finishExecution a b c d e f) as [[s3 job3] run3] end.
  exact H3.
Qed.

Lemma waitingJobsValid_tickLoop (env : TickEnv) (now : Time) (js : list Job) :
  forall (s : Scheduler) (i : nat),
    waitingJobsValid (store s) ->
    waitingJobsValid (store (tickLoop env s now i js)).
Proof.
  induction js as [|job js IH]; intros s i H; cbn [tickLoop]; [exact H |].
  destruct (cancelled env i); [exact H |].
  apply IH. destruct (isDue job now); [| exact H].
  apply waitingJobsValid_executeJob. exact H.
Qed.

Lemma waitingJobsValid_AnswerQuestion (s : Scheduler) (jobID answer : string) :
  waitingJobsValid (store s) ->
  waitingJobsValid (store (snd (fst (AnswerQuestion s jobID answer)))).
Proof.
  intros H. unfold AnswerQuestion.
  destruct (GetJob (store s) jobID) as [job [e|]]; [exact H |].
  destruct (negb (job_Status job =? "waiting")%string); [exact H |].
  cbv zeta.
  match goal with |- context [UpdateJob (store s) ?j] =>
    pose proof (waitingJobsValid_UpdateJob (store s) j H) as Hu;
    destruct (UpdateJob (store s) j) as [[j1 [e1|]] st] end; [exact H |].
  cbn [snd] in Hu. rewrite (store_emit (with_store s st)).
  cbn [store with_store].
  destruct (GetLatestRun st jobID) as [run e2].
  destruct (negb (run_ID run =? "")%string).
  - match goal with |- context [UpdateRun st ?r] =>
      pose proof (jobs_UpdateRun st r) as Hr;
      destruct (UpdateRun st r) as [e3 st3] end.
    cbn [snd] in Hr. cbn [fst snd]. rewrite store_emit.
    cbn [store with_store].
    exact (waitingJobsValid_same_jobs _ _ Hr Hu).
  - cbn [fst snd]. rewrite !store_emit. cbn [store with_store]. exact Hu.
Qed.

Lemma waitingJobsValid_runTask (s : Scheduler) (t : Task) (now : Time)
  (uuid : string) (endNow : Time) :
  waitingJobsValid (store s) ->
  waitingJobsValid (store (fst (runTask s t now uuid endNow))).
Proof.
  intros H. destruct t as [job | job run mcpServers answer]; cbn [runTask].
  - apply waitingJobsValid_executeJob. exact H.
  - destruct (answerFn s job mcpServers answer) as [result execErr].
    match goal with |- context [finishExecution ?a ?b ?c ?d ?e ?f] =>
      pose proof (waitingJobsValid_finishExecution a b c d e f H) as H3;
      destruct (finishExecution a b c d e f) as [[s3 job3] run3] end.
    exact H3.
Qed.

(** C9: on a store in which every waiting job has passed [validateJob]
    (which holds of the empty store and is kept by [CreateJob],
    [UpdateJob], [ResetRunningJobs], [Start], the tick, [AnswerQuestion]
    and the goroutines), for a job that is in the store: [RunNow] returns
    an error exactly when the job's status is [running], the error that
    the job is already running, and otherwise starts a goroutine that runs
    [executeJob] on the job; [AnswerQuestion] returns an error exactly when
    the job's status is not [waiting], the error that the job is not
    waiting for an answer.  Whenever either returns an error the scheduler
    is as it was (no job or run changed, no run created, no event emitted)
    and no goroutine is started. *)
Theorem manual_triggers_guarded :
  forall (s : Scheduler) (jobID answer : string) (job0 : Job),
    waitingJobsValid (store s) ->
    GetJob (store s) jobID = (job0, None) ->
    (fst (fst (RunNow s jobID)) <> None <-> job_Status job0 = "running") /\
    (job_Status job0 = "running" ->
       RunNow s jobID = (Some "job is already running", s, None)) /\
    (job_Status job0 <> "running" ->
       RunNow s jobID = (None, s, Some (RunTask job0))) /\
    (fst (fst (AnswerQuestion s jobID answer)) <> None <->
       job_Status job0 <> "waiting") /\
    (job_Status job0 <> "waiting" ->
       AnswerQuestion s jobID answer =
         (Some "job is not waiting for an answer", s, None)) /\
    (forall e s' t, RunNow s jobID = (Some e, s', t) -> s' = s /\ t = None) /\
    (forall e s' t, AnswerQuestion s jobID answer = (Some e, s', t) ->
       s' = s /\ t = None) /\
    (waitingJobsValid emptyStore /\
     (forall j uuid, waitingJobsValid (snd (CreateJob (store s) j uuid))) /\
     (forall j, waitingJobsValid (snd (UpdateJob (store s) j))) /\
     waitingJobsValid (snd (ResetRunningJobs (store s))) /\
     waitingJobsValid (store (Start s)) /\
     (forall env now, waitingJobsValid (store (tick env s now))) /\
     waitingJobsValid (store (snd (fst (AnswerQuestion s jobID answer)))) /\
     (forall t now uuid endNow,
        waitingJobsValid (store (fst (runTask s t now uuid endNow))))).
Proof.
  intros s jobID answer job0 Hinv Hg.
  pose proof (GetJob_found _ _ _ Hg) as [Hin Hid].
  assert (Hex : jobExists (store s) jobID) by (exists job0; auto).
  assert (Hkept :
     waitingJobsValid emptyStore /\
     (forall j uuid, waitingJobsValid (snd (CreateJob (store s) j uuid))) /\
     (forall j, waitingJobsValid (snd (UpdateJob (store s) j))) /\
     waitingJobsValid (snd (ResetRunningJobs (store s))) /\
     waitingJobsValid (store (Start s)) /\
     (forall env now, waitingJobsValid (store (tick env s now))) /\
     waitingJobsValid (store (snd (fst (AnswerQuestion s jobID answer)))) /\
     (forall t now uuid endNow,
        waitingJobsValid (store (fst (runTask s t now uuid endNow))))).
  { split; [exact waitingJobsValid_empty |].
    split; [intros j uuid; apply waitingJobsValid_CreateJob; exact Hinv |].
    split; [intros j; apply waitingJobsValid_UpdateJob; exact Hinv |].
    split; [apply waitingJobsValid_ResetRunningJobs; exact Hinv |].
    split.
    { rewrite StartupFacts.Start_store.
      exact (waitingJobsValid_ResetRunningJobs (store s) Hinv). }
    split; [intros env now; apply waitingJobsValid_tickLoop; exact Hinv |].
    split; [apply waitingJobsValid_AnswerQuestion; exact Hinv |].
    intros t now uuid endNow. apply waitingJobsValid_runTask. exact Hinv. }
  unfold RunNow, AnswerQuestion. unfold RunNow, AnswerQuestion in Hkept.
  rewrite Hg. rewrite Hg in Hkept.
  split; [| split; [| split; [| split; [| split; [| split; [| split]]]]]].
  - destruct (String.eqb_spec (job_Status job0) "running") as [E|E]; simpl.
    + split; [intros _; exact E | discriminate].
    + split; [intros N; exfalso; apply N; reflexivity | contradiction].
  - intros E. rewrite E, String.eqb_refl. reflexivity.
  - intros N. apply String.eqb_neq in N. rewrite N. reflexivity.
  - destruct (String.eqb_spec (job_Status job0) "waiting") as [E|E]; simpl.
    + set (rj := set_job_PendingQuestion (set_job_Status job0 "running") "").
      assert (Hrv : validateJob rj = None) by exact (Hinv job0 Hin E).
      assert (Hrx : jobExists (store s) (job_ID rj))
        by (rewrite <- Hid in Hex; exact Hex).
      rewrite (UpdateJob_ok (store s) rj Hrv Hrx).
      match goal with |- context [GetLatestRun ?a ?b] =>
        destruct (GetLatestRun a b) as [run e] end.
      destruct (negb (run_ID run =? "")%string).
      * match goal with |- context [UpdateRun ?a ?b] =>
          destruct (UpdateRun a b) as [e1 st1] end.
        simpl. split; [intros N; exfalso; apply N; reflexivity |].
        intros N; contradiction.
      * simpl. split; [intros N; exfalso; apply N; reflexivity |].
        intros N; contradiction.
    + split; [intros _; exact E | discriminate].
  - intros N. apply String.eqb_neq in N. rewrite N. reflexivity.
  - intros e s' t.
    destruct (job_Status job0 =? "running")%string; [| discriminate].
    intros [= _ <- <-]. split; reflexivity.
  - intros e s' t.
    destruct (negb (job_Status job0 =? "waiting")%string).
    + intros [= _ <- <-]. split; reflexivity.
    + destruct (UpdateJob (store s) _) as [[j1 [e1|]] st].
      * intros [= _ <- <-]. split; reflexivity.
      * match goal with |- context [GetLatestRun ?a ?b] =>
          destruct (GetLatestRun a b) as [run e2] end.
        destruct (negb (run_ID run =? "")%string).
        -- match goal with |- context [UpdateRun ?a ?b] =>
             destruct (UpdateRun a b) as [e3 st3] end.
           discriminate.
        -- discriminate.
  - exact Hkept.
Qed.

End Triggers.

(** The theorem at the scheduler whose only job is waiting, with a valid
    interval. *)
Lemma manual_triggers_guarded_waiting :
  waitingJobsValid (store waitingSched) /\
  GetJob (store waitingSched) "job-1" = (set_job_ID askJob "job-1", None) /\
  RunNow waitingSched "job-1" =
    (None, waitingSched, Some (RunTask (set_job_ID askJob "job-1"))) /\
  (fst (fst (AnswerQuestion waitingSched "job-1" "yes")) <> None <->
     job_Status (set_job_ID askJob "job-1") <> "waiting").
Proof.
  assert (Hinv : waitingJobsValid (store waitingSched)).
  { intros j [<- | []] _. reflexivity. }
  assert (Hg : GetJob (store waitingSched) "job-1"
               = (set_job_ID askJob "job-1", None)) by reflexivity.
  pose proof (manual_triggers_guarded (TL := RefLib.refTime) (JL := noJson)
                waitingSched "job-1" "yes" (set_job_ID askJob "job-1")
                Hinv Hg) as (_ & _ & Hrun & Hans & _).
  split; [exact Hinv |]. split; [exact Hg |].
  split; [apply Hrun; discriminate | exact Hans].
Defined.

(** The invariant is needed: were a waiting job with the interval value
    zero planted in the table, [AnswerQuestion] would return the error
    with which [UpdateJob] refuses the job. *)
Lemma answer_rejected_without_invariant :
  ~ waitingJobsValid (store zeroWaitingSched) /\
  GetJob (store zeroWaitingSched) "job-1" = (zeroWaitingJob, None) /\
  job_Status zeroWaitingJob = "waiting" /\
  AnswerQuestion zeroWaitingSched "job-1" "yes" =
    (Some "updating job status: interval value must be greater than 0",
     zeroWaitingSched, None).
Proof.
  split; [| repeat split].
  intros H. specialize (H zeroWaitingJob (or_introl eq_refl) eq_refl).
  discriminate.
Qed.

End TriggerFacts.

(* ===================================================================== *)
(** * Properties of the transcript builder and of question detection *)
(* ===================================================================== *)

Module TranscriptFacts.
Import GoStrings GoStringsFacts GoTime Db Executor Claims.

Lemma extends_refl (tb : transcriptBuilder) : extends tb tb.
Proof. exists "". rewrite append_nil_r. reflexivity. Qed.

Lemma extends_trans (a b c : transcriptBuilder) :
  extends a b -> extends b c -> extends a c.
Proof.
  intros [x Hx] [y Hy]. exists (x ++ y).
  rewrite Hy, Hx, append_assoc. reflexivity.
Qed.

Lemma extends_WriteString (tb : transcriptBuilder) (s : string) :
  extends tb (WriteString tb s).
Proof. exists s. reflexivity. Qed.

Lemma extends_setContent (tb : transcriptBuilder) : extends tb (setContent tb).
Proof. exists "". simpl. rewrite append_nil_r. reflexivity. Qed.

(** Peels the writes of a builder expression down to the state it starts
    from. *)
Ltac peel_writes :=
  first [ apply extends_refl
        | (eapply extends_trans; [| apply extends_WriteString]); peel_writes
        | (eapply extends_trans; [| apply extends_setContent]); peel_writes ].






Lemma writeGenericTool_opens `{JL : JsonLib} (tb : transcriptBuilder)
  (name rawInput : string) :
  exists text,
    buf (writeGenericTool tb name rawInput) = buf tb ++ toolBlockOpen ++ text.
Proof.
  assert (H : extends (WriteString tb toolBlockOpen)
                      (writeGenericTool tb name rawInput)).
  { unfold writeGenericTool. cbv zeta.
    eapply extends_trans; [| apply extends_setContent].
    eapply extends_trans; [| apply extends_WriteString].
    destruct (0 <? len rawInput); peel_writes. }
  destruct H as [text Ht]. exists text.
  rewrite Ht. simpl. apply append_assoc.
Qed.

Lemma append_cancel_l (a x y : string) : a ++ x = a ++ y -> x = y.
Proof.
  induction a as [|c a IH]; simpl; intros H; [exact H |].
  injection H as H. auto.
Qed.

(** A question card and a generic tool block differ from their fifth byte
    on: [<div ] against [<deta]. *)
Lemma card_is_no_tool_block (a x y : string) :
  a ++ questionCardOpen ++ x <> a ++ toolBlockOpen ++ y.
Proof.
  intros H. apply append_cancel_l in H.
  unfold questionCardOpen, toolBlockOpen, styled in H. simpl in H.
  discriminate.
Qed.

Section Questions.
Context `{JL : JsonLib}.

Lemma len_pos_iff (s : string) : (0 <? len s) = negb (s =? "")%string.
Proof.
  destruct s; [reflexivity |].
  unfold len. simpl String.length. simpl.
  apply Z.ltb_lt. lia.
Qed.

Lemma questionOf_tool_use (block : cliContentBlock) :
  blk_Type block = "tool_use" ->
  questionOf (blk_Name block) (blk_Input block) = asksUser block.
Proof.
  intros Ht. unfold questionOf, asksUser. rewrite Ht. simpl.
  destruct (blk_Name block =? "AskUserQuestion")%string; [| reflexivity].
  simpl. rewrite len_pos_iff.
  destruct (String.eqb_spec (blk_Input block) "") as [E|E]; simpl.
  - rewrite E, unmarshalQuestion_empty. reflexivity.
  - destruct (unmarshalQuestion (blk_Input block)) as [qi|]; [| reflexivity].
    destruct (Questions qi); reflexivity.
Qed.

Lemma asksUser_Some (block : cliContentBlock) (qi : questionInput) :
  asksUser block = Some qi ->
  blk_Type block = "tool_use" /\ blk_Name block = "AskUserQuestion" /\
  unmarshalQuestion (blk_Input block) = Some qi /\ Questions qi <> [] /\
  blk_Input block <> "".
Proof.
  unfold asksUser.
  destruct (String.eqb_spec (blk_Type block) "tool_use") as [Et|Et];
    [| discriminate].
  destruct (String.eqb_spec (blk_Name block) "AskUserQuestion") as [En|En];
    [| discriminate].
  simpl. destruct (unmarshalQuestion (blk_Input block)) as [qi'|] eqn:Eu;
    [| discriminate].
  destruct (Questions qi') eqn:Eq; [discriminate |].
  intros [= <-]. repeat split; try assumption.
  - rewrite Eq. discriminate.
  - intros E. rewrite E, unmarshalQuestion_empty in Eu. discriminate.
Qed.

Lemma last_cons_any {A : Type} (x : A) (l : list A) (d d' : A) :
  last (x :: l) d = last (x :: l) d'.
Proof.
  revert x. induction l as [|y l IH]; intros x; [reflexivity |].
  change (last (y :: l) d = last (y :: l) d'). apply IH.
Qed.

Lemma last_app_default {A : Type} (l1 l2 : list A) (d : A) :
  last (l1 ++ l2) d = last l2 (last l1 d).
Proof.
  revert d. induction l1 as [|x l1 IH]; intros d; [reflexivity |].
  destruct l1 as [|y l1].
  - destruct l2 as [|a l2]; [reflexivity |].
    change (last (a :: l2) d = last (a :: l2) x). apply last_cons_any.
  - change (last ((x :: y :: l1) ++ l2) d) with (last ((y :: l1) ++ l2) d).
    rewrite IH. reflexivity.
Qed.

Lemma detectInBlocks_last (blocks : list cliContentBlock) (acc : string) :
  detectInBlocks blocks acc =
  last (askedInMessage (mkMessage "" blocks)) acc.
Proof.
  unfold askedInMessage. simpl. revert acc.
  induction blocks as [|b blocks IH]; intros acc; [reflexivity |].
  simpl detectInBlocks. simpl flat_map.
  destruct (String.eqb_spec (blk_Type b) "tool_use") as [Et|Et].
  - rewrite (questionOf_tool_use b Et).
    destruct (asksUser b) as [qi|]; rewrite IH.
    + rewrite last_app_default. reflexivity.
    + reflexivity.
  - assert (Hn : asksUser b = None).
    { unfold asksUser. apply String.eqb_neq in Et. rewrite Et. reflexivity. }
    rewrite Hn, IH. reflexivity.
Qed.

Lemma detectLoop_last (lines : list string) (acc : string) :
  detectLoop lines acc = last (askedInLines lines) acc.
Proof.
  unfold askedInLines. revert acc.
  induction lines as [|line lines IH]; intros acc; [reflexivity |].
  simpl detectLoop. simpl flat_map.
  destruct (decodeLine line) as [evt|]; [| apply IH].
  destruct (evt_Message evt) as [m|].
  - destruct (evt_Type evt =? "assistant")%string.
    + rewrite IH, last_app_default, detectInBlocks_last. reflexivity.
    + apply IH.
  - destruct (evt_Type evt =? "assistant")%string; apply IH.
Qed.

Lemma askedInLines_not_empty (lines : list string) (raw : string) :
  In raw (askedInLines lines) -> raw <> "".
Proof.
  unfold askedInLines. intros Hin. apply in_flat_map in Hin.
  destruct Hin as (line & _ & Hin).
  destruct (decodeLine line) as [evt|]; [| destruct Hin].
  destruct (evt_Type evt =? "assistant")%string; [| destruct Hin].
  destruct (evt_Message evt) as [m|]; [| destruct Hin].
  unfold askedInMessage in Hin. apply in_flat_map in Hin.
  destruct Hin as (b & _ & Hin).
  destruct (asksUser b) as [qi|] eqn:Ea; [| destruct Hin].
  destruct Hin as [<- | []].
  apply asksUser_Some in Ea. tauto.
Qed.

(** What the writers append does not depend on what is in the builder. *)
Lemma buf_fold {A : Type} (f : transcriptBuilder -> A -> transcriptBuilder)
  (render : A -> string) (l : list A) :
  (forall tb x, buf (f tb x) = buf tb ++ render x) ->
  forall tb, buf (fold_left f l tb) = buf tb ++ joined (map render l).
Proof.
  intros Hf. induction l as [|x l IH]; intros tb; cbn [fold_left map joined fold_right].
  - rewrite append_nil_r. reflexivity.
  - fold (joined (map render l)). rewrite IH, Hf, append_assoc. reflexivity.
Qed.

Lemma buf_writeOption (tb : transcriptBuilder) (opt : questionOption) :
  buf (writeOption tb opt) = buf tb ++ optionEntry opt.
Proof.
  unfold writeOption, optionEntry.
  destruct (opt_Description opt =? "")%string; cbn [negb buf WriteString];
    rewrite !append_assoc; reflexivity.
Qed.

Lemma buf_writeQuestionItem (tb : transcriptBuilder) (q : questionItem) :
  buf (writeQuestionItem tb q) = buf tb ++ itemCard q.
Proof.
  unfold writeQuestionItem, itemCard. cbv zeta. cbn [buf WriteString].
  rewrite (buf_fold writeOption optionEntry (q_Options q) buf_writeOption).
  destruct (q_Header q =? "")%string; cbn [negb buf WriteString];
    rewrite !append_assoc; reflexivity.
Qed.

Lemma buf_writeQuestion (tb : transcriptBuilder) (qi : questionInput) :
  buf (writeQuestion tb qi) = buf tb ++ questionCard qi.
Proof.
  unfold writeQuestion, questionCard. cbn [buf setContent].
  apply (buf_fold writeQuestionItem itemCard). apply buf_writeQuestionItem.
Qed.

Lemma buf_writeText (tb : transcriptBuilder) (text : string) :
  buf (writeText tb text) = buf tb ++ buf (writeText (mkTB "" false) text).
Proof.
  unfold writeText. cbv zeta.
  destruct (TrimSpace text =? "")%string; cbn [buf WriteString setContent].
  - rewrite append_nil_r. reflexivity.
  - rewrite !append_assoc. reflexivity.
Qed.

Lemma buf_writeToolResult (tb : transcriptBuilder) (text : string) :
  buf (writeToolResult tb text) =
  buf tb ++ buf (writeToolResult (mkTB "" false) text).
Proof.
  unfold writeToolResult. cbv zeta.
  destruct (text =? "")%string; cbn [buf WriteString setContent].
  - rewrite append_nil_r. reflexivity.
  - rewrite !append_assoc. reflexivity.
Qed.

Lemma buf_writeGenericTool (tb : transcriptBuilder) (name rawInput : string) :
  buf (writeGenericTool tb name rawInput) =
  buf tb ++ genericToolBlock name rawInput.
Proof.
  unfold genericToolBlock, writeGenericTool. cbv zeta.
  destruct (0 <? len rawInput); cbn [buf WriteString setContent];
    rewrite !append_assoc; reflexivity.
Qed.

Lemma handleBlock_asking (tb : transcriptBuilder) (block : cliContentBlock)
  (qi : questionInput) :
  asksUser block = Some qi -> handleBlock tb block = writeQuestion tb qi.
Proof.
  intros Ha. pose proof (asksUser_Some block qi Ha) as (Ht & _).
  unfold handleBlock. rewrite Ht. simpl. unfold writeToolUse.
  rewrite (questionOf_tool_use block Ht), Ha. reflexivity.
Qed.

Lemma buf_handleBlock (tb : transcriptBuilder) (block : cliContentBlock) :
  buf (handleBlock tb block) = buf tb ++ rendered block.
Proof.
  unfold rendered. destruct (asksUser block) as [qi|] eqn:Ha.
  - rewrite (handleBlock_asking tb block qi Ha). apply buf_writeQuestion.
  - unfold handleBlock.
    destruct (blk_Type block =? "text")%string; [apply buf_writeText |].
    destruct (String.eqb_spec (blk_Type block) "tool_use") as [Et|Et].
    + unfold writeToolUse. rewrite (questionOf_tool_use block Et), Ha.
      rewrite (buf_writeGenericTool tb).
      rewrite (buf_writeGenericTool (mkTB "" false)). reflexivity.
    + destruct (blk_Type block =? "tool_result")%string;
        [apply buf_writeToolResult |].
      cbn [buf]. rewrite append_nil_r. reflexivity.
Qed.

Lemma joined_app (a b : list string) :
  joined (a ++ b)%list = joined a ++ joined b.
Proof.
  unfold joined. induction a as [|x a IH]; cbn [List.app fold_right];
    [reflexivity |].
  rewrite IH, append_assoc. reflexivity.
Qed.

Lemma renderedBlocks_app (a b : list cliContentBlock) :
  renderedBlocks (a ++ b)%list = renderedBlocks a ++ renderedBlocks b.
Proof. unfold renderedBlocks. rewrite map_app. apply joined_app. Qed.

Lemma buf_handleAssistant (tb : transcriptBuilder) (msg : option cliMessage) :
  buf (handleAssistant tb msg) =
  buf tb ++ renderedBlocks match msg with
                           | Some m => msg_Content m
                           | None => []
                           end.
Proof.
  destruct msg as [m|]; cbn [handleAssistant].
  - apply (buf_fold handleBlock rendered). apply buf_handleBlock.
  - unfold renderedBlocks. cbn [map joined fold_right].
    rewrite append_nil_r. reflexivity.
Qed.

(** The loop of [buildTranscript] writes, for the blocks of the assistant
    events in order, what the transcript shows for each. *)
Lemma transcriptLoop_blocks (lines : list string) :
  forall tb r,
    buf (fst (transcriptLoop lines tb r)) =
    buf tb ++ renderedBlocks (assistantBlocks lines).
Proof.
  unfold assistantBlocks, assistantMessages.
  induction lines as [|line lines IH]; intros tb r.
  - cbn [transcriptLoop fst flat_map]. unfold renderedBlocks.
    cbn [map joined fold_right]. rewrite append_nil_r. reflexivity.
  - cbn [transcriptLoop flat_map].
    destruct (decodeLine line) as [evt|]; [| apply IH].
    destruct (evt_Type evt =? "assistant")%string.
    + cbn [List.app flat_map]. rewrite renderedBlocks_app, IH.
      rewrite buf_handleAssistant, append_assoc. reflexivity.
    + destruct (evt_Type evt =? "result")%string; apply IH.
Qed.

Lemma appendResult_appends (tb : transcriptBuilder) (r : string) :
  exists summary, buf (appendResult tb r) = buf tb ++ summary.
Proof.
  assert (H : extends tb (appendResult tb r)).
  { unfold appendResult. destruct (negb (r =? "")%string); [| apply extends_refl].
    cbv zeta. destruct (negb (Contains (build tb) (TrimSpace r)));
      [| apply extends_refl].
    unfold writeSummary. cbv zeta.
    destruct (TrimSpace r =? "")%string; peel_writes. }
  exact H.
Qed.

Lemma questionCard_opens (qi : questionInput) :
  Questions qi <> [] ->
  exists text, questionCard qi = questionCardOpen ++ text.
Proof.
  unfold questionCard. destruct (Questions qi) as [|q qs]; [contradiction |].
  intros _. cbn [map joined fold_right]. unfold itemCard.
  eexists. rewrite !append_assoc. reflexivity.
Qed.

Lemma questionCardOpen_tag :
  exists mid, questionCardOpen = String "<" mid ++ String ">" "".
Proof.
  eexists. unfold questionCardOpen, styled, dq. cbn [append].
  match goal with
  | |- String _ ?s = _ =>
      instantiate (1 := substring 0 (String.length s - 1) s)
  end.
  vm_compute. reflexivity.
Qed.

Lemma question_card_survives (a text b : string) :
  Contains (TrimSpace (a ++ (questionCardOpen ++ text) ++ b))
           questionCardOpen = true.
Proof.
  destruct questionCardOpen_tag as [mid Hm].
  rewrite Hm.
  replace (a ++ ((String "<" mid ++ String ">" "") ++ text) ++ b)
    with (a ++ (String "<" mid ++ String ">" "") ++ (text ++ b))
    by (rewrite !append_assoc; reflexivity).
  destruct (TrimSpace_keeps_tag a mid (text ++ b)) as (a' & b' & Ht).
  rewrite Ht. apply Contains_app.
Qed.

(** C6: for every sequence of lines, the text [buildTranscript] builds is
    made of what the transcript shows for each block of the assistant
    events, in order, followed by the Summary section if there is one,
    and trimmed.  Where a tool-use block named [AskUserQuestion] whose
    input decodes to at least one question stands, that text has the
    block's question card: a highlighted box for each question with its
    header, the question and its options.  The card begins with the
    card's opening tag, so it is not the generic collapsible block of the
    invocation, and trimming leaves it in the transcript returned.
    [DetectQuestion] returns the raw input of the last such invocation
    among the assistant events of the lines, unchanged, and the empty
    string when there is none (and only then). *)
Theorem question_tool_card_and_detection :
  forall (lines : list string),
    let blocks := assistantBlocks lines in
    buf (fst (transcriptLoop lines (mkTB "" false) "")) =
      renderedBlocks blocks /\
    (exists summary,
       buildTranscript lines = TrimSpace (renderedBlocks blocks ++ summary)) /\
    (forall (before after : list cliContentBlock) (block : cliContentBlock)
            (qi : questionInput),
       blocks = (before ++ block :: after)%list ->
       asksUser block = Some qi ->
       renderedBlocks blocks =
         renderedBlocks before ++ questionCard qi ++ renderedBlocks after /\
       (exists text, questionCard qi = questionCardOpen ++ text) /\
       questionCard qi <>
         genericToolBlock (blk_Name block) (blk_Input block) /\
       Contains (buildTranscript lines) questionCardOpen = true) /\
    DetectQuestion lines = last (askedInLines lines) "" /\
    (DetectQuestion lines = "" <-> askedInLines lines = []).
Proof.
  intros lines blocks.
  assert (Hbuf : buf (fst (transcriptLoop lines (mkTB "" false) "")) =
                 renderedBlocks blocks)
    by apply (transcriptLoop_blocks lines (mkTB "" false) "").
  assert (Hbuild : exists summary,
            buildTranscript lines =
            TrimSpace (renderedBlocks blocks ++ summary)).
  { unfold buildTranscript.
    destruct (transcriptLoop lines (mkTB "" false) "") as [tb r].
    cbn [fst] in Hbuf.
    destruct (appendResult_appends tb r) as [summary Hs].
    exists summary. unfold build. rewrite Hs, Hbuf. reflexivity. }
  split; [exact Hbuf |]. split; [exact Hbuild |].
  split; [| split].
  - intros before after block qi Hsplit Ha.
    pose proof (asksUser_Some block qi Ha) as (_ & _ & _ & Hq & _).
    destruct (questionCard_opens qi Hq) as [text Hc].
    assert (Hr : renderedBlocks blocks =
                 renderedBlocks before ++ questionCard qi ++
                 renderedBlocks after).
    { rewrite Hsplit, renderedBlocks_app. unfold renderedBlocks at 2.
      cbn [map joined fold_right]. unfold rendered at 1. rewrite Ha.
      reflexivity. }
    split; [exact Hr |]. split; [exists text; exact Hc |]. split.
    + rewrite Hc. unfold genericToolBlock.
      destruct (writeGenericTool_opens (mkTB "" false) (blk_Name block)
                  (blk_Input block)) as [text' Hg].
      rewrite Hg. cbn [buf].
      apply (card_is_no_tool_block "").
    + destruct Hbuild as [summary Hb]. rewrite Hb, Hr, Hc.
      replace ((renderedBlocks before ++ (questionCardOpen ++ text) ++
                renderedBlocks after) ++ summary)
        with (renderedBlocks before ++ (questionCardOpen ++ text) ++
              (renderedBlocks after ++ summary))
        by (rewrite !append_assoc; reflexivity).
      apply question_card_survives.
  - apply detectLoop_last.
  - unfold DetectQuestion. rewrite detectLoop_last. split.
    + intros Hl. destruct (askedInLines lines) as [|x l] eqn:E; [reflexivity |].
      exfalso.
      assert (Hin : In (last (x :: l) "") (askedInLines lines)).
      { rewrite E. destruct (exists_last (l := x :: l)) as (l' & a & Ea);
          [discriminate |].
        rewrite Ea, last_last. apply in_or_app. right. left. reflexivity. }
      apply askedInLines_not_empty in Hin. contradiction.
    + intros ->. reflexivity.
Qed.

End Questions.

End TranscriptFacts.

(* ===================================================================== *)
(** * Properties of the transcript: the held-back result *)
(* ===================================================================== *)

Module SummaryFacts.
Import GoStrings GoStringsFacts GoTime Db Executor Claims TranscriptFacts.

Lemma summarySection_not_empty (text : string) : summarySection text <> "".
Proof. unfold summarySection, styled. simpl. discriminate. Qed.

Lemma prefix_empty (s : string) : prefix "" s = true.
Proof. destruct s; reflexivity. Qed.

Lemma Contains_empty (s : string) : Contains s "" = true.
Proof. destruct s; simpl; reflexivity. Qed.

Lemma writeSummary_buf (tb : transcriptBuilder) (text : string) :
  TrimSpace text <> "" ->
  buf (writeSummary tb text) = buf tb ++ summarySection (TrimSpace text).
Proof.
  intros Hn. unfold writeSummary.
  apply String.eqb_neq in Hn. rewrite Hn.
  unfold summarySection. simpl buf.
  rewrite !append_assoc. reflexivity.
Qed.

Section Summary.
Context `{JL : JsonLib}.

Lemma transcriptLoop_spec (lines : list string) (tb : transcriptBuilder)
  (r : string) :
  transcriptLoop lines tb r =
  (fold_left handleAssistant (assistantMessages lines) tb,
   last (resultTexts lines) r).
Proof.
  unfold assistantMessages, resultTexts. revert tb r.
  induction lines as [|line lines IH]; intros tb r; [reflexivity |].
  simpl transcriptLoop. simpl flat_map.
  destruct (decodeLine line) as [evt|]; [| apply IH].
  destruct (evt_Type evt =? "assistant")%string.
  - rewrite IH. reflexivity.
  - destruct (evt_Type evt =? "result")%string.
    + rewrite IH, last_app_default. reflexivity.
    + apply IH.
Qed.

(** C5: [buildTranscript] holds back the result text of the last result
    event and builds the transcript from the other events; at the end it
    appends the Summary section with the trimmed result text exactly when
    that text is not empty and the transcript built so far does not
    contain it, and otherwise appends nothing.  So a result whose text the
    transcript already contains gives the transcript without a Summary
    section, and a result with a text it does not contain gives the
    transcript followed by the section. *)
Theorem result_held_back_as_summary :
  forall (lines : list string),
    let body := transcriptBody lines in
    let lastResult := last (resultTexts lines) "" in
    let trimmed := TrimSpace lastResult in
    let summarised :=
      negb (trimmed =? "")%string && negb (Contains (build body) trimmed) in
    transcriptLoop lines (mkTB "" false) "" = (body, lastResult) /\
    buildTranscript lines = build (appendResult body lastResult) /\
    (buf (appendResult body lastResult) = buf body ++ summarySection trimmed
     <-> summarised = true) /\
    (summarised = false -> appendResult body lastResult = body) /\
    (Contains (build body) trimmed = true ->
       buildTranscript lines = build body) /\
    (trimmed <> "" -> Contains (build body) trimmed = false ->
       buildTranscript lines =
         TrimSpace (buf body ++ summarySection trimmed)).
Proof.
  intros lines body lastResult trimmed summarised.
  assert (Hloop : transcriptLoop lines (mkTB "" false) "" = (body, lastResult))
    by apply transcriptLoop_spec.
  assert (Hbuild : buildTranscript lines = build (appendResult body lastResult)).
  { unfold buildTranscript. rewrite Hloop. reflexivity. }
  assert (Hyes : summarised = true ->
            buf (appendResult body lastResult) =
            buf body ++ summarySection trimmed).
  { subst summarised. intros Hs. apply andb_true_iff in Hs.
    destruct Hs as [Hne Hnc]. unfold appendResult.
    assert (Hr : (lastResult =? "")%string = false).
    { destruct (String.eqb_spec lastResult "") as [E|E]; [| reflexivity].
      subst trimmed. rewrite E in Hne. discriminate. }
    rewrite Hr. simpl. fold trimmed. rewrite Hnc.
    apply writeSummary_buf. apply negb_true_iff, String.eqb_neq in Hne.
    exact Hne. }
  assert (Hno : summarised = false -> appendResult body lastResult = body).
  { subst summarised. intros Hs. unfold appendResult.
    destruct (lastResult =? "")%string; [reflexivity |]. simpl. fold trimmed.
    destruct (String.eqb_spec trimmed "") as [E|E]; simpl in Hs.
    - rewrite E, Contains_empty. reflexivity.
    - apply negb_false_iff in Hs. rewrite Hs. reflexivity. }
  split; [exact Hloop |]. split; [exact Hbuild |].
  split; [| split; [exact Hno | split]].
  - split; [| exact Hyes].
    intros Hb. destruct summarised eqn:Es; [reflexivity |].
    rewrite (Hno eq_refl) in Hb. symmetry in Hb.
    apply append_inv_nil in Hb. apply summarySection_not_empty in Hb.
    destruct Hb.
  - intros Hc. rewrite Hbuild, Hno; [reflexivity |].
    subst summarised. rewrite Hc. apply andb_false_r.
  - intros Hne Hc. rewrite Hbuild. unfold build. rewrite Hyes; [reflexivity |].
    subst summarised. rewrite Hc. apply String.eqb_neq in Hne. rewrite Hne.
    reflexivity.
Qed.

End Summary.

End SummaryFacts.

(* ===================================================================== *)
(** * Properties of error extraction *)
(* ===================================================================== *)

Module ErrorFacts.
Import GoStrings GoStringsFacts GoTime Db Executor Claims.

Section Errors.
Context `{JL : JsonLib}.

Lemma firstText_hd (blocks : list cliContentBlock) :
  firstText blocks = hd "" (textsOf (mkMessage "" blocks)).
Proof.
  unfold textsOf. simpl. induction blocks as [|b blocks IH]; [reflexivity |].
  simpl. destruct ((blk_Type b =? "text")%string &&
                   negb (blk_Text b =? "")%string); [reflexivity | exact IH].
Qed.

Lemma textsOf_not_empty (m : cliMessage) (t : string) :
  In t (textsOf m) -> t <> "".
Proof.
  unfold textsOf. intros Hin. apply in_map_iff in Hin.
  destruct Hin as (b & <- & Hb). apply filter_In in Hb.
  destruct Hb as [_ Hb]. apply andb_true_iff in Hb. destruct Hb as [_ Hb].
  apply negb_true_iff, String.eqb_neq in Hb. exact Hb.
Qed.

Lemma firstText_firstn (m : cliMessage) :
  firstn 1 (textsOf m) =
  if (firstText (msg_Content m) =? "")%string then []
  else [firstText (msg_Content m)].
Proof.
  rewrite firstText_hd.
  change (textsOf (mkMessage "" (msg_Content m))) with (textsOf m).
  destruct (textsOf m) as [|t l] eqn:E; [reflexivity |].
  simpl. assert (Ht : t <> "") by (apply (textsOf_not_empty m); rewrite E; left; reflexivity).
  apply String.eqb_neq in Ht. rewrite Ht. reflexivity.
Qed.

Lemma extractLoop_spec (lines : list string) (fallback : string) :
  extractLoop lines fallback =
  match errorResults lines with
  | r :: _ => r
  | [] => if (fallback =? "")%string then hd "" (assistantTexts lines)
          else fallback
  end.
Proof.
  unfold errorResults, assistantTexts. revert fallback.
  induction lines as [|line lines IH]; intros fallback.
  - simpl. destruct (String.eqb_spec fallback ""); congruence.
  - simpl extractLoop. simpl flat_map.
    destruct (decodeLine line) as [evt|]; [| apply IH].
    destruct ((evt_Type evt =? "result")%string && evt_IsError evt &&
              negb (evt_Result evt =? "")%string) eqn:Eerr; [reflexivity |].
    simpl app.
    destruct (evt_Message evt) as [m|]; [| apply IH].
    destruct (String.eqb_spec fallback "") as [Ef|Ef]; cbn [andb].
    + destruct (evt_Type evt =? "assistant")%string.
      * rewrite IH.
        change (match textsOf m with [] => [] | a :: _ => [a] end)
          with (firstn 1 (textsOf m)).
        rewrite firstText_firstn.
        destruct (flat_map _ lines) as [|r l]; [| reflexivity].
        destruct (firstText (msg_Content m) =? "")%string; reflexivity.
      * rewrite IH. subst fallback. reflexivity.
    + rewrite IH. apply String.eqb_neq in Ef. rewrite Ef. reflexivity.
Qed.

(** C8, as amended: [extractError] returns the message of the first result
    event that is flagged as an error and has a non-empty message, wherever
    it is in the lines; when there is none, the text of the first
    non-empty text block of the first assistant event that has one; when
    there is neither, the empty string.  On a failed [cmd.Wait()] a
    non-empty extracted message is, alone, the error of the invocation. *)
Theorem extractError_result_then_assistant :
  forall (lines : list string),
    extractError lines =
      match errorResults lines with
      | r :: _ => r
      | [] => hd "" (assistantTexts lines)
      end /\
    (errorResults lines = [] -> assistantTexts lines = [] ->
       extractError lines = "") /\
    (forall (stderr err : string),
       extractError lines <> "" ->
       classify (Exited lines stderr (Some err)) =
         (zeroResult, Some (extractError lines))).
Proof.
  intros lines.
  assert (H : extractError lines =
              match errorResults lines with
              | r :: _ => r
              | [] => hd "" (assistantTexts lines)
              end).
  { unfold extractError. rewrite extractLoop_spec. reflexivity. }
  split; [exact H |]. split.
  - intros He Ha. rewrite H, He, Ha. reflexivity.
  - intros stderr err Hn. unfold classify.
    apply String.eqb_neq in Hn. rewrite Hn. reflexivity.
Qed.

End Errors.

End ErrorFacts.

(* ===================================================================== *)
(** * Error extraction: an error result without text *)
(* ===================================================================== *)

Module ErrorScenarios.
Import GoStrings GoTime Db Executor RefLib Claims Scenarios ErrorFacts.

(** C8, as stated, fails: the first result event flagged as an error has an
    empty message, which the sentence has [extractError] return at once;
    the code skips that event and returns the assistant's text. *)
Lemma extractError_skips_empty_error_result :
  extractError (JL := errorJson) [errorWithoutText; wentWrong]
    = "Something went wrong" /\
  extractErrorAsClaimed (JL := errorJson) [errorWithoutText; wentWrong] = "" /\
  extractError (JL := errorJson) [errorWithoutText; wentWrong] <>
  extractErrorAsClaimed (JL := errorJson) [errorWithoutText; wentWrong].
Proof.
  split; [vm_compute; reflexivity |].
  split; [vm_compute; reflexivity |].
  vm_compute. discriminate.
Qed.

End ErrorScenarios.

(* ===================================================================== *)
(** * Properties of the process orchestrator *)
(* ===================================================================== *)

Module OrchestratorFacts.
Import GoStrings GoStringsFacts GoTime Db Executor Claims.

Section Sessions.
Context `{JL : JsonLib}.

Lemma buildMCPArgs_world (w : World) (fs : TempFileOutcome)
  (servers : list MCPServer) :
  spawn (snd (buildMCPArgs w fs servers)) = spawn w /\
  invocations (snd (buildMCPArgs w fs servers)) = invocations w.
Proof.
  unfold buildMCPArgs. destruct servers as [|srv servers]; [split; reflexivity |].
  destruct (marshalConfig _) as [data|e]; [| split; reflexivity].
  destruct fs; split; reflexivity.
Qed.

Lemma runClaude_spec (w : World) (args : list string) :
  runClaude w args =
  (fst (classify (spawn w (List.length (invocations w)) args)),
   snd (classify (spawn w (List.length (invocations w)) args)),
   mkWorld (spawn w) (invocations w ++ [args]) (written w) (removed w)).
Proof.
  unfold runClaude. destruct (classify _) as [result err]. reflexivity.
Qed.

Lemma spawn_runCleanup (cleanup : option string) (w : World) :
  spawn (runCleanup cleanup w) = spawn w /\
  invocations (runCleanup cleanup w) = invocations w.
Proof. destruct cleanup; split; reflexivity. Qed.

(** C7: once the MCP arguments are built, [ClaudeExecute] starts the child
    process with the job's prompt and [--resume] with the job's id; when
    that invocation fails with an error that contains [No conversation
    found] it starts one more, with the same prompt and no [--resume], and
    returns what that one gives; in every other case it returns what the
    first gave and starts nothing else.  [ClaudeAnswer] starts exactly one
    child process, with the answer and [--resume] with the job's id, and
    returns what it gives.  When the MCP arguments cannot be built, both
    return that error and start no process. *)
Theorem resume_first_fresh_only_without_conversation :
  forall (w : World) (fs : TempFileOutcome) (job : Job)
         (mcpServers : list MCPServer) (answer : string),
    let built := buildMCPArgs w fs mcpServers in
    let base := allBase mcpServers (fst (fst (fst built))) in
    let resume := (["-p"; job_Prompt job; "--resume"; job_ID job] ++ base)%list in
    let fresh := (["-p"; job_Prompt job] ++ base)%list in
    let reply := (["-p"; answer; "--resume"; job_ID job] ++ base)%list in
    let n := List.length (invocations w) in
    let first := classify (spawn w n resume) in
    let executed := ClaudeExecute w fs job mcpServers in
    let answered := ClaudeAnswer w fs job mcpServers answer in
    match snd (fst built) with
    | Some e =>
        fst executed = (zeroResult, Some ("building MCP config: " ++ e)) /\
        fst answered = (zeroResult, Some ("building MCP config: " ++ e)) /\
        invocations (snd executed) = invocations w /\
        invocations (snd answered) = invocations w
    | None =>
        invocations (snd executed) =
          (invocations w ++
             (if noConversation first then [resume; fresh] else [resume]))%list /\
        fst executed =
          (if noConversation first then classify (spawn w (S n) fresh)
           else first) /\
        invocations (snd answered) = (invocations w ++ [reply])%list /\
        fst answered = classify (spawn w n reply)
    end.
Proof.
  intros w fs job mcpServers answer built base resume fresh reply n first
         executed answered.
  pose proof (buildMCPArgs_world w fs mcpServers) as [Hs Hi].
  fold built in Hs, Hi.
  subst executed answered. unfold ClaudeExecute, ClaudeAnswer.
  fold built. subst base. 
  destruct built as [[[mcpArgs cleanup] [e|]] w1] eqn:Eb; cbn [fst snd] in *.
  - repeat split; exact Hi.
  - cbv beta iota. rewrite (runClaude_spec w1). cbv beta iota.
    rewrite (runClaude_spec w1). cbv beta iota.
    rewrite Hs, Hi. fold n. fold resume. fold fresh. fold reply. fold first.
    unfold noConversation.
    destruct (spawn_runCleanup cleanup
                (mkWorld (spawn w) (invocations w ++ [reply])
                         (written w1) (removed w1))) as [_ Hr].
    destruct (spawn_runCleanup cleanup
                (mkWorld (spawn w) (invocations w ++ [resume])
                         (written w1) (removed w1))) as [_ Hc1].
    destruct (spawn_runCleanup cleanup
                (mkWorld (spawn w) ((invocations w ++ [resume]) ++ [fresh])
                         (written w1) (removed w1))) as [_ Hc2].
    destruct (snd first) as [e|] eqn:Es.
    + destruct (Contains e "No conversation found") eqn:Ec.
      * rewrite runClaude_spec.
        cbn [spawn invocations written removed fst snd].
        rewrite length_app. cbn [List.length].
        replace (Datatypes.length (invocations w) + 1)%nat with (S n)
          by (unfold n; lia).
        rewrite Hc2, Hr. cbn [invocations]. rewrite <- app_assoc.
        rewrite <- !surjective_pairing. repeat split.
      * cbn [fst snd]. rewrite Hc1, Hr. cbn [invocations].
        rewrite <- Es, <- !surjective_pairing. repeat split.
    + cbn [fst snd]. rewrite Hc1, Hr. cbn [invocations].
      rewrite <- !surjective_pairing.
      split; [reflexivity |]. split; [| split; reflexivity].
      rewrite <- Es. symmetry. apply surjective_pairing.
Qed.

End Sessions.

End OrchestratorFacts.

(* ===================================================================== *)
(** * The functions on concrete inputs *)
(* ===================================================================== *)

Module Tests.
Import GoStrings GoTime Db Executor Scheduler RefLib Claims Scenarios.

Example parse_epoch : refParse RFC3339 "1970-01-01T00:00:00Z" = Some 0.
Proof. reflexivity. Qed.

Example parse_2026 :
  refParse RFC3339 "2026-01-31T14:00:00Z" = Some (1769868000 * Second).
Proof. vm_compute. reflexivity. Qed.

Example parse_local :
  refParse "2006-01-02T15:04" "2026-01-31T14:00" = Some (1769868000 * Second).
Proof. vm_compute. reflexivity. Qed.

Example parse_bad : refParse RFC3339 "not-a-date" = None.
Proof. reflexivity. Qed.

Example format_2026 :
  refFormat (1769868000 * Second) RFC3339 = "2026-01-31T14:00:00Z".
Proof. vm_compute. reflexivity. Qed.

Example trim_spaces : TrimSpace ("  a b " ++ LF) = "a b".
Proof. reflexivity. Qed.

Example contains_middle : Contains "say Hello world!" "Hello" = true.
Proof. reflexivity. Qed.

(** The cases of the scheduler's own tests. *)
Example interval_minutes : intervalDuration 5 "minutes" = 5 * Minute.
Proof. reflexivity. Qed.

Example interval_weeks : intervalDuration 1 "weeks" = 7 * 24 * Hour.
Proof. reflexivity. Qed.

Example interval_invalid : intervalDuration 1 "invalid" = 0.
Proof. reflexivity. Qed.

Example due_after_interval : isDue fiveMinuteJob tenPast = true.
Proof. vm_compute. reflexivity. Qed.

Example due_exactly_at_boundary :
  isDue (mkJob "j" "n" "" 10 "minutes" "" true "" "2026-01-01T00:00:00Z"
               "success" "" "") tenPast = true.
Proof. vm_compute. reflexivity. Qed.

Example not_due_before_interval :
  isDue (mkJob "j" "n" "" 1 "hours" "" true "" "2026-01-01T00:05:00Z"
               "success" "" "") tenPast = false.
Proof. vm_compute. reflexivity. Qed.

Example not_due_inactive :
  isDue (mkJob "j" "n" "" 1 "minutes" "" false "" "2026-01-01T00:00:00Z"
               "success" "" "") tenPast = false.
Proof. reflexivity. Qed.

Example not_due_waiting :
  isDue (mkJob "j" "n" "" 1 "minutes" "" true "" "2026-01-01T00:00:00Z"
               "waiting" "" "q") tenPast = false.
Proof. reflexivity. Qed.

Example due_from_start_date :
  isDue (mkJob "j" "n" "2026-01-01T00:05" 1 "minutes" "" true "" ""
               "pending" "" "") tenPast = true.
Proof. vm_compute. reflexivity. Qed.

Example not_due_future_start :
  isDue (mkJob "j" "n" "2026-01-01T01:10" 1 "minutes" "" true "" ""
               "pending" "" "") tenPast = false.
Proof. vm_compute. reflexivity. Qed.

Example not_due_invalid_unit :
  isDue (mkJob "j" "n" "" 1 "fortnights" "" true "" "2026-01-01T00:00:00Z"
               "pending" "" "") tenPast = false.
Proof. reflexivity. Qed.

(** The cases of the executor's own tests. *)
Example transcript_without_summary :
  let got := buildTranscript (JL := testJson)
               [systemLine; assistantTextLine "Hello world";
                resultLine "Hello world"] in
  Contains got "Hello world" = true /\ Contains got "Summary" = false.
Proof. vm_compute. split; reflexivity. Qed.

Example transcript_with_summary :
  let got := buildTranscript (JL := testJson)
               [assistantTextLine "Let me look into that.";
                resultLine "The answer is 42."] in
  Contains got "Let me look into that." = true /\
  Contains got ">Summary</" = true /\
  Contains got "The answer is 42." = true.
Proof. vm_compute. repeat split. Qed.

Example transcript_of_nothing : buildTranscript (JL := testJson) [] = "".
Proof. reflexivity. Qed.

Example transcript_skips_malformed :
  buildTranscript (JL := testJson) ["not json at all"; ""] = "".
Proof. reflexivity. Qed.

Example question_is_a_card :
  let got := buildTranscript (JL := testJson) [systemLine; colourLine] in
  Contains got "Which colour?" = true /\ Contains got "<details" = false.
Proof. vm_compute. split; reflexivity. Qed.

Example question_is_detected :
  DetectQuestion (JL := testJson) [systemLine; colourLine] = colourInput.
Proof. vm_compute. reflexivity. Qed.

Example no_question_detected :
  DetectQuestion (JL := testJson)
    [systemLine; assistantTextLine "Hello world"] = "".
Proof. reflexivity. Qed.

(** A run that ends with a question: the job is left waiting with the
    payload, and its clock is set from the start of the run. *)
Example run_parks_in_waiting :
  let job' := snd (executeJob (TL := refTime) (JL := testJson)
                              fiveMinuteSched fiveMinuteJob tenPast "run-1"
                              tenPast) in
  job_Status job' = "waiting" /\
  job_PendingQuestion job' = colourInput /\
  job_Output job' = "transcript" /\
  job_LastRun job' = "2026-01-01T00:10:00Z" /\
  job_NextRun job' = "2026-01-01T00:15:00Z".
Proof. vm_compute. repeat split. Qed.

(** An output one byte over the cap is stored with exactly the cap's
    length and ends in the marker. *)
Example long_output_is_cut :
  len longOutput = maxOutputBytes + 1 /\
  len (truncateOutput longOutput) = maxOutputBytes /\
  substring (Z.to_nat (maxOutputBytes - 11)) 11 (truncateOutput longOutput)
    = "[truncated]".
Proof. vm_compute. repeat split. Qed.

End Tests.

(* ===================================================================== *)
(** * Properties of [ORDER BY] *)
(* ===================================================================== *)

Module SortFacts.
Import GoStrings Db Coverage.

Section Sorting.
Context {A : Type} (le : A -> A -> bool).

Lemma insert_by_perm (x : A) (l : list A) :
  Permutation (insert_by le x l) (x :: l).
Proof.
  induction l as [|y l IH]; simpl; [reflexivity |].
  destruct (le x y); [reflexivity |].
  rewrite IH. apply perm_swap.
Qed.

Lemma sort_by_perm (l : list A) : Permutation (sort_by le l) l.
Proof.
  unfold sort_by. induction l as [|x l IH]; simpl; [reflexivity |].
  rewrite insert_by_perm. constructor. exact IH.
Qed.

Lemma sort_by_In (x : A) (l : list A) : In x (sort_by le l) <-> In x l.
Proof.
  split; apply Permutation_in; [| symmetry]; apply sort_by_perm.
Qed.


Hypothesis le_total : forall a b, le a b = false -> le b a = true.

Lemma insert_by_ordered (x : A) (l : list A) :
  orderedBy le l = true -> orderedBy le (insert_by le x l) = true.
Proof.
  induction l as [|y l IH]; intros Ho; [reflexivity |].
  simpl insert_by. destruct (le x y) eqn:Exy.
  - change (le x y && orderedBy le (y :: l) = true).
    rewrite Exy, Ho. reflexivity.
  - assert (Hl : orderedBy le l = true).
    { destruct l as [|z l]; [reflexivity |].
      simpl in Ho. apply andb_true_iff in Ho. apply Ho. }
    specialize (IH Hl).
    destruct l as [|z l].
    + simpl. rewrite (le_total _ _ Exy). reflexivity.
    + simpl in Ho. apply andb_true_iff in Ho. destruct Ho as [Hyz _].
      simpl insert_by in *. destruct (le x z).
      * change (le y x && orderedBy le (x :: z :: l) = true).
        rewrite (le_total _ _ Exy), IH. reflexivity.
      * change (le y z && orderedBy le (z :: insert_by le x l) = true).
        rewrite Hyz, IH. reflexivity.
Qed.

Lemma sort_by_ordered (l : list A) : orderedBy le (sort_by le l) = true.
Proof.
  unfold sort_by. induction l as [|x l IH]; [reflexivity |].
  simpl. apply insert_by_ordered. exact IH.
Qed.

Lemma orderedBy_firstn (n : nat) (l : list A) :
  orderedBy le l = true -> orderedBy le (firstn n l) = true.
Proof.
  revert l. induction n as [|n IH]; intros l Ho; [reflexivity |].
  destruct l as [|a l]; [reflexivity |].
  destruct l as [|b l]; [destruct n; reflexivity |].
  simpl in Ho. apply andb_true_iff in Ho. destruct Ho as [Hab Ho].
  specialize (IH (b :: l) Ho).
  destruct n as [|n]; [reflexivity |].
  change (le a b && orderedBy le (firstn (S n) (b :: l)) = true).
  rewrite Hab, IH. reflexivity.
Qed.

End Sorting.

Lemma leb_total_bool (a b : string) :
  String.leb a b = false -> String.leb b a = true.
Proof.
  intros H. destruct (String.leb_total a b) as [E|E]; [congruence | exact E].
Qed.

End SortFacts.

(* ===================================================================== *)
(** * Properties of the jobs table *)
(* ===================================================================== *)

Module JobStoreFacts.
Import GoStrings GoTime Db Executor Scheduler Claims Coverage Scenarios.
Import RunFacts SortFacts.

Lemma validateJob_resetRow (r : Job) : validateJob (resetRow r) = validateJob r.
Proof. unfold resetRow. destruct (job_Status r =? "running")%string; reflexivity. Qed.

Lemma resetRow_idempotent (r : Job) : resetRow (resetRow r) = resetRow r.
Proof. apply StartupFacts.resetRow_other, StartupFacts.resetRow_not_running. Qed.


Lemma CreateJob_cases (s : Store) (j : Job) (uuid : string) :
  let named := if (job_ID j =? "")%string then set_job_ID j uuid else j in
  let j' := if (job_Status named =? "")%string
            then set_job_Status named "pending" else named in
  match validateJob j with
  | Some e => CreateJob s j uuid = (j, Some e, s)
  | None =>
      if existsb (fun r => (job_ID r =? job_ID j')%string) (jobs s)
      then CreateJob s j uuid =
             (j', Some "constraint failed: UNIQUE constraint failed: jobs.id (1555)",
              s)
      else CreateJob s j uuid = (j', None, with_jobs s (jobs s ++ [j']))
  end.
Proof.
  intros named j'. unfold CreateJob.
  destruct (validateJob j); [reflexivity |].
  fold named. fold j'. destruct (existsb _ (jobs s)); reflexivity.
Qed.

Lemma existsb_job_false (s : Store) (id : string) :
  existsb (fun r => (job_ID r =? id)%string) (jobs s) = false <->
  ~ jobExists s id.
Proof.
  unfold jobExists. split.
  - intros He (r & Hin & Hid).
    assert (Ht : existsb (fun r => (job_ID r =? id)%string) (jobs s) = true).
    { apply existsb_exists. exists r. rewrite Hid, String.eqb_refl. auto. }
    congruence.
  - intros Hn. destruct (existsb _ _) eqn:E; [| reflexivity].
    apply existsb_exists in E. destruct E as (r & Hin & Hid).
    apply String.eqb_eq in Hid. exfalso. apply Hn. eauto.
Qed.

Lemma find_app_absent (id : string) (rows : list Job) (j : Job) :
  (forall r, In r rows -> job_ID r <> id) -> job_ID j = id ->
  find (fun r => (job_ID r =? id)%string) (rows ++ [j]) = Some j.
Proof.
  intros Hn Hj. induction rows as [|x rows IH]; simpl.
  - rewrite Hj, String.eqb_refl. reflexivity.
  - assert (Hx : job_ID x <> id) by (apply Hn; left; reflexivity).
    apply String.eqb_neq in Hx. rewrite Hx. apply IH.
    intros r Hr. apply Hn. right. exact Hr.
Qed.

Lemma find_app_other (id : string) (rows : list Job) (j : Job) :
  job_ID j <> id ->
  find (fun r => (job_ID r =? id)%string) (rows ++ [j]) =
  find (fun r => (job_ID r =? id)%string) rows.
Proof.
  intros Hj. induction rows as [|x rows IH]; simpl.
  - apply String.eqb_neq in Hj. rewrite Hj. reflexivity.
  - destruct (job_ID x =? id)%string; [reflexivity | exact IH].
Qed.

Lemma find_map_other (id : string) (j : Job) (rows : list Job) :
  job_ID j <> id ->
  find (fun r => (job_ID r =? id)%string)
       (map (fun r => if (job_ID r =? job_ID j)%string then j else r) rows) =
  find (fun r => (job_ID r =? id)%string) rows.
Proof.
  intros Hj. induction rows as [|x rows IH]; simpl; [reflexivity |].
  destruct (String.eqb_spec (job_ID x) (job_ID j)) as [E|E].
  - assert (Hx : job_ID x <> id) by congruence.
    apply String.eqb_neq in Hj. apply String.eqb_neq in Hx.
    rewrite Hj, Hx. exact IH.
  - destruct (job_ID x =? id)%string; [reflexivity | exact IH].
Qed.

(** X1: [GetJobs] returns every row of the jobs table exactly once, ordered
    by name: each job's name is at or before the name of the job after
    it. *)
Theorem GetJobs_sorted_permutation :
  forall (s : Store),
    Permutation (GetJobs s) (jobs s) /\
    orderedBy byName (GetJobs s) = true.
Proof.
  intros s. unfold GetJobs. split.
  - apply sort_by_perm.
  - apply (sort_by_ordered byName).
    intros a b. unfold byName. apply leb_total_bool.
Qed.

(** X2: the three writers of the jobs table keep every stored job valid:
    when all jobs of the store pass [validateJob], they still do after
    [CreateJob], [UpdateJob] and [ResetRunningJobs], whatever job is
    handed in and whether or not the call succeeds. *)
Theorem writers_keep_jobs_valid :
  forall (s : Store) (j : Job) (uuid : string),
    storeValid s ->
    storeValid (snd (CreateJob s j uuid)) /\
    storeValid (snd (UpdateJob s j)) /\
    storeValid (snd (ResetRunningJobs s)).
Proof.
  intros s j uuid Hs. unfold storeValid in *. split; [| split].
  - pose proof (CreateJob_cases s j uuid) as Hc. cbv zeta in Hc.
    destruct (validateJob j) eqn:Hv; [rewrite Hc; exact Hs |].
    destruct (existsb _ (jobs s)); rewrite Hc; [exact Hs |].
    simpl. apply Forall_app. split; [exact Hs |].
    constructor; [| constructor].
    destruct (job_ID j =? "")%string;
      match goal with |- context [(job_Status ?x =? "")%string] =>
        destruct (job_Status x =? "")%string end; exact Hv.
  - destruct (validateJob j) eqn:Hv.
    + rewrite (UpdateJob_invalid _ _ _ Hv). exact Hs.
    + rewrite (UpdateJob_valid _ _ Hv). simpl.
      apply Forall_forall. intros r Hr. apply in_map_iff in Hr.
      destruct Hr as (r0 & <- & Hin).
      destruct (job_ID r0 =? job_ID j)%string; [exact Hv |].
      rewrite Forall_forall in Hs. apply Hs. exact Hin.
  - simpl. apply Forall_forall. intros r Hr. apply in_map_iff in Hr.
    destruct Hr as (r0 & <- & Hin). rewrite validateJob_resetRow.
    rewrite Forall_forall in Hs. apply Hs. exact Hin.
Qed.

(** The theorem at the store with the one job created as waiting. *)
Lemma writers_keep_jobs_valid_waiting :
  storeValid waitingStore /\
  storeValid (snd (CreateJob waitingStore zeroWaitingJob "job-2")) /\
  storeValid (snd (UpdateJob waitingStore zeroWaitingJob)) /\
  storeValid (snd (ResetRunningJobs waitingStore)).
Proof.
  assert (H : storeValid waitingStore).
  { unfold storeValid. simpl. constructor; [reflexivity | constructor]. }
  split; [exact H |].
  exact (writers_keep_jobs_valid waitingStore zeroWaitingJob "job-2" H).
Defined.

(** X3: a job that [CreateJob] accepts passed validation and its id was
    not taken; it is stored as given, except that an empty id becomes the
    fresh identifier and an empty status becomes [pending]; it is the last
    row of the table, [GetJob] with its id returns it, and [GetJob] with any
    other id returns what it returned before.  The runs are untouched. *)
Theorem CreateJob_then_GetJob :
  forall (s s' : Store) (j j' : Job) (uuid : string),
    CreateJob s j uuid = (j', None, s') ->
    validateJob j = None /\
    job_ID j' = (if (job_ID j =? "")%string then uuid else job_ID j) /\
    job_Status j' =
      (if (job_Status j =? "")%string then "pending" else job_Status j) /\
    set_job_Status (set_job_ID j' (job_ID j)) (job_Status j) = j /\
    ~ jobExists s (job_ID j') /\
    jobs s' = (jobs s ++ [j'])%list /\
    job_runs s' = job_runs s /\
    GetJob s' (job_ID j') = (j', None) /\
    (forall id, id <> job_ID j' -> GetJob s' id = GetJob s id).
Proof.
  intros s s' j j' uuid Hc.
  pose proof (CreateJob_cases s j uuid) as Hcase. cbv zeta in Hcase.
  destruct (validateJob j) eqn:Hv; [rewrite Hcase in Hc; discriminate |].
  destruct (existsb _ (jobs s)) eqn:Hex; rewrite Hcase in Hc; [discriminate |].
  injection Hc as Hj Hs. subst s'. rewrite Hj.
  assert (Hid : job_ID j' =
                (if (job_ID j =? "")%string then uuid else job_ID j)).
  { subst j'. destruct (job_ID j =? "")%string;
      match goal with |- context [(job_Status ?x =? "")%string] =>
        destruct (job_Status x =? "")%string end; reflexivity. }
  assert (Hst : job_Status j' =
                (if (job_Status j =? "")%string then "pending"
                 else job_Status j)).
  { subst j'. destruct (job_ID j =? "")%string; simpl;
      destruct (job_Status j =? "")%string; reflexivity. }
  assert (Hrest : set_job_Status (set_job_ID j' (job_ID j)) (job_Status j) = j).
  { subst j'. destruct j as [i n sd iv iu p a nr lr st o pq].
    simpl. destruct (i =? "")%string; simpl;
      destruct (st =? "")%string; reflexivity. }
  rewrite Hj in Hex. apply existsb_job_false in Hex.
  split; [reflexivity |]. split; [exact Hid |]. split; [exact Hst |].
  split; [exact Hrest |]. split; [exact Hex |].
  split; [reflexivity |]. split; [reflexivity |]. split.
  - unfold GetJob. simpl. rewrite find_app_absent; auto.
    intros r Hr E. apply Hex. exists r. auto.
  - intros id Hne. unfold GetJob. simpl.
    rewrite find_app_other by congruence. reflexivity.
Qed.

(** The theorem at the creation of the waiting job in the empty store. *)
Lemma CreateJob_then_GetJob_ask :
  CreateJob emptyStore askJob "job-1"
    = (set_job_ID askJob "job-1", None, waitingStore) /\
  GetJob waitingStore "job-1" = (set_job_ID askJob "job-1", None).
Proof.
  assert (H : CreateJob emptyStore askJob "job-1"
              = (set_job_ID askJob "job-1", None, waitingStore))
    by reflexivity.
  split; [exact H |].
  exact (proj1 (proj2 (proj2 (proj2 (proj2 (proj2 (proj2 (proj2
           (CreateJob_then_GetJob _ _ _ _ _ H))))))))).
Defined.

(** X4: [UpdateJob] returns an error exactly when the job fails validation
    or no row has its id, and then the store is as it was.  When it
    succeeds, [GetJob] with the job's id returns the job as handed in; in
    every case [GetJob] with another id returns what it returned before,
    and the runs are untouched. *)
Theorem UpdateJob_then_GetJob :
  forall (s : Store) (j : Job),
    let err := snd (fst (UpdateJob s j)) in
    let s' := snd (UpdateJob s j) in
    (err <> None <-> validateJob j <> None \/ ~ jobExists s (job_ID j)) /\
    (err <> None -> s' = s) /\
    (err = None -> GetJob s' (job_ID j) = (j, None)) /\
    (forall id, id <> job_ID j -> GetJob s' id = GetJob s id) /\
    job_runs s' = job_runs s.
Proof.
  intros s j err s'. subst err s'.
  destruct (validateJob j) as [e|] eqn:Hv.
  - rewrite (UpdateJob_invalid _ _ _ Hv). simpl.
    split; [split; [intros _; left; discriminate | discriminate] |].
    split; [reflexivity |]. split; [discriminate |].
    split; reflexivity.
  - pose proof (UpdateJob_error s j) as Herr.
    pose proof (GetJob_after_UpdateJob s j Hv) as Hget.
    rewrite (UpdateJob_valid _ _ Hv) in *. simpl in *.
    destruct (Z.eqb_spec (affected (fun r => (job_ID r =? job_ID j)%string)
                                   (jobs s)) 0) as [E|E].
    + apply affected_job_zero in E.
      split; [split; [intros _; right; exact E | discriminate] |].
      split; [exact Herr |]. split; [discriminate |].
      split; [| reflexivity].
      intros id Hne. unfold GetJob. simpl.
      rewrite find_map_other by congruence. reflexivity.
    + assert (Hex : jobExists s (job_ID j)).
      { destruct (existsb (fun r => (job_ID r =? job_ID j)%string) (jobs s)) eqn:Eb.
        - apply existsb_exists in Eb. destruct Eb as (r & Hin & Hid).
          apply String.eqb_eq in Hid. exists r. auto.
        - apply existsb_job_false in Eb. apply affected_job_zero in Eb.
          contradiction. }
      split; [split; [intros N; exfalso; apply N; reflexivity |] |].
      { intros [N | N]; [exfalso; apply N; reflexivity | contradiction]. }
      split; [intros N; exfalso; apply N; reflexivity |].
      split; [intros _; apply Hget; exact Hex |].
      split; [| reflexivity].
      intros id Hne. unfold GetJob. simpl.
      rewrite find_map_other by congruence. reflexivity.
Qed.

Lemma ResetRunningJobs_again (s : Store) :
  ResetRunningJobs (snd (ResetRunningJobs s)) = (0, snd (ResetRunningJobs s)).
Proof.
  unfold ResetRunningJobs. simpl. f_equal.
  - apply affected_zero. intros r Hr. apply in_map_iff in Hr.
    destruct Hr as (r0 & <- & _). apply String.eqb_neq.
    apply StartupFacts.resetRow_not_running.
  - unfold with_jobs. simpl. f_equal.
    rewrite map_map. apply map_ext. apply resetRow_idempotent.
Qed.

(** X5: [ResetRunningJobs] returns the number of jobs that were running,
    and resetting again finds none and changes nothing. *)
Theorem ResetRunningJobs_counts_once :
  forall (s : Store),
    fst (ResetRunningJobs s) =
      Z.of_nat (List.length (filter isRunning (jobs s))) /\
    ResetRunningJobs (snd (ResetRunningJobs s)) =
      (0, snd (ResetRunningJobs s)).
Proof.
  intros s. split; [reflexivity | apply ResetRunningJobs_again].
Qed.

End JobStoreFacts.

(* ===================================================================== *)
(** * Properties of the runs table *)
(* ===================================================================== *)

Module RunStoreFacts.
Import GoStrings GoStringsFacts GoTime Db Claims Coverage SortFacts DbFacts.

Lemma leb_trans_bool (a b c : string) :
  String.leb a b = true -> String.leb b c = true -> String.leb a c = true.
Proof.
  unfold String.leb. revert b c.
  induction a as [|x a IH]; intros [|y b] [|z c]; simpl;
    try (intros; reflexivity); try (intros; discriminate).
  unfold Ascii.compare.
  destruct (N.compare_spec (N_of_ascii x) (N_of_ascii y)) as [E1|E1|E1];
    destruct (N.compare_spec (N_of_ascii y) (N_of_ascii z)) as [E2|E2|E2];
    destruct (N.compare_spec (N_of_ascii x) (N_of_ascii z)) as [E3|E3|E3];
    try lia; try (intros; reflexivity); try (intros; discriminate).
  apply IH.
Qed.

Section Ordered.
Context {A : Type} (le : A -> A -> bool).
Hypothesis le_trans : forall a b c, le a b = true -> le b c = true -> le a c = true.

Lemma orderedBy_tail (a : A) (l : list A) :
  orderedBy le (a :: l) = true -> orderedBy le l = true.
Proof.
  destruct l as [|b t]; [reflexivity |].
  intros H. change (le a b && orderedBy le (b :: t) = true) in H.
  apply andb_prop in H. apply H.
Qed.

Lemma orderedBy_head_le (l : list A) :
  forall a, orderedBy le (a :: l) = true -> forall b, In b l -> le a b = true.
Proof.
  induction l as [|b t IH]; intros a H c Hc; [destruct Hc |].
  change (le a b && orderedBy le (b :: t) = true) in H.
  apply andb_prop in H. destruct H as [Hab Ht].
  destruct Hc as [<- | Hc]; [exact Hab |].
  apply (le_trans a b c Hab). apply (IH b Ht c Hc).
Qed.

Lemma orderedBy_app_le (l1 l2 : list A) :
  orderedBy le (l1 ++ l2)%list = true ->
  forall a b, In a l1 -> In b l2 -> le a b = true.
Proof.
  induction l1 as [|x l1 IH]; intros H a b Ha Hb; [destruct Ha |].
  destruct Ha as [<- | Ha].
  - apply (orderedBy_head_le (l1 ++ l2)%list x H). apply in_or_app. auto.
  - apply IH; auto. apply (orderedBy_tail x). exact H.
Qed.

End Ordered.

Lemma filter_all {A : Type} (p : A -> bool) (l : list A) :
  (forall x, In x l -> p x = true) -> filter p l = l.
Proof.
  induction l as [|x l IH]; intros H; simpl; [reflexivity |].
  rewrite (H x) by (left; reflexivity). f_equal. apply IH.
  intros y Hy. apply H. right. exact Hy.
Qed.

Lemma filter_none {A : Type} (p : A -> bool) (l : list A) :
  (forall x, In x l -> p x = false) -> filter p l = [].
Proof.
  induction l as [|x l IH]; intros H; simpl; [reflexivity |].
  rewrite (H x) by (left; reflexivity). apply IH.
  intros y Hy. apply H. right. exact Hy.
Qed.

Lemma filter_filter_implies {A : Type} (p q : A -> bool) (l : list A) :
  (forall x, p x = true -> q x = true) ->
  filter p (filter q l) = filter p l.
Proof.
  intros H. induction l as [|x l IH]; simpl; [reflexivity |].
  destruct (p x) eqn:Ep.
  - rewrite (H x Ep). simpl. rewrite Ep, IH. reflexivity.
  - destruct (q x); simpl; [rewrite Ep |]; exact IH.
Qed.

Lemma filter_keeps_ids_unique (keep : JobRun -> bool) (rows : list JobRun) :
  NoDup (map run_ID rows) -> NoDup (map run_ID (filter keep rows)).
Proof.
  intros Hu. induction rows as [|r rows IH]; [constructor |].
  apply NoDup_cons_iff in Hu. destruct Hu as [Hfresh Hu].
  cbn [filter]. destruct (keep r); [| exact (IH Hu)].
  cbn [map]. apply NoDup_cons_iff. split; [| exact (IH Hu)].
  intros Hin. apply Hfresh. apply in_map_iff in Hin.
  destruct Hin as (r' & Hid & Hr'). apply filter_In in Hr'.
  apply in_map_iff. exists r'. tauto.
Qed.

Lemma sort_by_map {A : Type} (le : A -> A -> bool) (g : A -> A) (l : list A) :
  (forall a b, le (g a) (g b) = le a b) ->
  sort_by le (map g l) = map g (sort_by le l).
Proof.
  intros Hg.
  assert (Hi : forall x t, insert_by le (g x) (map g t) = map g (insert_by le x t)).
  { intros x t. induction t as [|y t IH]; simpl; [reflexivity |].
    rewrite Hg. destruct (le x y); simpl; [reflexivity |].
    rewrite IH. reflexivity. }
  unfold sort_by. induction l as [|x l IH]; simpl; [reflexivity |].
  rewrite IH. apply Hi.
Qed.

Lemma filter_map_same {A : Type} (p : A -> bool) (g : A -> A) (l : list A) :
  (forall a, p (g a) = p a) -> filter p (map g l) = map g (filter p l).
Proof.
  intros Hg. induction l as [|x l IH]; simpl; [reflexivity |].
  rewrite Hg. destruct (p x); simpl; rewrite IH; reflexivity.
Qed.

Lemma newestFirst_total (a b : JobRun) :
  newestFirst a b = false -> newestFirst b a = true.
Proof. unfold newestFirst. apply leb_total_bool. Qed.

Lemma newestFirst_trans (a b c : JobRun) :
  newestFirst a b = true -> newestFirst b c = true -> newestFirst a c = true.
Proof.
  unfold newestFirst. intros H1 H2.
  exact (leb_trans_bool _ _ _ H2 H1).
Qed.

Lemma runsNewestFirst_ordered (s : Store) (jobID : string) :
  orderedBy newestFirst (runsNewestFirst s jobID) = true.
Proof. apply (sort_by_ordered newestFirst). exact newestFirst_total. Qed.

Lemma runsNewestFirst_perm (s : Store) (jobID : string) :
  Permutation (runsNewestFirst s jobID) (runsOf s jobID).
Proof. apply sort_by_perm. Qed.

Lemma runsNewestFirst_In (s : Store) (jobID : string) (r : JobRun) :
  In r (runsNewestFirst s jobID) <->
  In r (job_runs s) /\ run_JobID r = jobID.
Proof.
  unfold runsNewestFirst. rewrite sort_by_In, filter_In.
  rewrite String.eqb_eq. reflexivity.
Qed.

Lemma runsOf_In (s : Store) (jobID : string) (r : JobRun) :
  In r (runsOf s jobID) <-> In r (job_runs s) /\ run_JobID r = jobID.
Proof. unfold runsOf. rewrite filter_In, String.eqb_eq. reflexivity. Qed.

Lemma GetRunsForJob_In (s : Store) (jobID : string) (r : JobRun) :
  In r (GetRunsForJob s jobID) -> In r (runsNewestFirst s jobID).
Proof.
  unfold GetRunsForJob. intros H.
  rewrite <- (firstn_skipn (Z.to_nat maxRunsPerJob) (runsNewestFirst s jobID)).
  apply in_or_app. left. exact H.
Qed.

Lemma GetRunsForJob_all (s : Store) (jobID : string) :
  Z.of_nat (List.length (runsOf s jobID)) <= maxRunsPerJob ->
  GetRunsForJob s jobID = runsNewestFirst s jobID.
Proof.
  intros H. unfold GetRunsForJob. apply firstn_all2.
  rewrite (Permutation_length (runsNewestFirst_perm s jobID)). lia.
Qed.

(** X6: [GetRunsForJob] returns at most ten runs, all of them runs of the
    job in the table, newest first; every run of the job it leaves out
    started no later than each run it returns; with at most ten runs of the
    job in the table it returns them all. *)
Theorem GetRunsForJob_newest_ten :
  forall (s : Store) (jobID : string),
    let shown := GetRunsForJob s jobID in
    Z.of_nat (List.length shown) <= maxRunsPerJob /\
    (forall r, In r shown -> In r (job_runs s) /\ run_JobID r = jobID) /\
    orderedBy newestFirst shown = true /\
    (forall r r', In r shown -> In r' (runsOf s jobID) -> ~ In r' shown ->
       String.leb (run_StartedAt r') (run_StartedAt r) = true) /\
    (Z.of_nat (List.length (runsOf s jobID)) <= maxRunsPerJob ->
       Permutation shown (runsOf s jobID)).
Proof.
  intros s jobID shown. subst shown. split; [| split; [| split; [| split]]].
  - unfold GetRunsForJob.
    pose proof (firstn_le_length (Z.to_nat maxRunsPerJob)
                  (runsNewestFirst s jobID)) as Hl.
    unfold maxRunsPerJob in *. lia.
  - intros r Hr. apply runsNewestFirst_In. apply GetRunsForJob_In. exact Hr.
  - unfold GetRunsForJob. apply orderedBy_firstn. apply runsNewestFirst_ordered.
  - intros r r' Hr Hr' Hn.
    pose proof (runsNewestFirst_ordered s jobID) as Ho.
    rewrite <- (firstn_skipn (Z.to_nat maxRunsPerJob)
                  (runsNewestFirst s jobID)) in Ho.
    change (newestFirst r r' = true).
    apply (orderedBy_app_le newestFirst newestFirst_trans _ _ Ho); [exact Hr |].
    apply (Permutation_in _ (Permutation_sym (runsNewestFirst_perm s jobID)))
      in Hr'.
    rewrite <- (firstn_skipn (Z.to_nat maxRunsPerJob)
                  (runsNewestFirst s jobID)) in Hr'.
    apply in_app_or in Hr'. destruct Hr' as [Hr' | Hr']; [| exact Hr'].
    contradiction.
  - intros H. rewrite (GetRunsForJob_all _ _ H). apply runsNewestFirst_perm.
Qed.

(** X7: [GetLatestRun] reports an error exactly when the job has no run in
    the table, and then returns the zero run; otherwise it returns a run of
    the job that started no earlier than any run of the job. *)
Theorem GetLatestRun_is_newest :
  forall (s : Store) (jobID : string),
    let r := fst (GetLatestRun s jobID) in
    let err := snd (GetLatestRun s jobID) in
    (err <> None <-> runsOf s jobID = []) /\
    (err <> None -> r = zeroRun) /\
    (err = None ->
       In r (runsOf s jobID) /\
       (forall r', In r' (runsOf s jobID) ->
          String.leb (run_StartedAt r') (run_StartedAt r) = true)).
Proof.
  intros s jobID r err. subst r err.
  pose proof (runsNewestFirst_perm s jobID) as Hp.
  pose proof (runsNewestFirst_ordered s jobID) as Ho.
  unfold GetLatestRun.
  destruct (runsNewestFirst s jobID) as [|x t] eqn:E; simpl.
  - apply Permutation_nil in Hp.
    split; [split; [intros _; exact Hp | discriminate] |].
    split; [reflexivity | discriminate].
  - split.
    { split; [intros N; exfalso; apply N; reflexivity |].
      intros N. rewrite N in Hp. apply Permutation_sym, Permutation_nil in Hp.
      discriminate. }
    split; [intros N; exfalso; apply N; reflexivity |].
    intros _. split.
    + apply (Permutation_in _ Hp). left. reflexivity.
    + intros r' Hr'. apply (Permutation_in _ (Permutation_sym Hp)) in Hr'.
      destruct Hr' as [<- | Hr'].
      * destruct (String.leb (run_StartedAt x) (run_StartedAt x)) eqn:El;
          [reflexivity |].
        apply leb_total_bool in El as El'. congruence.
      * change (newestFirst x r' = true).
        exact (orderedBy_head_le newestFirst newestFirst_trans t x Ho r' Hr').
Qed.

Lemma keep_ids_bound (s : Store) (jobID : string) :
  (List.length (map run_ID (firstn (Z.to_nat maxRunsPerJob)
                              (runsNewestFirst s jobID))) <= 10)%nat.
Proof.
  rewrite length_map.
  apply (firstn_le_length (Z.to_nat maxRunsPerJob)).
Qed.

Lemma existsb_eqb_In (x : string) (l : list string) :
  existsb (String.eqb x) l = true <-> In x l.
Proof.
  rewrite existsb_exists. split.
  - intros (y & Hy & E). apply String.eqb_eq in E. subst. exact Hy.
  - intros H. exists x. rewrite String.eqb_refl. auto.
Qed.

Lemma with_runs_same (s : Store) : with_runs s (job_runs s) = s.
Proof. destruct s; reflexivity. Qed.

Lemma PruneRuns_at_most_ten (s : Store) (jobID : string) :
  runIdsUnique s ->
  Z.of_nat (List.length (runsOf (snd (PruneRuns s jobID)) jobID))
    <= maxRunsPerJob.
Proof.
  unfold PruneRuns. cbn [fst snd].
  set (keep := map run_ID (firstn (Z.to_nat maxRunsPerJob)
                             (runsNewestFirst s jobID))).
  intros Hu. unfold runsOf. simpl.
  set (kept := filter _ (filter _ (job_runs s))).
  assert (Hnd : NoDup (map run_ID kept)).
  { unfold kept. do 2 apply filter_keeps_ids_unique. exact Hu. }
  assert (Hin : incl (map run_ID kept) keep).
  { intros i Hi. apply in_map_iff in Hi. destruct Hi as (r & <- & Hr).
    unfold kept in Hr. apply filter_In in Hr. destruct Hr as [Hr Hj].
    apply filter_In in Hr. destruct Hr as [_ Hr].
    rewrite Hj in Hr. simpl in Hr. rewrite negb_involutive in Hr.
    apply existsb_eqb_In. exact Hr. }
  pose proof (NoDup_incl_length Hnd Hin) as Hl.
  pose proof (keep_ids_bound s jobID) as Hb. fold keep in Hb.
  rewrite length_map in Hl. unfold maxRunsPerJob. lia.
Qed.

Lemma UpdateRun_keeps_ids (s : Store) (run : JobRun) :
  map run_ID (job_runs (snd (UpdateRun s run))) = map run_ID (job_runs s).
Proof.
  unfold UpdateRun. cbv zeta.
  match goal with |- context [?a =? 0] => destruct (a =? 0) end;
    simpl; rewrite map_map; apply map_ext;
    intros r; simpl; destruct (run_ID r =? run_ID run)%string; reflexivity.
Qed.

Lemma UpdateRun_row (s : Store) (run r : JobRun) :
  In r (job_runs (snd (UpdateRun s run))) ->
  (run_ID r <> run_ID run /\ In r (job_runs s)) \/
  (run_ID r = run_ID run /\
   run_Status r = run_Status run /\
   run_EndedAt r = run_EndedAt run /\
   run_PendingQuestion r = run_PendingQuestion run /\
   run_Output r = truncateOutput (run_Output run)).
Proof.
  rewrite UpdateRun_rows. intros Hin. apply in_map_iff in Hin.
  destruct Hin as (r0 & E & Hin).
  destruct (String.eqb_spec (run_ID r0) (run_ID run)) as [E0|E0]; subst r.
  - right. simpl. auto.
  - left. auto.
Qed.

Lemma unique_row (rows : list JobRun) (a b : JobRun) :
  NoDup (map run_ID rows) -> In a rows -> In b rows ->
  run_ID a = run_ID b -> a = b.
Proof.
  induction rows as [|x rows IH]; intros Hu Ha Hb E; [destruct Ha |].
  apply NoDup_cons_iff in Hu. destruct Hu as [Hfresh Hu].
  destruct Ha as [-> | Ha]; destruct Hb as [-> | Hb].
  - reflexivity.
  - exfalso. apply Hfresh. rewrite E. apply in_map. exact Hb.
  - exfalso. apply Hfresh. rewrite <- E. apply in_map. exact Ha.
  - apply IH; assumption.
Qed.

Lemma PruneRuns_deletes_oldest (s : Store) (jobID : string)
  (kept gone : JobRun) :
  runIdsUnique s ->
  In kept (runsOf (snd (PruneRuns s jobID)) jobID) ->
  In gone (runsOf s jobID) ->
  ~ In gone (job_runs (snd (PruneRuns s jobID))) ->
  String.leb (run_StartedAt gone) (run_StartedAt kept) = true.
Proof.
  unfold PruneRuns. cbn [fst snd].
  set (shown := firstn (Z.to_nat maxRunsPerJob) (runsNewestFirst s jobID)).
  intros Hu Hk Hg Hn.
  pose proof (runsNewestFirst_ordered s jobID) as Ho.
  rewrite <- (firstn_skipn (Z.to_nat maxRunsPerJob)
                (runsNewestFirst s jobID)) in Ho.
  fold shown in Ho.
  assert (Hsub : forall r, In r shown -> In r (job_runs s) /\ run_JobID r = jobID).
  { intros r Hr. apply runsNewestFirst_In.
    rewrite <- (firstn_skipn (Z.to_nat maxRunsPerJob)
                  (runsNewestFirst s jobID)).
    apply in_or_app. left. exact Hr. }
  assert (Hkept : In kept shown).
  { apply runsOf_In in Hk. destruct Hk as [Hk Hj]. simpl in Hk.
    apply filter_In in Hk. destruct Hk as [Hin Hp].
    apply String.eqb_eq in Hj as Hj'. rewrite Hj' in Hp. simpl in Hp.
    rewrite negb_involutive in Hp. apply existsb_eqb_In in Hp.
    apply in_map_iff in Hp. destruct Hp as (r0 & Hid & Hr0).
    destruct (Hsub r0 Hr0) as [Hin0 _].
    rewrite (unique_row (job_runs s) kept r0 Hu Hin Hin0 (eq_sym Hid)).
    exact Hr0. }
  assert (Hgone : In gone (skipn (Z.to_nat maxRunsPerJob)
                             (runsNewestFirst s jobID))).
  { apply runsOf_In in Hg as Hg'. destruct Hg' as [Hin Hj].
    apply (Permutation_in _ (Permutation_sym (runsNewestFirst_perm s jobID)))
      in Hg.
    rewrite <- (firstn_skipn (Z.to_nat maxRunsPerJob)
                  (runsNewestFirst s jobID)) in Hg.
    apply in_app_or in Hg. destruct Hg as [Hg | Hg]; [| exact Hg].
    exfalso. apply Hn. unfold with_runs. cbn [job_runs].
    apply filter_In. split; [exact Hin |].
    assert (Hid : existsb (String.eqb (run_ID gone)) (map run_ID shown) = true)
      by (apply existsb_eqb_In, in_map; exact Hg).
    rewrite Hid.
    destruct (run_JobID gone =? jobID)%string; reflexivity. }
  change (newestFirst kept gone = true).
  exact (orderedBy_app_le newestFirst newestFirst_trans _ _ Ho kept gone
           Hkept Hgone).
Qed.

(** X8: [PruneRuns] reports no error and only deletes runs of the given
    job: the jobs and the runs of every other job are as before and no row
    is added or changed; when run ids are unique at most ten runs of the
    job remain and every run deleted started no later than each run of the
    job that is kept; and with at most ten runs of the job nothing is
    deleted. *)
Theorem PruneRuns_keeps_newest_ten :
  forall (s : Store) (jobID : string),
    let s' := snd (PruneRuns s jobID) in
    fst (PruneRuns s jobID) = None /\
    jobs s' = jobs s /\
    (forall r, In r (job_runs s') -> In r (job_runs s)) /\
    (forall other, other <> jobID -> runsOf s' other = runsOf s other) /\
    (runIdsUnique s ->
       Z.of_nat (List.length (runsOf s' jobID)) <= maxRunsPerJob /\
       forall kept gone,
         In kept (runsOf s' jobID) -> In gone (runsOf s jobID) ->
         ~ In gone (job_runs s') ->
         String.leb (run_StartedAt gone) (run_StartedAt kept) = true) /\
    (Z.of_nat (List.length (runsOf s jobID)) <= maxRunsPerJob -> s' = s).
Proof.
  intros s jobID s'. subst s'. unfold PruneRuns. cbn [fst snd].
  set (keep := map run_ID (firstn (Z.to_nat maxRunsPerJob)
                             (runsNewestFirst s jobID))).
  split; [reflexivity |]. split; [reflexivity |].
  split; [| split; [| split]].
  - intros r Hr. simpl in Hr. apply filter_In in Hr. apply Hr.
  - intros other Hne. unfold runsOf. simpl.
    apply filter_filter_implies. intros r Hr.
    apply String.eqb_eq in Hr.
    assert (E : (run_JobID r =? jobID)%string = false)
      by (apply String.eqb_neq; congruence).
    rewrite E. reflexivity.
  - intros Hu. split; [exact (PruneRuns_at_most_ten s jobID Hu) |].
    intros kept gone. exact (PruneRuns_deletes_oldest s jobID kept gone Hu).
  - intros Hle. rewrite filter_all; [apply with_runs_same |].
    intros r Hr.
    destruct (String.eqb_spec (run_JobID r) jobID) as [E|E]; [| reflexivity].
    simpl. rewrite negb_involutive. apply existsb_eqb_In.
    unfold keep. fold (GetRunsForJob s jobID).
    rewrite (GetRunsForJob_all _ _ Hle).
    apply in_map. apply runsNewestFirst_In. auto.
Qed.

(** X9: the four writers of the runs table keep run ids unique: when no
    two runs of the store share an id, none do after [CreateRun],
    [UpdateRun], [PruneRuns] and [DeleteRunsForJob], whether or not the
    call succeeds. *)
Theorem writers_keep_run_ids_unique :
  forall (s : Store) (run : JobRun) (uuid jobID : string),
    runIdsUnique s ->
    runIdsUnique (snd (CreateRun s run uuid)) /\
    runIdsUnique (snd (UpdateRun s run)) /\
    runIdsUnique (snd (PruneRuns s jobID)) /\
    runIdsUnique (snd (DeleteRunsForJob s jobID)).
Proof.
  intros s run uuid jobID Hu. unfold runIdsUnique in *.
  split; [| split; [| split]].
  - unfold CreateRun. cbv zeta.
    match goal with |- context [existsb ?p (job_runs s)] =>
      destruct (existsb p (job_runs s)) eqn:Ex end; [exact Hu |].
    destruct (negb _); [exact Hu |].
    simpl. rewrite map_app. simpl.
    apply (Permutation_NoDup (Permutation_cons_append _ _)).
    constructor; [| exact Hu].
    intros Hin. apply in_map_iff in Hin. destruct Hin as (r & Hid & Hr).
    assert (Ht : existsb (fun r0 =>
                   (run_ID r0 =?
                    run_ID (if (run_ID run =? "")%string
                            then set_run_ID run uuid else run))%string)
                   (job_runs s) = true).
    { apply existsb_exists. exists r. split; [exact Hr |].
      apply String.eqb_eq. exact Hid. }
    simpl in Ex. congruence.
  - unfold UpdateRun. cbv zeta.
    match goal with |- context [?a =? 0] => destruct (a =? 0) end;
      simpl; rewrite map_map;
      (erewrite map_ext; [exact Hu |]);
      intros r; simpl; destruct (run_ID r =? run_ID run)%string; reflexivity.
  - simpl. apply filter_keeps_ids_unique. exact Hu.
  - simpl. apply filter_keeps_ids_unique. exact Hu.
Qed.

(** The theorem at the store with one run. *)
Lemma writers_keep_run_ids_unique_one_run :
  runIdsUnique oneRunStore /\
  runIdsUnique (snd (CreateRun oneRunStore firstRun "run-2")) /\
  runIdsUnique (snd (UpdateRun oneRunStore firstRun)) /\
  runIdsUnique (snd (PruneRuns oneRunStore "job-1")) /\
  runIdsUnique (snd (DeleteRunsForJob oneRunStore "job-1")).
Proof.
  assert (H : runIdsUnique oneRunStore).
  { unfold runIdsUnique. simpl. constructor; [intros [] | constructor]. }
  split; [exact H |].
  exact (writers_keep_run_ids_unique oneRunStore firstRun "run-2" "job-1" H).
Defined.


Lemma affected_run_zero (id : string) (rows : list JobRun) :
  affected (fun r => (run_ID r =? id)%string) rows = 0 <->
  ~ exists r, In r rows /\ run_ID r = id.
Proof.
  unfold affected. split.
  - intros H (r & Hin & Hid).
    assert (Hf : In r (filter (fun r => (run_ID r =? id)%string) rows)).
    { apply filter_In. split; [exact Hin | apply String.eqb_eq; exact Hid]. }
    destruct (filter _ rows); [destruct Hf | simpl in H; lia].
  - intros H. rewrite filter_none; [reflexivity |].
    intros r Hr. apply String.eqb_neq. intros E. apply H. eauto.
Qed.

Lemma map_id_on {A : Type} (g : A -> A) (l : list A) :
  (forall x, In x l -> g x = x) -> map g l = l.
Proof.
  induction l as [|x l IH]; intros H; simpl; [reflexivity |].
  rewrite (H x) by (left; reflexivity). f_equal. apply IH.
  intros y Hy. apply H. right. exact Hy.
Qed.

(** X10: [UpdateRun] reports an error exactly when no run of the table has
    the run's id, and then the store is as it was.  In every case the jobs
    are untouched; every run keeps its id, its job and its start time, so
    [GetRunsForJob] lists the same run ids in the same order as before;
    runs with another id are unchanged; and each run with the id has the
    status, the end time and the pending question handed in and the output
    cut to the cap. *)
Theorem UpdateRun_rewrites_one_run :
  forall (s : Store) (run : JobRun),
    let err := fst (UpdateRun s run) in
    let s' := snd (UpdateRun s run) in
    (err <> None <->
       ~ exists r, In r (job_runs s) /\ run_ID r = run_ID run) /\
    (err <> None -> s' = s) /\
    jobs s' = jobs s /\
    (forall jobID,
       map run_ID (GetRunsForJob s' jobID) =
       map run_ID (GetRunsForJob s jobID)) /\
    (forall r, run_ID r <> run_ID run ->
       (In r (job_runs s') <-> In r (job_runs s))) /\
    (forall r, In r (job_runs s') -> run_ID r = run_ID run ->
       run_Status r = run_Status run /\
       run_EndedAt r = run_EndedAt run /\
       run_PendingQuestion r = run_PendingQuestion run /\
       run_Output r = truncateOutput (run_Output run)).
Proof.
  intros s run err s'.
  set (g := fun r => if (run_ID r =? run_ID run)%string
                     then updateRunRow
                            (set_run_Output run (truncateOutput (run_Output run))) r
                     else r).
  assert (Hs' : s' = with_runs s (map g (job_runs s))).
  { subst s'. unfold UpdateRun. cbv zeta.
    match goal with |- context [?a =? 0] => destruct (a =? 0) end; reflexivity. }
  assert (Herr : err <> None <->
                 affected (fun r => (run_ID r =? run_ID run)%string)
                          (job_runs s) = 0).
  { subst err. unfold UpdateRun. cbv zeta. simpl.
    match goal with |- context [?a =? 0] =>
      destruct (Z.eqb_spec a 0) as [E|E] end; simpl.
    - split; [intros _; exact E | discriminate].
    - split; [intros N; exfalso; apply N; reflexivity | contradiction]. }
  assert (Hg : forall r, run_ID (g r) = run_ID r /\
                         run_JobID (g r) = run_JobID r /\
                         run_StartedAt (g r) = run_StartedAt r).
  { intros r. unfold g. destruct (run_ID r =? run_ID run)%string;
      repeat split. }
  clearbody s' err. subst s'.
  split; [rewrite Herr; apply affected_run_zero |].
  split; [| split; [reflexivity | split; [| split]]].
  - intros N. apply Herr, affected_run_zero in N.
    rewrite map_id_on; [apply with_runs_same |].
    intros r Hr. unfold g.
    destruct (String.eqb_spec (run_ID r) (run_ID run)) as [E|E];
      [| reflexivity].
    exfalso. apply N. eauto.
  - intros jobID. unfold GetRunsForJob, runsNewestFirst, with_runs.
    cbn [job_runs].
    rewrite filter_map_same by (intros a; destruct (Hg a) as (_ & -> & _);
                                reflexivity).
    rewrite sort_by_map by (intros a b; destruct (Hg a) as (_ & _ & ->);
                            destruct (Hg b) as (_ & _ & ->); reflexivity).
    rewrite firstn_map, map_map. apply map_ext.
    intros a. apply Hg.
  - intros r Hne. simpl. rewrite in_map_iff. split.
    + intros (r0 & E & Hin). unfold g in E.
      destruct (String.eqb_spec (run_ID r0) (run_ID run)) as [E0|E0].
      * subst r. simpl in Hne. congruence.
      * subst r. exact Hin.
    + intros Hin. exists r. split; [| exact Hin]. unfold g.
      apply String.eqb_neq in Hne. rewrite Hne. reflexivity.
  - intros r Hin Hid. simpl in Hin. apply in_map_iff in Hin.
    destruct Hin as (r0 & E & Hin). unfold g in E.
    destruct (String.eqb_spec (run_ID r0) (run_ID run)) as [E0|E0].
    + subst r. repeat split.
    + subst r. contradiction.
Qed.

(** X11: [DeleteRunsForJob] reports no error and leaves the job without
    runs: [GetRunsForJob] returns the empty list and [GetLatestRun] an
    error; the jobs and the runs of every other job are as before. *)
Theorem DeleteRunsForJob_clears_one_job :
  forall (s : Store) (jobID : string),
    let s' := snd (DeleteRunsForJob s jobID) in
    fst (DeleteRunsForJob s jobID) = None /\
    GetRunsForJob s' jobID = [] /\
    snd (GetLatestRun s' jobID) <> None /\
    jobs s' = jobs s /\
    (forall other, other <> jobID ->
       runsOf s' other = runsOf s other /\
       GetRunsForJob s' other = GetRunsForJob s other /\
       GetLatestRun s' other = GetLatestRun s other).
Proof.
  intros s jobID s'. subst s'.
  assert (He : runsNewestFirst (snd (DeleteRunsForJob s jobID)) jobID = []).
  { unfold runsNewestFirst. simpl. rewrite filter_none; [reflexivity |].
    intros r Hr. apply filter_In in Hr. destruct Hr as [_ Hr].
    destruct (run_JobID r =? jobID)%string; [discriminate | reflexivity]. }
  split; [reflexivity |].
  split; [unfold GetRunsForJob; rewrite He; apply firstn_nil |].
  split; [unfold GetLatestRun; rewrite He; discriminate |].
  split; [reflexivity |].
  intros other Hne.
  assert (Ho : runsOf (snd (DeleteRunsForJob s jobID)) other = runsOf s other).
  { unfold runsOf. simpl. apply filter_filter_implies. intros r Hr.
    apply String.eqb_eq in Hr.
    assert (E : (run_JobID r =? jobID)%string = false)
      by (apply String.eqb_neq; congruence).
    rewrite E. reflexivity. }
  split; [exact Ho |].
  assert (Hn : runsNewestFirst (snd (DeleteRunsForJob s jobID)) other =
               runsNewestFirst s other).
  { unfold runsNewestFirst. unfold runsOf in Ho. rewrite Ho. reflexivity. }
  split; [unfold GetRunsForJob | unfold GetLatestRun]; rewrite Hn; reflexivity.
Qed.

(** X12: [truncateOutput] does nothing to a text it has returned: cutting
    an output a second time, as [UpdateRun] does with the output of a run
    that [CreateRun] stored, changes nothing. *)
Theorem truncateOutput_idempotent :
  forall (out : string),
    truncateOutput (truncateOutput out) = truncateOutput out.
Proof.
  intros out. apply truncateOutput_short. apply len_truncateOutput.
Qed.

End RunStoreFacts.

(* ===================================================================== *)
(** * Properties of the scheduler: intervals, ticks, runs, answers *)
(* ===================================================================== *)

Module SchedulerFacts.
Import GoStrings GoStringsFacts GoTime Db Executor Scheduler Claims Scenarios.
Import App Coverage RunFacts ClockFacts JobStoreFacts RunStoreFacts DbFacts.

Lemma wrap64_small (z : Z) : - 2 ^ 63 <= z < 2 ^ 63 -> wrap64 z = z.
Proof. unfold wrap64. intros H. rewrite Z.mod_small; lia. Qed.

(** X13: as long as the product of the value and the unit's nanoseconds
    fits in an [int64], [intervalDuration] is that product, so a positive
    value gives a positive interval. *)
Theorem intervalDuration_without_overflow :
  forall (value : Z) (unit : string) (k : Z),
    unitNanos unit = Some k ->
    - 2 ^ 63 <= value * k < 2 ^ 63 ->
    intervalDuration value unit = value * k /\
    (0 < value -> 0 < intervalDuration value unit).
Proof.
  intros value unit k Hk Hr.
  assert (E : intervalDuration value unit = value * k).
  { unfold unitNanos in Hk. unfold intervalDuration, dmul.
    unfold Hour, Minute, Second, Millisecond, Microsecond, Nanosecond.
    destruct (unit =? "minutes")%string;
      [injection Hk as <-; rewrite wrap64_small by lia; lia |].
    destruct (unit =? "hours")%string;
      [injection Hk as <-; rewrite wrap64_small by lia; lia |].
    destruct (unit =? "days")%string;
      [injection Hk as <-; rewrite (wrap64_small (value * 24)) by lia;
       rewrite wrap64_small by lia; lia |].
    destruct (unit =? "weeks")%string; [| discriminate].
    injection Hk as <-. rewrite (wrap64_small (value * 7)) by lia.
    rewrite (wrap64_small (value * 7 * 24)) by lia.
    rewrite wrap64_small by lia. lia. }
  split; [exact E |].
  intros Hp. rewrite E.
  assert (0 < k).
  { unfold unitNanos in Hk.
    repeat match type of Hk with
           | (if ?c then _ else _) = _ => destruct c
           end; inversion Hk; lia. }
  nia.
Qed.

(** The theorem at five minutes. *)
Lemma intervalDuration_without_overflow_five_minutes :
  intervalDuration 5 "minutes" = 5 * (60 * 1000000000) /\
  (0 < 5 -> 0 < intervalDuration 5 "minutes").
Proof.
  apply (intervalDuration_without_overflow 5 "minutes" (60 * 1000000000)).
  - reflexivity.
  - lia.
Defined.

Section Ticks.
Context `{TL : TimeLib} `{JL : JsonLib}.

Lemma tickLoop_none_due (env : TickEnv) (s : Scheduler) (now : Time)
  (js : list Job) :
  (forall j, In j js -> isDue j now = false) ->
  forall i, tickLoop env s now i js = s.
Proof.
  induction js as [|j js IH]; intros Hn i; simpl; [reflexivity |].
  destruct (cancelled env i); [reflexivity |].
  rewrite (Hn j) by (left; reflexivity).
  apply IH. intros j' Hj'. apply Hn. right. exact Hj'.
Qed.

Lemma tickLoop_skip (env : TickEnv) (s : Scheduler) (now : Time)
  (pre rest : list Job) :
  (forall j, In j pre -> isDue j now = false) ->
  forall i,
    (forall k, (i <= k < i + List.length pre)%nat -> cancelled env k = false) ->
    tickLoop env s now i (pre ++ rest)%list =
    tickLoop env s now (i + List.length pre)%nat rest.
Proof.
  induction pre as [|j pre IH]; intros Hn i Hc; simpl.
  - rewrite Nat.add_0_r. reflexivity.
  - rewrite (Hc i) by (simpl; lia).
    rewrite (Hn j) by (left; reflexivity).
    rewrite IH.
    + f_equal. lia.
    + intros j' Hj'. apply Hn. right. exact Hj'.
    + intros k Hk. apply Hc. simpl. lia.
Qed.

(** X14: a job that is due stays due: when [isDue] holds at one time it
    holds at every later time, as long as the job is not changed. *)
Theorem isDue_stays_due :
  forall (job : Job) (now later : Time),
    isDue job now = true -> now <= later -> isDue job later = true.
Proof.
  intros job now later Hd Hl. unfold isDue in *.
  destruct (negb (job_Active job)); [discriminate |].
  destruct ((job_Status job =? "running")%string ||
            (job_Status job =? "waiting")%string); [discriminate |].
  cbv zeta in *.
  destruct (intervalDuration _ _ =? 0); [discriminate |].
  destruct ((if (job_LastRun job =? "")%string then job_StartDate job
             else job_LastRun job) =? "")%string; [discriminate |].
  destruct (parseTime _) as [refTime|]; [| discriminate].
  unfold After, Add in *.
  apply negb_true_iff, Z.ltb_ge in Hd.
  apply negb_true_iff, Z.ltb_ge. lia.
Qed.

(** X15: a tick changes nothing when the context is cancelled before the
    first job, and nothing when no job of the store is due; when exactly
    one of the jobs it loaded is due and the context is not cancelled up
    to that job, the tick is the run of [executeJob] on that job with the
    tick's time. *)
Theorem tick_runs_only_due_jobs :
  forall (env : TickEnv) (s : Scheduler) (now : Time),
    (cancelled env 0%nat = true -> tick env s now = s) /\
    ((forall j, In j (jobs (store s)) -> isDue j now = false) ->
       tick env s now = s) /\
    (forall pre job post,
       GetJobs (store s) = (pre ++ job :: post)%list ->
       (forall j, In j pre \/ In j post -> isDue j now = false) ->
       isDue job now = true ->
       (forall k, (k <= List.length pre)%nat -> cancelled env k = false) ->
       tick env s now =
       fst (executeJob s job now (uuidAt env (List.length pre))
                       (endAt env (List.length pre)))).
Proof.
  intros env s now. unfold tick. split; [| split].
  - intros Hc. destruct (GetJobs (store s)); simpl; [reflexivity |].
    rewrite Hc. reflexivity.
  - intros Hn. apply tickLoop_none_due. intros j Hj. apply Hn.
    unfold GetJobs in Hj. apply SortFacts.sort_by_In in Hj. exact Hj.
  - intros pre job post Hg Hn Hd Hc. rewrite Hg.
    rewrite tickLoop_skip.
    + simpl. rewrite (Hc (List.length pre)) by lia. rewrite Hd.
      apply tickLoop_none_due. intros j Hj. apply Hn. right. exact Hj.
    + intros j Hj. apply Hn. left. exact Hj.
    + intros k Hk. apply Hc. simpl in Hk. lia.
Qed.

End Ticks.

(** The theorem at a job due at midnight and at ten past. *)
Lemma isDue_stays_due_ten_past :
  isDue (TL := RefLib.refTime) fiveMinuteJob (midnight + 5 * Minute) = true /\
  midnight + 5 * Minute <= tenPast /\
  isDue (TL := RefLib.refTime) fiveMinuteJob tenPast = true.
Proof.
  assert (H1 : isDue (TL := RefLib.refTime) fiveMinuteJob
                 (midnight + 5 * Minute) = true) by (vm_compute; reflexivity).
  assert (H2 : midnight + 5 * Minute <= tenPast) by (vm_compute; discriminate).
  split; [exact H1 |]. split; [exact H2 |].
  exact (isDue_stays_due (TL := RefLib.refTime) fiveMinuteJob
           (midnight + 5 * Minute) tenPast H1 H2).
Defined.

Lemma calls_emit (s : Scheduler) : calls (emit s) = (calls s ++ emitCalls s)%list.
Proof.
  unfold emit, emitCalls. destruct (emitFn s); simpl;
    [reflexivity | rewrite app_nil_r; reflexivity].
Qed.

Lemma calls_notify (s : Scheduler) (n st : string) :
  calls (notify s n st) = (calls s ++ notifyCalls s n st)%list.
Proof.
  unfold notify, notifyCalls. destruct (notifyFn s); simpl;
    [reflexivity | rewrite app_nil_r; reflexivity].
Qed.

Lemma emitFn_emit (s : Scheduler) : emitFn (emit s) = emitFn s.
Proof. unfold emit. destruct (emitFn s) eqn:E; simpl; auto. Qed.

Lemma emitFn_notify (s : Scheduler) (n st : string) :
  emitFn (notify s n st) = emitFn s.
Proof. unfold notify. destruct (notifyFn s) eqn:E; simpl; auto. Qed.

Lemma notifyFn_emit (s : Scheduler) : notifyFn (emit s) = notifyFn s.
Proof. unfold emit. destruct (emitFn s) eqn:E; simpl; auto. Qed.

Lemma notifyFn_notify (s : Scheduler) (n st : string) :
  notifyFn (notify s n st) = notifyFn s.
Proof. unfold notify. destruct (notifyFn s) eqn:E; simpl; auto. Qed.

Lemma job_runs_UpdateJob (st : Store) (j : Job) :
  job_runs (snd (UpdateJob st j)) = job_runs st.
Proof.
  unfold UpdateJob. destruct (validateJob j); [reflexivity |].
  cbv zeta. destruct (_ =? 0); reflexivity.
Qed.

Lemma with_store_same (s : Scheduler) : with_store s (store s) = s.
Proof. destruct s; reflexivity. Qed.

Lemma affected_pos {A : Type} (sel : A -> bool) (rows : list A) :
  (0 <? affected sel rows) = existsb sel rows.
Proof.
  unfold affected. induction rows as [|x rows IH]; [reflexivity |].
  cbn [filter existsb]. destruct (sel x); cbn [orb]; [| exact IH].
  apply Z.ltb_lt. cbn [List.length]. lia.
Qed.

Lemma GetLatestRun_cases (st : Store) (jobID : string) :
  (GetLatestRun st jobID = (zeroRun, Some "sql: no rows in result set") /\
   runsOf st jobID = []) \/
  (exists r, GetLatestRun st jobID = (r, None) /\ In r (runsOf st jobID)).
Proof.
  pose proof (runsNewestFirst_perm st jobID) as Hp.
  unfold GetLatestRun. destruct (runsNewestFirst st jobID) as [|x t].
  - left. split; [reflexivity |]. apply Permutation_nil. exact Hp.
  - right. exists x. split; [reflexivity |].
    apply (Permutation_in _ Hp). left. reflexivity.
Qed.

Section Runs.
Context `{TL : TimeLib} `{JL : JsonLib}.

(** The run record as [finishExecution] rewrites it. *)
Lemma finishExecution_parts (s : Scheduler) (job : Job) (run : JobRun)
  (result : ExecuteResult) (execErr : option string) (endNow : Time) :
  let job' := finishedJob job result execErr in
  let st1 := snd (UpdateJob (store s) job') in
  let run1 :=
    set_run_PendingQuestion
      (set_run_Output (set_run_Status run (job_Status job')) (job_Output job'))
      (job_PendingQuestion job') in
  let run2 := if negb (job_Status job' =? "waiting")%string
              then set_run_EndedAt run1 (Format endNow RFC3339) else run1 in
  let s1 := with_store s st1 in
  let s2 := if negb (run_ID run =? "")%string
            then with_store s1 (snd (PruneRuns (snd (UpdateRun st1 run2))
                                               (job_ID job')))
            else s1 in
  finishExecution s job run result execErr endNow =
    (notify (emit s2) (job_Name job') (job_Status job'), job',
     if negb (run_ID run =? "")%string then run2 else run).
Proof.
  cbv zeta. unfold finishExecution.
  destruct (UpdateJob (store s) (finishedJob job result execErr))
    as [[j e] st] eqn:EU. cbn [snd fst].
  destruct (negb (run_ID run =? "")%string); [| reflexivity].
  cbn [store with_store].
  match goal with |- context [UpdateRun st ?r] =>
    destruct (UpdateRun st r) as [e1 st1] eqn:ER end.
  cbn [snd fst]. reflexivity.
Qed.

Lemma job_Name_finishedJob (job : Job) (result : ExecuteResult)
  (execErr : option string) :
  job_Name (finishedJob job result execErr) = job_Name job.
Proof.
  unfold finishedJob. destruct execErr; [reflexivity |].
  destruct (negb _); reflexivity.
Qed.

Lemma finishedJob_status (job : Job) (result : ExecuteResult)
  (execErr : option string) :
  In (job_Status (finishedJob job result execErr))
     ["success"; "failed"; "waiting"].
Proof.
  unfold finishedJob. destruct execErr; [simpl; auto |].
  destruct (negb _); simpl; auto.
Qed.

Lemma finishExecution_calls (s : Scheduler) (job : Job) (run : JobRun)
  (result : ExecuteResult) (execErr : option string) (endNow : Time) :
  calls (fst (fst (finishExecution s job run result execErr endNow))) =
  (calls s ++ emitCalls s ++
   notifyCalls s (job_Name job)
               (job_Status (finishedJob job result execErr)))%list.
Proof.
  rewrite finishExecution_parts. cbn [fst snd].
  rewrite job_Name_finishedJob.
  rewrite calls_notify, calls_emit, <- app_assoc.
  destruct (negb (run_ID run =? "")%string); unfold emitCalls, notifyCalls, emit;
    simpl; destruct (emitFn s); reflexivity.
Qed.

(** X16: when the store refuses to mark the job as running, because the
    job fails validation or is not in the jobs table, [executeJob] stops
    there: the scheduler is as it was (no run is created, nothing is
    emitted or notified) and only the caller's copy of the job is marked
    running. *)
Theorem executeJob_stops_when_not_marked :
  forall (s : Scheduler) (job : Job) (now : Time) (uuid : string)
         (endNow : Time),
    validateJob job <> None \/ ~ jobExists (store s) (job_ID job) ->
    executeJob s job now uuid endNow = (s, runningJob job).
Proof.
  intros s job now uuid endNow H. unfold executeJob.
  fold (runningJob job).
  destruct (validateJob job) as [e|] eqn:Hv.
  - rewrite (UpdateJob_invalid (store s) (runningJob job) e) by exact Hv.
    reflexivity.
  - destruct H as [H | H]; [contradiction |].
    rewrite (UpdateJob_valid (store s) (runningJob job)) by exact Hv.
    change (job_ID (runningJob job)) with (job_ID job).
    apply affected_job_zero in H. rewrite H. reflexivity.
Qed.

(** X17: a run that [executeJob] carries out (for a job that is in the
    store and passes validation) makes exactly these calls, in this order:
    the update event and the notification of [running], then, after the
    invocation, the update event and the notification of the final status,
    which is one of [success], [failed] and [waiting]; each of the two
    callbacks is called only when it is set.  For each status notified,
    [sendNotification] sends a notification when it has a notifier. *)
Theorem executeJob_announces_start_and_end :
  forall (s : Scheduler) (job : Job) (now : Time) (uuid : string)
         (endNow : Time),
    validateJob job = None -> jobExists (store s) (job_ID job) ->
    let done := executeJob s job now uuid endNow in
    let status' := job_Status (snd done) in
    calls (fst done) =
      (calls s ++ emitCalls s ++ notifyCalls s (job_Name job) "running" ++
       emitCalls s ++ notifyCalls s (job_Name job) status')%list /\
    In status' ["success"; "failed"; "waiting"] /\
    (forall st, In st ["running"; status'] ->
       sendNotification true (job_Name job) st <> None).
Proof.
  intros s job now uuid endNow Hv Hex done status'.
  subst status' done.
  pose proof (executeJob_runs s job now uuid endNow Hv Hex) as He.
  cbv zeta in He. rewrite He. cbn [fst snd]. clear He.
  set (s2 := beforeInvocation s job now uuid).
  match goal with |- context [finishExecution s2 ?j ?r ?res ?err endNow] =>
    set (run := r); set (res0 := res); set (err0 := err) end.
  pose proof (finishExecution_job s2 (timedJob job now) run res0 err0 endNow)
    as [Hj _].
  rewrite Hj, finishExecution_calls.
  assert (Hst : In (job_Status (finishedJob (timedJob job now) res0 err0))
                   ["success"; "failed"; "waiting"])
    by apply finishedJob_status.
  split; [| split; [exact Hst |]].
  - assert (Hc : calls s2 = (calls s ++ emitCalls s ++
                             notifyCalls s (job_Name job) "running")%list).
    { unfold s2, beforeInvocation. cbn [calls with_store].
      rewrite calls_notify, calls_emit, <- app_assoc.
      unfold notifyCalls, emitCalls.
      rewrite notifyFn_emit. reflexivity. }
    assert (He : emitCalls s2 = emitCalls s).
    { unfold emitCalls, s2, beforeInvocation. cbn [emitFn with_store].
      rewrite emitFn_notify, emitFn_emit. reflexivity. }
    assert (Hn : forall n st, notifyCalls s2 n st = notifyCalls s n st).
    { intros n st. unfold notifyCalls, s2, beforeInvocation.
      cbn [notifyFn with_store].
      rewrite notifyFn_notify, notifyFn_emit. reflexivity. }
    rewrite Hc, He, Hn.
    change (job_Name (timedJob job now)) with (job_Name job).
    rewrite <- !app_assoc. reflexivity.
  - intros st Hin.
    assert (Hk : In st ["running"; "success"; "failed"; "waiting"]).
    { destruct Hin as [<- | [<- | []]]; [left; reflexivity | right; exact Hst]. }
    simpl in Hk.
    destruct Hk as [<- | [<- | [<- | [<- | []]]]]; discriminate.
Qed.

End Runs.

(** The theorems at the waiting job with the interval value zero, which
    fails validation, and at the job that ran at midnight. *)
Lemma executeJob_stops_when_not_marked_zero_interval :
  executeJob (TL := RefLib.refTime) (JL := noJson) zeroWaitingSched
             zeroWaitingJob tenPast "run-1" tenPast
  = (zeroWaitingSched, runningJob zeroWaitingJob).
Proof.
  apply (executeJob_stops_when_not_marked (TL := RefLib.refTime)
           (JL := noJson)).
  left. discriminate.
Defined.

Lemma executeJob_announces_start_and_end_five_minutes :
  calls (fst (executeJob (TL := RefLib.refTime) (JL := testJson)
                fiveMinuteSched fiveMinuteJob tenPast "run-1" tenPast)) =
    [Emit "jobs:updated"; Notify "five" "running";
     Emit "jobs:updated"; Notify "five" "waiting"] /\
  job_Status (snd (executeJob (TL := RefLib.refTime) (JL := testJson)
                     fiveMinuteSched fiveMinuteJob tenPast "run-1" tenPast))
    = "waiting".
Proof.
  assert (Hv : validateJob fiveMinuteJob = None) by reflexivity.
  assert (Hex : jobExists (store fiveMinuteSched) (job_ID fiveMinuteJob)).
  { exists fiveMinuteJob. split; [left |]; reflexivity. }
  pose proof (executeJob_announces_start_and_end (TL := RefLib.refTime)
                (JL := testJson) fiveMinuteSched fiveMinuteJob tenPast
                "run-1" tenPast Hv Hex) as [Hc _].
  assert (Hs : job_Status (snd (executeJob (TL := RefLib.refTime)
                 (JL := testJson) fiveMinuteSched fiveMinuteJob tenPast
                 "run-1" tenPast)) = "waiting") by (vm_compute; reflexivity).
  split; [| exact Hs].
  rewrite Hc, Hs. reflexivity.
Defined.

Section Completions.
Context `{TL : TimeLib} `{JL : JsonLib}.

(** X18: [finishExecution] keeps the run record in step with the job.
    Without a run id the record and the runs table are left alone.  With
    one, the caller's record takes the job's final status, output and
    pending question and is closed with the current time unless the job is
    waiting; every stored run with that id has that status, end time and
    pending question and the output cut to the cap; stored runs with
    another id were in the table before, unchanged; and when run ids are
    unique at most ten runs of the job remain. *)
Theorem finishExecution_run_follows_job :
  forall (s : Scheduler) (job : Job) (run : JobRun) (result : ExecuteResult)
         (execErr : option string) (endNow : Time),
    let done := finishExecution s job run result execErr endNow in
    let s' := fst (fst done) in
    let job' := snd (fst done) in
    let run' := snd done in
    (run_ID run = "" ->
       run' = run /\ job_runs (store s') = job_runs (store s)) /\
    (run_ID run <> "" ->
       run' = mkJobRun (run_ID run) (run_JobID run) (run_StartedAt run)
                (if (job_Status job' =? "waiting")%string
                 then run_EndedAt run else Format endNow RFC3339)
                (job_Status job') (job_Output job')
                (job_PendingQuestion job') /\
       (forall r, In r (job_runs (store s')) -> run_ID r = run_ID run ->
          run_Status r = job_Status job' /\
          run_EndedAt r = run_EndedAt run' /\
          run_PendingQuestion r = job_PendingQuestion job' /\
          run_Output r = truncateOutput (job_Output job')) /\
       (forall r, In r (job_runs (store s')) -> run_ID r <> run_ID run ->
          In r (job_runs (store s))) /\
       (runIdsUnique (store s) ->
          Z.of_nat (List.length (runsOf (store s') (job_ID job)))
            <= maxRunsPerJob)).
Proof.
  intros s job run result execErr endNow done s' job' run'.
  subst s' job' run' done.
  rewrite finishExecution_parts. cbn [fst snd].
  rewrite store_notify, store_emit.
  set (job' := finishedJob job result execErr).
  set (st1 := snd (UpdateJob (store s) job')).
  assert (Hr1 : job_runs st1 = job_runs (store s))
    by apply job_runs_UpdateJob.
  split.
  - intros E. rewrite E. simpl. split; [reflexivity | exact Hr1].
  - intros E. apply String.eqb_neq in E. rewrite E. cbn [negb].
    cbn [store with_store].
    match goal with |- context [UpdateRun st1 ?r] => set (run2 := r) end.
    assert (Hrun2 : run2 =
              mkJobRun (run_ID run) (run_JobID run) (run_StartedAt run)
                (if (job_Status job' =? "waiting")%string
                 then run_EndedAt run else Format endNow RFC3339)
                (job_Status job') (job_Output job')
                (job_PendingQuestion job')).
    { unfold run2. destruct (job_Status job' =? "waiting")%string; reflexivity. }
    assert (Hid2 : run_ID run2 = run_ID run) by (rewrite Hrun2; reflexivity).
    split; [exact Hrun2 |]. split; [| split].
    + intros r Hin Hid. simpl in Hin. apply filter_In in Hin.
      destruct Hin as [Hin _].
      apply UpdateRun_row in Hin. rewrite Hid2 in Hin.
      destruct Hin as [[N _] | (_ & H1 & H2 & H3 & H4)]; [contradiction |].
      rewrite H1, H2, H3, H4, Hrun2. simpl. auto.
    + intros r Hin Hid. simpl in Hin. apply filter_In in Hin.
      destruct Hin as [Hin _].
      apply UpdateRun_row in Hin. rewrite Hid2 in Hin.
      destruct Hin as [[_ Hin] | (N & _)]; [| contradiction].
      rewrite <- Hr1. exact Hin.
    + intros Hu.
      replace (job_ID job) with (job_ID job')
        by apply job_ID_finishedJob.
      apply PruneRuns_at_most_ten. unfold runIdsUnique in *.
      rewrite UpdateRun_keeps_ids, Hr1. exact Hu.
Qed.

(** X19: the goroutine of [AnswerQuestion] leaves the job with the error
    of the invocation as its output and the status [failed], or, when the
    invocation succeeded, with the question found in the new lines (then
    the job waits again, otherwise it succeeded) and, as its output, the
    new transcript after the output of the run so far and an empty line;
    without a run id the output is the new transcript alone. *)
Theorem answer_output_continues_run :
  forall (s : Scheduler) (job : Job) (run : JobRun)
         (mcpServers : list MCPServer) (answer : string)
         (now : Time) (uuid : string) (endNow : Time),
    let reply := answerFn s job mcpServers answer in
    let job' :=
      snd (runTask s (AnswerTask job run mcpServers answer) now uuid endNow) in
    (forall e, snd reply = Some e ->
       job_Status job' = "failed" /\ job_Output job' = e /\
       job_PendingQuestion job' = "") /\
    (snd reply = None ->
       job_Output job' =
         (if (run_ID run =? "")%string then Transcript (fst reply)
          else run_Output run ++ LF ++ LF ++ Transcript (fst reply)) /\
       job_PendingQuestion job' = DetectQuestion (RawLines (fst reply)) /\
       job_Status job' =
         (if (DetectQuestion (RawLines (fst reply)) =? "")%string
          then "success" else "waiting")).
Proof.
  intros s job run mcpServers answer now uuid endNow reply job'.
  subst job'. unfold runTask. fold reply.
  destruct reply as [result execErr]. cbn [fst snd].
  match goal with |- context [finishExecution s job run ?res execErr endNow] =>
    set (res0 := res) end.
  pose proof (finishExecution_job s job run res0 execErr endNow) as [Hj _].
  destruct (finishExecution s job run res0 execErr endNow) as [[s3 job3] run3].
  cbn [fst snd] in *. subst job3.
  split.
  - intros e ->. simpl. auto.
  - intros ->. unfold finishedJob.
    assert (Hraw : RawLines res0 = RawLines result).
    { unfold res0. destruct (negb (run_ID run =? "")%string && true);
        reflexivity. }
    assert (Htr : Transcript res0 =
                  if (run_ID run =? "")%string then Transcript result
                  else run_Output run ++ LF ++ LF ++ Transcript result).
    { unfold res0. destruct (run_ID run =? "")%string; reflexivity. }
    rewrite Hraw, Htr.
    destruct (String.eqb_spec (DetectQuestion (RawLines result)) "") as [E|E];
      simpl; auto.
Qed.

End Completions.

(** X20: [Start], up to the start of the loop, emits the update event
    exactly when a job was running (and the callback is set), once however
    many were, and makes no other call; applied to its own result it
    changes nothing, since no job is left running. *)
Theorem Start_emits_once_for_stale_jobs :
  forall (s : Scheduler),
    calls (Start s) =
      (calls s ++ (if existsb isRunning (jobs (store s))
                   then emitCalls s else []))%list /\
    Start (Start s) = Start s.
Proof.
  intros s. split.
  - unfold Start. cbn [ResetRunningJobs].
    unfold ResetRunningJobs. rewrite affected_pos.
    change (fun r => (job_Status r =? "running")%string) with isRunning.
    destruct (existsb isRunning (jobs (store s))).
    + rewrite calls_emit. reflexivity.
    + simpl. rewrite app_nil_r. reflexivity.
  - assert (Hst : store (Start s) = snd (ResetRunningJobs (store s))).
    { unfold Start, ResetRunningJobs.
      destruct (0 <? _); [rewrite store_emit |]; reflexivity. }
    unfold Start at 1. rewrite Hst, ResetRunningJobs_again.
    rewrite <- Hst. simpl. apply with_store_same.
Qed.

(** X21: for a job id that is not in the jobs table [RunNow] and
    [AnswerQuestion] return the error of [GetJob]; the scheduler is as it
    was and no goroutine is started. *)
Theorem manual_triggers_on_missing_job :
  forall (s : Scheduler) (jobID answer : string),
    ~ jobExists (store s) jobID ->
    RunNow s jobID = (Some "sql: no rows in result set", s, None) /\
    AnswerQuestion s jobID answer =
      (Some "sql: no rows in result set", s, None).
Proof.
  intros s jobID answer Hn.
  assert (Hg : GetJob (store s) jobID =
               (zeroJob, Some "sql: no rows in result set")).
  { unfold GetJob. destruct (find _ _) as [j|] eqn:E; [| reflexivity].
    apply find_some in E. destruct E as [Hin Hid].
    apply String.eqb_eq in Hid. exfalso. apply Hn. exists j. auto. }
  unfold RunNow, AnswerQuestion. rewrite Hg. split; reflexivity.
Qed.

(** The theorem at a job id the store with the waiting job does not
    have. *)
Lemma manual_triggers_on_missing_job_nine :
  RunNow waitingSched "job-9"
    = (Some "sql: no rows in result set", waitingSched, None) /\
  AnswerQuestion waitingSched "job-9" "Red"
    = (Some "sql: no rows in result set", waitingSched, None).
Proof.
  apply (manual_triggers_on_missing_job waitingSched "job-9" "Red").
  intros (r & Hin & Hid). simpl in Hin.
  destruct Hin as [<- | []]. discriminate.
Defined.

Lemma mcp_UpdateRun (st : Store) (run : JobRun) (jobID : string) :
  GetMCPServersForJob (snd (UpdateRun st run)) jobID =
  GetMCPServersForJob st jobID.
Proof.
  unfold UpdateRun. cbv zeta. destruct (_ =? 0); reflexivity.
Qed.

(** X22: [AnswerQuestion] on a waiting job that passes validation returns
    no error and records the transition before the goroutine starts: the
    stored job is the job read, with the status [running] and the pending
    question cleared; the other jobs are as before; the update event is
    emitted twice; no run is created or deleted.  The goroutine captures
    that job, the answer, the job's servers and the latest run: the zero
    run when the job has none, otherwise a run of the job that, when it
    has an id, is marked [running] with its pending question cleared, as
    is every stored run with that id. *)
Theorem AnswerQuestion_marks_job_running :
  forall (s : Scheduler) (jobID answer : string) (job0 : Job),
    GetJob (store s) jobID = (job0, None) ->
    job_Status job0 = "waiting" ->
    validateJob job0 = None ->
    let job' := set_job_PendingQuestion (set_job_Status job0 "running") "" in
    let out := AnswerQuestion s jobID answer in
    let s' := snd (fst out) in
    fst (fst out) = None /\
    GetJob (store s') jobID = (job', None) /\
    (forall id, id <> jobID -> GetJob (store s') id = GetJob (store s) id) /\
    calls s' = (calls s ++ emitCalls s ++ emitCalls s)%list /\
    map run_ID (job_runs (store s')) = map run_ID (job_runs (store s)) /\
    exists run,
      snd out = Some (AnswerTask job' run
                        (GetMCPServersForJob (store s) jobID) answer) /\
      (runsOf (store s) jobID = [] ->
         run = zeroRun /\ job_runs (store s') = job_runs (store s)) /\
      (run_ID run <> "" ->
         run_JobID run = jobID /\ run_Status run = "running" /\
         run_PendingQuestion run = "" /\
         forall r, In r (job_runs (store s')) -> run_ID r = run_ID run ->
           run_Status r = "running" /\ run_PendingQuestion r = "").
Proof.
  intros s jobID answer job0 Hg Hw Hv job' out s'. subst s' out.
  pose proof (GetJob_found _ _ _ Hg) as [Hin Hid].
  assert (Hv' : validateJob job' = None) by exact Hv.
  assert (Hid' : job_ID job' = jobID) by exact Hid.
  assert (Hex : jobExists (store s) (job_ID job'))
    by (exists job0; auto).
  pose proof (GetJob_after_UpdateJob (store s) job' Hv' Hex) as Hget.
  pose proof (job_runs_UpdateJob (store s) job') as Hruns.
  unfold AnswerQuestion. rewrite Hg, Hw, String.eqb_refl. cbn [negb].
  fold job'.
  rewrite (UpdateJob_ok (store s) job' Hv' Hex) in *.
  cbn [snd] in Hget, Hruns.
  set (st1 := with_jobs (store s) _) in *.
  rewrite store_emit. cbn [store with_store].
  assert (Hframe : forall id, id <> jobID -> GetJob st1 id = GetJob (store s) id).
  { intros id Hne. unfold GetJob, st1, with_jobs. cbn [jobs].
    rewrite (find_map_other id job') by congruence. reflexivity. }
  assert (Hc1 : calls (emit (with_store s st1)) = (calls s ++ emitCalls s)%list).
  { rewrite calls_emit. unfold emitCalls. reflexivity. }
  assert (He1 : emitFn (emit (with_store s st1)) = emitFn s).
  { rewrite emitFn_emit. reflexivity. }
  assert (Hrun1 : runsOf st1 jobID = runsOf (store s) jobID).
  { unfold runsOf. rewrite Hruns. reflexivity. }
  destruct (GetLatestRun_cases st1 jobID) as [[Hl Hnone] | (r0 & Hl & Hr0)];
    rewrite Hl.
  - cbn [run_ID zeroRun String.eqb negb]. cbv iota.
    cbn [fst snd]. rewrite ?store_emit. cbn [store with_store]. rewrite ?store_emit. cbn [store with_store].
    rewrite Hid' in Hget.
    split; [reflexivity |]. split; [exact Hget |].
    split; [exact Hframe |].
    split.
    { rewrite calls_emit, Hc1, <- app_assoc. unfold emitCalls.
      rewrite He1. reflexivity. }
    split; [rewrite Hruns; reflexivity |].
    exists zeroRun. split; [reflexivity |].
    split; [intros _; split; [reflexivity | exact Hruns] |].
    intros N. exfalso. apply N. reflexivity.
  - destruct (String.eqb_spec (run_ID r0) "") as [E|E]; cbn [negb]; cbv iota.
    + cbn [fst snd]. rewrite ?store_emit. cbn [store with_store]. rewrite ?store_emit. cbn [store with_store].
      rewrite Hid' in Hget.
      split; [reflexivity |]. split; [exact Hget |].
      split; [exact Hframe |].
      split.
      { rewrite calls_emit, Hc1, <- app_assoc. unfold emitCalls.
        rewrite He1. reflexivity. }
      split; [rewrite Hruns; reflexivity |].
      exists r0. split; [reflexivity |].
      split.
      * intros N. rewrite Hrun1, N in Hr0. destruct Hr0.
      * intros N. contradiction.
    + rewrite ?store_emit. cbn [store with_store].
      set (run1 := set_run_PendingQuestion (set_run_Status r0 "running") "").
      destruct (UpdateRun st1 run1) as [e2 st2] eqn:EU.
      assert (Hst2 : st2 = snd (UpdateRun st1 run1)) by (rewrite EU; reflexivity).
      cbn [fst snd]. rewrite ?store_emit. cbn [store with_store]. rewrite ?store_emit. cbn [store with_store].
      assert (Hj2 : jobs st2 = jobs st1)
        by (rewrite Hst2; apply jobs_UpdateRun).
      split; [reflexivity |].
      split.
      { rewrite (GetJob_same_jobs st1 st2 _ Hj2), <- Hid'. exact Hget. }
      split.
      { intros id Hne. rewrite (GetJob_same_jobs st1 st2 _ Hj2).
        apply Hframe. exact Hne. }
      split.
      { rewrite calls_emit. cbn [calls with_store].
        rewrite Hc1, <- app_assoc. unfold emitCalls. cbn [emitFn with_store].
        rewrite He1. reflexivity. }
      split.
      { rewrite Hst2, UpdateRun_keeps_ids, Hruns. reflexivity. }
      exists run1. split.
      { rewrite Hst2, mcp_UpdateRun. reflexivity. }
      split.
      * intros N. rewrite Hrun1, N in Hr0. destruct Hr0.
      * intros _. apply runsOf_In in Hr0. destruct Hr0 as [_ Hjob].
        split; [exact Hjob |]. split; [reflexivity |].
        split; [reflexivity |].
        intros r Hr Hrid. rewrite Hst2 in Hr.
        apply UpdateRun_row in Hr.
        destruct Hr as [[N _] | (_ & H1 & _ & H3 & _)]; [contradiction |].
        rewrite H1, H3. split; reflexivity.
Qed.

(** The theorem at the store with the waiting job. *)
Lemma AnswerQuestion_marks_job_running_ask :
  fst (fst (AnswerQuestion waitingSched "job-1" "Red")) = None /\
  GetJob (store (snd (fst (AnswerQuestion waitingSched "job-1" "Red"))))
         "job-1"
    = (set_job_PendingQuestion
         (set_job_Status (set_job_ID askJob "job-1") "running") "", None).
Proof.
  assert (Hg : GetJob (store waitingSched) "job-1"
               = (set_job_ID askJob "job-1", None)) by reflexivity.
  pose proof (AnswerQuestion_marks_job_running waitingSched "job-1" "Red"
                (set_job_ID askJob "job-1") Hg eq_refl eq_refl) as H.
  split; [exact (proj1 H) | exact (proj1 (proj2 H))].
Defined.

End SchedulerFacts.

(* ===================================================================== *)
(** * Properties of the executor: lines, replies, temporary files *)
(* ===================================================================== *)

Module ExecutorFacts.
Import GoStrings GoStringsFacts GoTime Db Executor Scheduler Claims Scenarios.
Import Coverage OrchestratorFacts.

Section Lines.
Context `{JL : JsonLib}.

Lemma transcriptLoop_decoded (lines : list string) :
  forall tb lastResult,
    transcriptLoop (filter decodes lines) tb lastResult =
    transcriptLoop lines tb lastResult.
Proof.
  induction lines as [|line rest IH]; intros tb lastResult; [reflexivity |].
  cbn [filter transcriptLoop]. unfold decodes at 1.
  destruct (decodeLine line) as [evt|] eqn:E; [| apply IH].
  cbn [transcriptLoop]. rewrite E.
  destruct (evt_Type evt =? "assistant")%string; [apply IH |].
  destruct (evt_Type evt =? "result")%string; apply IH.
Qed.

Lemma detectLoop_decoded (lines : list string) :
  forall lastQuestion,
    detectLoop (filter decodes lines) lastQuestion =
    detectLoop lines lastQuestion.
Proof.
  induction lines as [|line rest IH]; intros lastQuestion; [reflexivity |].
  cbn [filter detectLoop]. unfold decodes at 1.
  destruct (decodeLine line) as [evt|] eqn:E; [| apply IH].
  cbn [detectLoop]. rewrite E.
  destruct (evt_Message evt); [| apply IH].
  destruct (evt_Type evt =? "assistant")%string; apply IH.
Qed.

Lemma extractLoop_decoded (lines : list string) :
  forall fallback,
    extractLoop (filter decodes lines) fallback =
    extractLoop lines fallback.
Proof.
  induction lines as [|line rest IH]; intros fallback; [reflexivity |].
  cbn [filter extractLoop]. unfold decodes at 1.
  destruct (decodeLine line) as [evt|] eqn:E; [| apply IH].
  cbn [extractLoop]. rewrite E.
  destruct ((evt_Type evt =? "result")%string && evt_IsError evt &&
            negb (evt_Result evt =? "")%string); [reflexivity |].
  destruct (evt_Message evt); [| apply IH].
  destruct ((fallback =? "")%string && (evt_Type evt =? "assistant")%string);
    apply IH.
Qed.

(** X23: lines that are blank or that do not decode to an event never
    matter: the transcript, the question detected and the error extracted
    are those of the lines that decode. *)
Theorem undecodable_lines_are_skipped :
  forall (lines : list string),
    buildTranscript (filter decodes lines) = buildTranscript lines /\
    DetectQuestion (filter decodes lines) = DetectQuestion lines /\
    extractError (filter decodes lines) = extractError lines.
Proof.
  intros lines. split; [| split].
  - unfold buildTranscript. rewrite transcriptLoop_decoded. reflexivity.
  - apply detectLoop_decoded.
  - apply extractLoop_decoded.
Qed.


Lemma classify_sound (out : ProcOutcome) : soundReply (classify out).
Proof.
  unfold soundReply.
  destruct out as [e | e | lines stderr [err|]]; simpl.
  - split; [reflexivity | discriminate].
  - split; [reflexivity | discriminate].
  - destruct (String.eqb_spec (extractError lines) "") as [E|E]; simpl.
    + split; [reflexivity | discriminate].
    + split; [reflexivity | exact E].
  - destruct (String.eqb_spec (buildTranscript lines) "") as [E|E]; simpl.
    + destruct (String.eqb_spec (Join lines LF) "") as [E'|E']; simpl.
      * split; [reflexivity | discriminate].
      * exact E'.
    + exact E.
Qed.

Lemma runClaude_sound (w : World) (args : list string) :
  soundReply (fst (runClaude w args)).
Proof.
  rewrite runClaude_spec. cbn [fst]. rewrite <- surjective_pairing.
  apply classify_sound.
Qed.

Lemma runClaude_files (w : World) (args : list string) :
  written (snd (runClaude w args)) = written w /\
  removed (snd (runClaude w args)) = removed w.
Proof. rewrite runClaude_spec. split; reflexivity. Qed.

(** X24: what the executor hands to the scheduler is either an error that
    says something, together with the zero result, or a result whose
    transcript is not empty.  It holds of every outcome of the child
    process, where a success is an exit without error whose result carries
    the lines read and, as the transcript, the transcript built from them
    or, when that is empty, the lines themselves; and it holds of
    [ClaudeExecute] and of [ClaudeAnswer].  The job that [finishExecution]
    makes of such a reply has an output that is not empty. *)
Theorem replies_are_transcript_or_error :
  forall (out : ProcOutcome) (w : World) (fs : TempFileOutcome) (job : Job)
         (mcpServers : list MCPServer) (answer : string),
    soundReply (classify out) /\
    (snd (classify out) = None ->
       exists lines stderr,
         out = Exited lines stderr None /\
         RawLines (fst (classify out)) = lines /\
         Transcript (fst (classify out)) =
           (if (buildTranscript lines =? "")%string then Join lines LF
            else buildTranscript lines)) /\
    soundReply (fst (ClaudeExecute w fs job mcpServers)) /\
    soundReply (fst (ClaudeAnswer w fs job mcpServers answer)) /\
    (forall reply, soundReply reply ->
       job_Output (finishedJob job (fst reply) (snd reply)) <> "").
Proof.
  intros out w fs job mcpServers answer.
  split; [apply classify_sound |]. split; [| split; [| split]].
  - destruct out as [e | e | lines stderr [err|]]; simpl;
      try discriminate.
    + destruct (negb (extractError lines =? "")%string); discriminate.
    + intros Hs. exists lines, stderr. split; [reflexivity |].
      destruct (buildTranscript lines =? "")%string; [| split; reflexivity].
      destruct (Join lines LF =? "")%string; [discriminate |].
      split; reflexivity.
  - unfold ClaudeExecute.
    destruct (buildMCPArgs w fs mcpServers) as [[[mcpArgs cleanup] [e|]] w1].
    + unfold soundReply. simpl. split; [reflexivity | discriminate].
    + cbv zeta.
      match goal with |- context [runClaude w1 ?a] =>
        pose proof (runClaude_sound w1 a) as H1;
        destruct (runClaude w1 a) as [[r1 e1] w2] end.
      cbn [fst] in H1. destruct e1 as [e1|]; [| exact H1].
      destruct (Contains e1 "No conversation found"); [| exact H1].
      match goal with |- context [runClaude w2 ?a] =>
        pose proof (runClaude_sound w2 a) as H2;
        destruct (runClaude w2 a) as [[r2 e2] w3] end.
      exact H2.
  - unfold ClaudeAnswer.
    destruct (buildMCPArgs w fs mcpServers) as [[[mcpArgs cleanup] [e|]] w1].
    + unfold soundReply. simpl. split; [reflexivity | discriminate].
    + cbv zeta.
      match goal with |- context [runClaude w1 ?a] =>
        pose proof (runClaude_sound w1 a) as H1;
        destruct (runClaude w1 a) as [[r1 e1] w2] end.
      exact H1.
  - intros [result [e|]]; unfold soundReply, finishedJob; cbn [fst snd].
    + intros [_ He]. exact He.
    + intros Ht. destruct (negb _); exact Ht.
Qed.

Lemma leftBehind_In (w : World) (name : string) :
  In name (leftBehind w) <->
  In name (map fst (written w)) /\ ~ In name (removed w).
Proof.
  unfold leftBehind. rewrite filter_In. split.
  - intros [Hw Hr]. split; [exact Hw |]. intros Hin.
    assert (Ht : existsb (String.eqb name) (removed w) = true).
    { apply existsb_exists. exists name. rewrite String.eqb_refl. auto. }
    rewrite Ht in Hr. discriminate.
  - intros [Hw Hr]. split; [exact Hw |].
    destruct (existsb (String.eqb name) (removed w)) eqn:E; [| reflexivity].
    apply existsb_exists in E. destruct E as (y & Hy & E).
    apply String.eqb_eq in E. subst y. contradiction.
Qed.

Lemma cleaned_up (w w1 : World) (cleanup : option string) :
  (cleanup = None /\ written w1 = written w /\ removed w1 = removed w) \/
  (exists name data, cleanup = Some name /\
     written w1 = (written w ++ [(name, data)])%list /\
     removed w1 = removed w) ->
  incl (leftBehind (runCleanup cleanup w1)) (leftBehind w).
Proof.
  intros [(-> & Hw & Hr) | (name & data & -> & Hw & Hr)] n Hn;
    apply leftBehind_In in Hn; apply leftBehind_In; simpl in Hn.
  - rewrite Hw, Hr in Hn. exact Hn.
  - rewrite Hw, Hr, map_app in Hn. simpl in Hn. destruct Hn as [Hin Hout].
    split.
    + apply in_app_or in Hin. destruct Hin as [Hin | [<- | []]]; [exact Hin |].
      exfalso. apply Hout. apply in_or_app. right. left. reflexivity.
    + intros Hrem. apply Hout. apply in_or_app. left. exact Hrem.
Qed.

Lemma buildMCPArgs_files (w : World) (fs : TempFileOutcome)
  (servers : list MCPServer) :
  let built := buildMCPArgs w fs servers in
  let w1 := snd built in
  let cleanup := snd (fst (fst built)) in
  match snd (fst built) with
  | Some _ =>
      written w1 = written w /\
      (removed w1 = removed w \/
       exists name, removed w1 = (removed w ++ [name])%list)
  | None =>
      (cleanup = None /\ written w1 = written w /\ removed w1 = removed w /\
       servers = []) \/
      (exists name data, cleanup = Some name /\
         written w1 = (written w ++ [(name, data)])%list /\
         removed w1 = removed w)
  end.
Proof.
  cbv zeta. unfold buildMCPArgs.
  destruct servers as [|srv servers]; [left; repeat split |].
  destruct (marshalConfig _) as [data|e]; [| simpl; auto].
  destruct fs as [e | name e | name]; simpl; eauto.
  right. exists name, data. auto.
Qed.

(** X25: [ClaudeExecute] and [ClaudeAnswer] leave no temporary file
    behind: every file written and not removed when they return was
    already there when they were called, whether the configuration could
    be built or not and however the child processes ended.  Without
    servers they write and remove nothing. *)
Theorem executor_leaves_no_config_file :
  forall (w : World) (fs : TempFileOutcome) (job : Job)
         (mcpServers : list MCPServer) (answer : string),
    let w1 := snd (ClaudeExecute w fs job mcpServers) in
    let w2 := snd (ClaudeAnswer w fs job mcpServers answer) in
    incl (leftBehind w1) (leftBehind w) /\
    incl (leftBehind w2) (leftBehind w) /\
    (mcpServers = [] ->
       written w1 = written w /\ removed w1 = removed w /\
       written w2 = written w /\ removed w2 = removed w).
Proof.
  intros w fs job mcpServers answer w1 w2. subst w1 w2.
  assert (Hrun : forall (wa : World) (args : list string),
            written (snd (runClaude wa args)) = written wa /\
            removed (snd (runClaude wa args)) = removed wa)
    by apply runClaude_files.
  assert (Hincl :
    incl (leftBehind (snd (ClaudeExecute w fs job mcpServers))) (leftBehind w) /\
    incl (leftBehind (snd (ClaudeAnswer w fs job mcpServers answer)))
         (leftBehind w)).
  { pose proof (buildMCPArgs_files w fs mcpServers) as Hb. cbv zeta in Hb.
    assert (Herr : forall wb : World,
              written wb = written w ->
              (removed wb = removed w \/
               exists name, removed wb = (removed w ++ [name])%list) ->
              incl (leftBehind wb) (leftBehind w)).
    { intros wb Hw Hr n Hn. apply leftBehind_In in Hn. apply leftBehind_In.
      rewrite Hw in Hn. destruct Hn as [Hin Hout]. split; [exact Hin |].
      intros Hi. apply Hout. destruct Hr as [-> | (name & ->)]; [exact Hi |].
      apply in_or_app. left. exact Hi. }
    unfold ClaudeExecute, ClaudeAnswer.
    destruct (buildMCPArgs w fs mcpServers) as [[[mcpArgs cleanup] [e|]] wb];
      cbn [fst snd] in Hb.
    - destruct Hb as [Hw Hr]. split; apply Herr; assumption.
    - cbv zeta.
      assert (Hfin : forall wf : World,
                written wf = written wb -> removed wf = removed wb ->
                incl (leftBehind (runCleanup cleanup wf)) (leftBehind w)).
      { intros wf Hw Hr. apply cleaned_up.
        destruct Hb as [(Hc & H2 & H3 & _) | (name & data & Hc & H2 & H3)].
        - left. rewrite Hw, Hr. auto.
        - right. exists name, data. rewrite Hw, Hr. auto. }
      split.
      + match goal with |- context [runClaude wb ?a] =>
          destruct (Hrun wb a) as [Hw1 Hr1];
          destruct (runClaude wb a) as [[r1 e1] wa] end.
        cbn [snd] in Hw1, Hr1.
        destruct e1 as [e1|]; [| apply Hfin; assumption].
        destruct (Contains e1 "No conversation found");
          [| apply Hfin; assumption].
        match goal with |- context [runClaude wa ?a] =>
          destruct (Hrun wa a) as [Hw2 Hr2];
          destruct (runClaude wa a) as [[r2 e2] wc] end.
        cbn [snd] in Hw2, Hr2. apply Hfin; congruence.
      + match goal with |- context [runClaude wb ?a] =>
          destruct (Hrun wb a) as [Hw1 Hr1];
          destruct (runClaude wb a) as [[r1 e1] wa] end.
        cbn [snd] in Hw1, Hr1. apply Hfin; assumption. }
  split; [apply Hincl |]. split; [apply Hincl |].
  intros ->. unfold ClaudeExecute, ClaudeAnswer. cbn [buildMCPArgs]. cbv zeta.
  assert (He : written (snd (ClaudeExecute w fs job [])) = written w /\
               removed (snd (ClaudeExecute w fs job [])) = removed w).
  { unfold ClaudeExecute. cbn [buildMCPArgs]. cbv zeta.
    match goal with |- context [runClaude w ?a] =>
      destruct (Hrun w a) as [Hw1 Hr1];
      destruct (runClaude w a) as [[r1 e1] wa] end.
    cbn [snd] in Hw1, Hr1.
    destruct e1 as [e1|]; [| split; assumption].
    destruct (Contains e1 "No conversation found"); [| split; assumption].
    match goal with |- context [runClaude wa ?a] =>
      destruct (Hrun wa a) as [Hw2 Hr2];
      destruct (runClaude wa a) as [[r2 e2] wc] end.
    cbn [snd runCleanup] in *. split; congruence. }
  assert (Ha : written (snd (ClaudeAnswer w fs job [] answer)) = written w /\
               removed (snd (ClaudeAnswer w fs job [] answer)) = removed w).
  { unfold ClaudeAnswer. cbn [buildMCPArgs]. cbv zeta.
    match goal with |- context [runClaude w ?a] =>
      destruct (Hrun w a) as [Hw1 Hr1];
      destruct (runClaude w a) as [[r1 e1] wa] end.
    cbn [snd] in Hw1, Hr1. split; assumption. }
  unfold ClaudeExecute, ClaudeAnswer in He, Ha.
  cbn [buildMCPArgs] in He, Ha. cbv zeta in He, Ha.
  destruct He as [He1 He2]. destruct Ha as [Ha1 Ha2]. auto.
Qed.

End Lines.

End ExecutorFacts.

(* ===================================================================== *)
(** * Properties of the servers of a job *)
(* ===================================================================== *)

Module ServerFacts.
Import GoStrings Db Coverage SortFacts.

(** X26: [GetMCPServersForJob] returns the servers of the table that an
    association row links to the job, each once, and no other, ordered by
    name. *)
Theorem GetMCPServersForJob_linked_by_name :
  forall (s : Store) (jobID : string),
    let linked m := In (jobID, mcp_ID m) (job_mcp_servers s) in
    (forall m, In m (GetMCPServersForJob s jobID) <->
               In m (mcp_servers s) /\ linked m) /\
    (NoDup (mcp_servers s) -> NoDup (GetMCPServersForJob s jobID)) /\
    orderedBy (fun a b => String.leb (mcp_Name a) (mcp_Name b))
              (GetMCPServersForJob s jobID) = true.
Proof.
  intros s jobID linked. subst linked. unfold GetMCPServersForJob.
  split; [| split].
  - intros m. rewrite sort_by_In, filter_In, existsb_exists. split.
    + intros [Hin ([j i] & Hp & Hb)]. split; [exact Hin |].
      simpl in Hb. apply andb_prop in Hb. destruct Hb as [Hj Hi].
      apply String.eqb_eq in Hj. apply String.eqb_eq in Hi.
      subst j i. exact Hp.
    + intros [Hin Hp]. split; [exact Hin |].
      exists (jobID, mcp_ID m). split; [exact Hp |].
      simpl. rewrite !String.eqb_refl. reflexivity.
  - intros Hn.
    apply (Permutation_NoDup (Permutation_sym (sort_by_perm _ _))).
    apply NoDup_filter. exact Hn.
  - apply sort_by_ordered. intros a b. apply leb_total_bool.
Qed.

End ServerFacts.
